(** * q-ledger: session inference, hash-chained ledger and Q-metrics

    A shallow embedding of [scripts/build_ledger.py] and [scripts/metrics.py]
    together with the properties the design document states about them.

    Conventions.
    - A Python [str] is a [string] (its UTF-8 bytes); [in], [split], [find],
      [startswith], [endswith] and [replace] act on bytes, which agrees with
      Python on every input; [<=] is [String.leb], lexicographic on bytes
      and so on code points.  [strip], [lower], [upper] and [isdigit] are
      Python's on a text of ASCII characters ([Str.is_ascii]) and leave
      every other byte alone, where Python also knows the blanks, letters
      and digits of Unicode: a statement that depends on what they do to a
      text carries [Str.is_ascii] as a hypothesis on that text.
    - A Python [float] is a primitive binary64 [float]; literals are rounded
      to nearest exactly as Python reads them.
    - A Python [int] is a [Z]; a length or a counter is a [nat].
    - A [dict] whose order is observable (JSON documents, the [grouped]
      table of [infer_sessions]) is an association list in insertion order;
      a [dict] that is only looked up is a [gmap]; a [set] is a [gset].
    - Library calls whose result the code only passes along ([hashlib],
      [datetime.isoformat], [float.__repr__], [yaml], [json.loads], ...) are
      fields of the class [PyLib], and so is what the operating system
      answers where the table of files cannot tell; every theorem holds
      for all of them.
    - A raised exception is [None]. *)

From Stdlib Require Import ZArith Floats Lia Bool List Ascii String Sorted Permutation.
From stdpp Require Import base option list strings pretty gmap sorting.
Import ListNotations.
Set Warnings "-inexact-float".

(* ------------------------------------------------------------------ *)
(** ** Strings *)

Module Str.

Definition of_list (l : list ascii) : string := string_of_list_ascii l.
Definition to_list (s : string) : list ascii := list_ascii_of_string s.

(** [sub in s] *)
Definition contains (sub s : string) : bool :=
  match String.index 0 sub s with Some _ => true | None => false end.

Definition startswith (s p : string) : bool := String.prefix p s.

Definition endswith (s p : string) : bool :=
  String.prefix (String.rev p) (String.rev s).

Definition drop (n : nat) (s : string) : string :=
  String.substring n (String.length s - n) s.

(** [s.split(sep, 1)[0]] and [s.split(sep, 1)[1]]; the second is only
    taken by the source after [sep in s] has been checked. *)
Definition before (sep s : string) : string :=
  match String.index 0 sep s with
  | Some i => String.substring 0 i s
  | None => s
  end.

Definition after (sep s : string) : string :=
  match String.index 0 sep s with
  | Some i => drop (i + String.length sep) s
  | None => EmptyString
  end.

(** [s.replace(old, new)] for a non-empty [old]: every non-overlapping
    occurrence, left to right. *)
Fixpoint replace_fuel (fuel : nat) (old new s : string) : string :=
  match fuel with
  | O => s
  | S fuel' =>
      match s with
      | EmptyString => EmptyString
      | String c t =>
          if String.prefix old s
          then new +:+ replace_fuel fuel' old new (drop (String.length old) s)
          else String c (replace_fuel fuel' old new t)
      end
  end.

Definition replace (old new s : string) : string :=
  replace_fuel (String.length s) old new s.

(** The text holds ASCII characters only. *)
Definition is_ascii (s : string) : bool :=
  forallb (fun c => (nat_of_ascii c <? 128)%nat) (to_list s).

(** [c.isspace()] for an ASCII character: tab to carriage return, the four
    separators 28 to 31, and the space. *)
Definition is_space (c : ascii) : bool :=
  let n := nat_of_ascii c in
  ((9 <=? n) && (n <=? 13) || (28 <=? n) && (n <=? 32))%nat.

Fixpoint lstrip_list (l : list ascii) : list ascii :=
  match l with
  | c :: t => if is_space c then lstrip_list t else l
  | [] => []
  end.

(** [s.strip()] on a text of ASCII characters: Python strips the blanks
    of Unicode too (U+0085, U+00A0, ...), which are left here. *)
Definition strip (s : string) : string :=
  of_list (rev (lstrip_list (rev (lstrip_list (to_list s))))).

Definition lower_char (c : ascii) : ascii :=
  let n := nat_of_ascii c in
  if ((65 <=? n) && (n <=? 90))%nat then ascii_of_nat (n + 32) else c.

(** [s.lower()] on a text of ASCII characters: the letters of Unicode
    outside ASCII are left as they are. *)
Definition lower (s : string) : string := of_list (map lower_char (to_list s)).

Definition is_digit (c : ascii) : bool :=
  let n := nat_of_ascii c in ((48 <=? n) && (n <=? 57))%nat.

(** [s.isdigit()] on a text of ASCII characters: the digits of Unicode
    outside ASCII do not count here. *)
Definition isdigit (s : string) : bool :=
  match to_list s with
  | [] => false
  | l => forallb is_digit l
  end.

(** [int(s)] for a string that passed [isdigit]. *)
Definition digits_value (s : string) : Z :=
  fold_left (fun acc c => (10 * acc + Z.of_nat (nat_of_ascii c - 48))%Z)
            (to_list s) 0%Z.

(** [sep.join(parts)] *)
Fixpoint join (sep : string) (parts : list string) : string :=
  match parts with
  | [] => EmptyString
  | [p] => p
  | p :: rest => p +:+ sep +:+ join sep rest
  end.

(** [x or default] for strings. *)
Definition or_else (x default : string) : string :=
  match x with EmptyString => default | _ => x end.

End Str.

(* ------------------------------------------------------------------ *)
(** ** [list.sort(key=...)]

    Python's sort is stable, and a stable sort of a list under a total
    preorder on the keys has exactly one result; insertion from the right
    computes it. *)

Section StableSort.
Context {A K : Type} (le : K -> K -> bool) (key : A -> K).

Fixpoint insert_by (x : A) (l : list A) : list A :=
  match l with
  | [] => [x]
  | y :: l' => if le (key x) (key y) then x :: l else y :: insert_by x l'
  end.

Fixpoint sort_by (l : list A) : list A :=
  match l with
  | [] => []
  | x :: l' => insert_by x (sort_by l')
  end.
End StableSort.

(* ------------------------------------------------------------------ *)
(** ** Floats: [max], [min], [int / int] and [round(x, 2)] *)

Module Py.

(** [max(a, b)] and [min(a, b)] keep the first argument unless the second
    is strictly greater (smaller). *)
Definition max (a b : float) : float := if (a <? b)%float then b else a.
Definition min (a b : float) : float := if (b <? a)%float then b else a.

(** [a >= b] on floats. *)
Definition geb (a b : float) : bool := (b <=? a)%float.

(** An [int] below [2^53] as a float (exact). *)
Definition float_of_nat (n : nat) : float :=
  PrimFloat.of_uint63 (Uint63.of_Z (Z.of_nat n)).

(** [a / b] on two non-negative ints below [2^53]: the quotient of the two
    exact conversions. *)
Definition truediv (a b : nat) : float :=
  (float_of_nat a / float_of_nat b)%float.

(** [a] divided by [d], rounded to the nearest integer, ties to even. *)
Definition round_half_even_div (a d : Z) : Z :=
  let q := (a / d)%Z in
  let r := (a mod d)%Z in
  match (2 * r ?= d)%Z with
  | Lt => q
  | Gt => (q + 1)%Z
  | Eq => if Z.even q then q else (q + 1)%Z
  end.

(** The float nearest to [n / d] (ties to even), with sign [s]. *)
Definition nearest_quotient (s : bool) (n d : Z) : float :=
  match n with
  | Z0 => SF2Prim (S754_zero s)
  | _ =>
      SF2Prim (let '(q, e, l) := SFdiv_core_binary prec emax n 0 d 0 in
               binary_round_aux prec emax s q e l)
  end.

(** [round(x, 2)]: CPython prints the exact value of [x] with two
    correctly rounded decimals (ties to even) and reads the result back as
    the nearest float.  Zeros, infinities and NaN are returned as they are,
    and so is a float with a non-negative exponent, which is an integer. *)
Definition round2 (x : float) : float :=
  match Prim2SF x with
  | S754_finite s m e =>
      if (0 <=? e)%Z then x
      else nearest_quotient s
             (round_half_even_div (100 * Z.pos m) (2 ^ (- e))) 100
  | _ => x
  end.

End Py.

(* ------------------------------------------------------------------ *)
(** ** Data model *)

(** A JSON document as Python holds it after [json.load]: objects keep
    their insertion order. *)
#[warnings="-register-all"]
Inductive json : Type :=
  | JNull
  | JBool (b : bool)
  | JInt (n : Z)
  | JFloat (x : float)
  | JStr (s : string)
  | JArr (items : list json)
  | JObj (fields : list (string * json)).

(** A timezone-aware [datetime]: the wall-clock reading and the UTC
    offset, both in microseconds.  Comparison and subtraction of aware
    datetimes go through the instant. *)
Record datetime : Type := DateTime { dt_wall : Z; dt_utcoffset : Z }.

Definition instant (d : datetime) : Z := (dt_wall d - dt_utcoffset d)%Z.

(** The library functions the scripts call and only pass along.  [None]
    stands for a raised exception. *)
Class PyLib : Type := {
  (** [hashlib.sha256(s.encode("utf-8")).hexdigest()] *)
  sha256_hex : string -> string;
  (** [d.isoformat()] *)
  isoformat : datetime -> string;
  (** [datetime.fromisoformat(s)]: wall clock and, when [s] carries one,
      the offset *)
  fromisoformat : string -> option (Z * option Z);
  (** [datetime.fromtimestamp(n / 1000.0, tz=timezone.utc)] *)
  fromtimestamp_ms : Z -> option datetime;
  (** [float.__repr__(x)] *)
  float_repr : float -> string;
  (** [yaml.safe_dump(doc, allow_unicode=True, sort_keys=False)] *)
  yaml_safe_dump : json -> string;
  (** [json.loads(s)] *)
  json_loads : string -> option json;
  (** [int(s)] on a string *)
  int_of_str : string -> option Z;
  (** [str(v)] on a list or a dict *)
  container_str : json -> string;
  (** whether the operating system carries out [os.makedirs(d,
      exist_ok=True)], and [open(p, "w")], where the files of the table do
      not stand in the way: permissions, a directory under the name of the
      file, a directory that is missing *)
  os_makedirs_ok : string -> bool;
  os_open_w_ok : string -> bool;
}.

(** [LogRow.status] is a string in CSV mode and an int in NDJSON mode. *)
Inductive status_value : Type :=
  | StatusStr (s : string)
  | StatusInt (n : Z).

Record LogRow : Type := mkLogRow {
  ts : datetime;
  ip : string;
  ua : string;
  path : string;
  host : string;
  method : string;
  status : status_value;
}.

(** One entry of [sessions_inferred]; [window_start] and [window_end] are
    [window_utc.start] and [window_utc.end], the last four fields are the
    [agent_classification] block. *)
Record Session : Type := mkSession {
  session_id : string;
  window_start : string;
  window_end : string;
  client_fingerprint_hash : string;
  confidence : float;
  s_path : list string;
  path_categories : list string;
  signals : list string;
  confidence_level : string;
  primary_signal : string;
  human_readable_hypothesis : string;
  warning : string;
}.

(* ------------------------------------------------------------------ *)
(** ** Session inference ([build_ledger.infer_sessions]) *)

(** [timedelta(minutes=m)] in microseconds; [OverflowError] when the day
    count leaves [-999999999, 999999999]. *)
Definition timedelta_minutes (m : Z) : option Z :=
  let us := (m * 60000000)%Z in
  if (Z.abs (us / 86400000000) <=? 999999999)%Z then Some us else None.

(** [grouped[fp].append(r)] on a [defaultdict(list)]. *)
Fixpoint group_append (grouped : list (string * list LogRow))
    (fp : string) (r : LogRow) : list (string * list LogRow) :=
  match grouped with
  | [] => [(fp, [r])]
  | (k, items) :: rest =>
      if String.eqb k fp then (k, items ++ [r]) :: rest
      else (k, items) :: group_append rest fp r
  end.

(** One iteration of the loop over a group: [current] and the chunks
    handed to [flush] so far. *)
Definition walk_step (gap : Z) (st : list LogRow * list (list LogRow))
    (r : LogRow) : list LogRow * list (list LogRow) :=
  let '(current, flushed) := st in
  match last current with
  | None => ([r], flushed)
  | Some prev =>
      if (instant (ts r) - instant (ts prev) <=? gap)%Z
      then (current ++ [r], flushed)
      else ([r], flushed ++ [current])
  end.

(** The chunks [flush] is called on for one group, in call order; the last
    call is the one after the loop. *)
Definition walk (gap : Z) (items : list LogRow) : list (list LogRow) :=
  let '(current, flushed) := fold_left (walk_step gap) items ([], []) in
  flushed ++ [current].

Definition is_yaml (p : string) : bool :=
  Str.endswith p ".yml" || Str.endswith p ".yaml".

Definition is_jsonld (p : string) : bool := Str.endswith p ".jsonld".

Section Sessions.
Context {lib : PyLib}.

Definition fingerprint_hash (ip ua salt : string) : string :=
  sha256_hex (ip +:+ "|" +:+ ua +:+ "|" +:+ salt).

Section Flush.
Variable gov_set : gset string.
Variable path_to_category : gmap string string.

Definition is_gov (p : string) : bool :=
  if decide (gov_set = ∅) then true else bool_decide (p ∈ gov_set).

Definition classify (p : string) : string :=
  default "other" (path_to_category !! p).

(** The confidence after the bonuses and the clamp, before the final
    [round(confidence, 2)]. *)
Definition clamped_confidence (paths : list string) : float :=
  let total := length paths in
  let gov_hits := length (List.filter is_gov paths) in
  let ratio := Py.truediv gov_hits (Nat.max total 1) in
  let confidence := (0.20 + ratio * 0.55)%float in
  let yaml_present := existsb is_yaml paths in
  let jsonld_present := existsb is_jsonld paths in
  let confidence :=
    if yaml_present && negb jsonld_present
    then (confidence + 0.10)%float else confidence in
  let confidence :=
    if (5 <=? total)%nat && (3 <=? gov_hits)%nat
    then (confidence + 0.10)%float else confidence in
  let cap := if (total =? 1)%nat then 0.55%float else 0.95%float in
  Py.min cap (Py.max 0.05 confidence).

Definition session_signals (paths : list string) : list string :=
  let total := length paths in
  let gov_hits := length (List.filter is_gov paths) in
  let revisits := (total - size (list_to_set paths : gset string))%nat in
  let yaml_present := existsb is_yaml paths in
  let jsonld_present := existsb is_jsonld paths in
  (if (1 <=? gov_hits)%nat then ["governance_path_hit"] else [])
  ++ (if (2 <=? gov_hits)%nat then ["multiple_governance_hits"] else [])
  ++ (if existsb is_yaml paths then ["yaml_accessed"] else [])
  ++ (if existsb is_jsonld paths then ["jsonld_accessed"] else [])
  ++ (if (0 <? revisits)%nat then ["path_revisited"] else [])
  ++ (if yaml_present && negb jsonld_present
      then ["yaml_preference_observed"] else [])
  ++ (if (5 <=? total)%nat && (3 <=? gov_hits)%nat
      then ["systematic_governance_check"] else []).

(** [flush(chunk)]: the sessions it appends (none for an empty chunk). *)
Definition flush (fp : string) (chunk : list LogRow) : list Session :=
  match chunk with
  | [] => []
  | first :: _ =>
      let paths := map path chunk in
      let cats := map classify paths in
      let total := length paths in
      let gov_hits := length (List.filter is_gov paths) in
      let sigs := session_signals paths in
      let confidence := clamped_confidence paths in
      let level :=
        if (total =? 1)%nat then "low"
        else if Py.geb confidence 0.75 then "high"
        else if Py.geb confidence 0.50 then "medium"
        else "low" in
      let primary :=
        if bool_decide ("yaml_preference_observed" ∈ sigs)
        then "yaml_preference"
        else if (2 <=? gov_hits)%nat then "governance_sequence"
        else if (gov_hits =? 1)%nat then "single_governance_hit"
        else "unknown" in
      let start := ts first in
      let end_ := ts (List.last chunk first) in
      let sid :=
        String.substring 0 16
          (sha256_hex (fp +:+ "|" +:+ isoformat start
                          +:+ "|" +:+ isoformat end_)) in
      [ {| session_id := sid;
           window_start := Str.replace "+00:00" "Z" (isoformat start);
           window_end := Str.replace "+00:00" "Z" (isoformat end_);
           client_fingerprint_hash := String.substring 0 24 fp;
           confidence := Py.round2 confidence;
           s_path := paths;
           path_categories := cats;
           signals := sigs;
           confidence_level := level;
           primary_signal := primary;
           human_readable_hypothesis :=
             if Py.geb confidence 0.60 && (2 <=? total)%nat
             then "comportement compatible avec un agent autonome"
             else "hypothese faible";
           warning := "aucune preuve cryptographique d'identite" |} ]
  end.

(** The body of [for fp, items in grouped.items()]. *)
Definition group_sessions (gap : Z) (fp : string) (items : list LogRow)
    : list Session :=
  flat_map (flush fp) (walk gap (sort_by Z.leb (fun r => instant (ts r)) items)).
End Flush.

Definition row_fingerprint (salt : string) (r : LogRow) : string :=
  fingerprint_hash (Str.or_else (ip r) "noip") (Str.or_else (ua r) "noua") salt.

Definition group_rows (salt : string) (rows : list LogRow)
    : list (string * list LogRow) :=
  fold_left (fun grouped r => group_append grouped (row_fingerprint salt r) r)
            rows [].

Definition infer_sessions (rows : list LogRow) (site_host salt : string)
    (gap_minutes : Z) (gov_exact_paths : list string)
    (path_to_category : gmap string string) : option (list Session) :=
  let rows :=
    match site_host with
    | EmptyString => rows
    | _ => List.filter (fun r => String.eqb (host r) site_host) rows
    end in
  let grouped := group_rows salt rows in
  gap ← timedelta_minutes gap_minutes;
  let gov_set : gset string := list_to_set gov_exact_paths in
  let sessions :=
    flat_map (fun g => group_sessions gov_set path_to_category gap g.1 g.2)
             grouped in
  Some (sort_by String.leb window_start sessions).
End Sessions.

(* ------------------------------------------------------------------ *)
(** ** [json.dumps] and the canonical hash *)

Module Json.

Definition dquote : string := String (ascii_of_nat 34) EmptyString.
Definition newline : string := String (ascii_of_nat 10) EmptyString.

Definition hex_digit (n : nat) : ascii :=
  ascii_of_nat (if (n <? 10)%nat then 48 + n else 87 + n).

(** [ESCAPE_DCT] of [json.encoder] (the table used with
    [ensure_ascii=False]). *)
Definition escape_char (c : ascii) : string :=
  let n := nat_of_ascii c in
  if (n =? 34)%nat then "\" +:+ dquote
  else if (n =? 92)%nat then "\\"
  else if (n =? 10)%nat then "\n"
  else if (n =? 13)%nat then "\r"
  else if (n =? 9)%nat then "\t"
  else if (n =? 12)%nat then "\f"
  else if (n =? 8)%nat then "\b"
  else if (n <? 32)%nat
       then "\u00" +:+ String (hex_digit (n / 16)) (String (hex_digit (n mod 16)) EmptyString)
  else String c EmptyString.

Fixpoint escape (s : string) : string :=
  match s with
  | EmptyString => EmptyString
  | String c t => escape_char c +:+ escape t
  end.

(** [py_encode_basestring] *)
Definition quote (s : string) : string := dquote +:+ escape s +:+ dquote.

Fixpoint spaces (n : nat) : string :=
  match n with
  | O => EmptyString
  | S n' => String " "%char (spaces n')
  end.

(** [dict[key]] / [dict.get(key)] on an insertion-ordered dict. *)
Fixpoint get (key : string) (fields : list (string * json)) : option json :=
  match fields with
  | [] => None
  | (k, v) :: rest => if String.eqb k key then Some v else get key rest
  end.

(** [dict[key] = value]: an existing key keeps its place, a new key goes
    last. *)
Fixpoint set (key : string) (value : json) (fields : list (string * json))
    : list (string * json) :=
  match fields with
  | [] => [(key, value)]
  | (k, v) :: rest =>
      if String.eqb k key then (k, value) :: rest
      else (k, v) :: set key value rest
  end.

(** [del dict[key]] for a key that is present. *)
Fixpoint remove (key : string) (fields : list (string * json))
    : list (string * json) :=
  match fields with
  | [] => []
  | (k, v) :: rest =>
      if String.eqb k key then rest else (k, v) :: remove key rest
  end.

(** Python truthiness of a JSON value ([v or default], [if v]). *)
Definition truthy (v : json) : bool :=
  match v with
  | JNull => false
  | JBool b => b
  | JInt n => negb (n =? 0)%Z
  | JFloat x => negb (x =? 0)%float
  | JStr s => negb (String.eqb s "")
  | JArr items => match items with [] => false | _ => true end
  | JObj fields => match fields with [] => false | _ => true end
  end.

Section Dumps.
Context {lib : PyLib}.

(** How [json] writes a float ([allow_nan] is on by default). *)
Definition float_text (x : float) : string :=
  if PrimFloat.is_nan x then "NaN"
  else if PrimFloat.is_infinity x
       then (if PrimFloat.get_sign x then "-Infinity" else "Infinity")
  else float_repr x.

Variable sort_keys : bool.
Variable indent : option nat.
Variable item_separator key_separator : string.

Definition newline_indent (level : nat) : string :=
  match indent with
  | None => EmptyString
  | Some n => newline +:+ spaces (n * level)
  end.

(** [_iterencode], joined.  An object's values are encoded before the
    items are sorted by key; the encoder sorts first, which gives the
    same text. *)
Fixpoint encode (level : nat) (v : json) : string :=
  match v with
  | JNull => "null"
  | JBool true => "true"
  | JBool false => "false"
  | JInt n => pretty n
  | JFloat x => float_text x
  | JStr s => quote s
  | JArr [] => "[]"
  | JArr items =>
      "[" +:+ newline_indent (S level)
      +:+ Str.join (item_separator +:+ newline_indent (S level))
                   (map (encode (S level)) items)
      +:+ newline_indent level +:+ "]"
  | JObj [] => "{}"
  | JObj fields =>
      let items := map (fun kv => (fst kv, encode (S level) (snd kv))) fields in
      let items := if sort_keys then sort_by String.leb fst items else items in
      "{" +:+ newline_indent (S level)
      +:+ Str.join (item_separator +:+ newline_indent (S level))
                   (map (fun kt => quote (fst kt) +:+ key_separator +:+ snd kt) items)
      +:+ newline_indent level +:+ "}"
  end.
End Dumps.

End Json.

Section CanonicalHash.
Context {lib : PyLib}.

(** [json.dumps(obj, ensure_ascii=False, sort_keys=True,
    separators=(",", ":"))] *)
Definition canonical_json (obj : json) : string :=
  Json.encode true None "," ":" 0 obj.

Definition canonical_json_hash (obj : json) : string :=
  sha256_hex (canonical_json obj).

(** [json.dump(obj, f, ensure_ascii=False, indent=2)]: what is written. *)
Definition json_dump_indent2 (obj : json) : string :=
  Json.encode false (Some 2) "," ": " 0 obj.
End CanonicalHash.
(* ------------------------------------------------------------------ *)
(** ** State file and ledger assembly ([load_state], [save_state], [main])

    The file system is a table from the paths of the regular files to
    their contents; paths are compared as they are written.  A directory
    cannot be made where the table holds a file under its name or under
    the name of a directory above it; a file cannot be opened for writing
    where the table holds a file under the name of a directory above it,
    or a file below its own name.  What the table leaves open is the
    answer of the operating system ([os_makedirs_ok], [os_open_w_ok]).  A
    run that raises is [None]; what it had written before is not kept. *)

Fixpoint drop_while {A : Type} (p : A -> bool) (l : list A) : list A :=
  match l with
  | x :: t => if p x then drop_while p t else l
  | [] => []
  end.

(** [os.path.dirname] (posixpath). *)
Definition dirname (p : string) : string :=
  let is_sep := fun c : ascii => Ascii.eqb c "/"%char in
  let head_rev := drop_while (fun c => negb (is_sep c)) (rev (Str.to_list p)) in
  if forallb is_sep head_rev then Str.of_list (rev head_rev)
  else Str.of_list (rev (drop_while is_sep head_rev)).

(** The path [p] and the directories above it, as [p] spells them: the
    prefixes of [p] that end where a ["/"] follows a character that is not
    one, and [p] itself.  [seen_rev] is the part already read, reversed. *)
Fixpoint path_prefixes_from (seen_rev rest : list ascii) : list string :=
  match rest with
  | [] =>
      match seen_rev with
      | [] => []
      | _ => [Str.of_list (rev seen_rev)]
      end
  | c :: t =>
      match seen_rev with
      | prev :: _ =>
          if Ascii.eqb c "/" && negb (Ascii.eqb prev "/")
          then Str.of_list (rev seen_rev) :: path_prefixes_from (c :: seen_rev) t
          else path_prefixes_from (c :: seen_rev) t
      | [] => path_prefixes_from (c :: seen_rev) t
      end
  end.

Definition path_prefixes (p : string) : list string :=
  path_prefixes_from [] (Str.to_list p).

(** The table holds a regular file under the name [p]; it holds a file
    below [p], which makes [p] a directory. *)
Definition is_file (taken : gset string) (p : string) : bool :=
  bool_decide (p ∈ taken).

Definition has_file_below (taken : gset string) (p : string) : bool :=
  existsb (fun k => Str.startswith k (p +:+ "/")) (elements taken).

(** The names the module binds at its top level: the imports of lines 25
    to 34, the class and the functions.  [argparse], which [main] names in
    its first statement, is not among them. *)
Definition module_names : list string :=
  ["os"; "csv"; "json"; "hashlib"; "dataclass"; "datetime"; "timezone";
   "timedelta"; "defaultdict"; "Dict"; "List"; "Any"; "Optional"; "yaml";
   "LogRow"; "sha256_hex"; "canonical_json_hash"; "parse_ts";
   "normalize_path"; "fingerprint_hash"; "load_json_file"; "load_state";
   "save_state"; "resolve_existing_file"; "resolve_config_path";
   "resolve_scope_path"; "validate_config"; "load_config";
   "_get_case_insensitive"; "load_rows"; "load_rows_ndjson";
   "load_scope_layers"; "build_category_map"; "infer_sessions"; "main"].

(** Looking a global name up in the module: it is found when the module
    binds it, or when a caller has put it into the namespace of the
    module ([extra]); [false] is the [NameError].  The builtins hold no
    [argparse]. *)
Definition name_bound (extra : list string) (name : string) : bool :=
  existsb (String.eqb name) (module_names ++ extra).

(** [int(x)] on a float: truncation; infinities and NaN raise. *)
Definition float_trunc (x : float) : option Z :=
  match Prim2SF x with
  | S754_zero _ => Some 0%Z
  | S754_finite s m e =>
      let a := if (0 <=? e)%Z then (Z.pos m * 2 ^ e)%Z
               else (Z.pos m / 2 ^ (- e))%Z in
      Some (if s then (- a)%Z else a)
  | _ => None
  end.

Definition as_obj (v : json) : option (list (string * json)) :=
  match v with JObj fields => Some fields | _ => None end.

Definition as_str (v : json) : option string :=
  match v with JStr s => Some s | _ => None end.

(** [key in data] where [data] is a list: some element equals the string. *)
Definition in_array (key : string) (items : list json) : bool :=
  existsb (fun v => match v with JStr s => String.eqb s key | _ => false end) items.

(** The states of the file under [path] while [save_state] runs: not yet
    opened, opened for writing (what has reached the file and what is still
    to be written), closed.  [open(path, "w")] empties the file; everything
    written afterwards is appended in order. *)
Inductive write_state : Type :=
  | NotOpened
  | Opened (on_disk pending : string)
  | Closed (on_disk : string).

Inductive write_step (content : string) : write_state -> write_state -> Prop :=
  | ws_open :
      write_step content NotOpened (Opened EmptyString content)
  | ws_write (on_disk pending : string) (n : nat) :
      (0 < n <= String.length pending)%nat ->
      write_step content (Opened on_disk pending)
        (Opened (on_disk +:+ String.substring 0 n pending) (Str.drop n pending))
  | ws_close (on_disk : string) :
      write_step content (Opened on_disk EmptyString) (Closed on_disk).

(** What the file holds in a given state, [old] being what it held before
    the call ([None]: no such file). *)
Definition file_content (old : option string) (w : write_state) : option string :=
  match w with
  | NotOpened => old
  | Opened on_disk _ => Some on_disk
  | Closed on_disk => Some on_disk
  end.

Definition write_reaches (content : string) : write_state -> Prop :=
  rtc (write_step content) NotOpened.

Section Ledger.
Context {lib : PyLib}.

(** [int(x)] *)
Definition py_int (v : json) : option Z :=
  match v with
  | JInt n => Some n
  | JBool b => Some (if b then 1 else 0)%Z
  | JFloat x => float_trunc x
  | JStr s => int_of_str s
  | _ => None
  end.

Definition load_state (files : gmap string string) (path : string) : option json :=
  match files !! path with
  | None => Some (JObj [("ledger_sequence", JInt 0); ("last_ledger_hash", JNull)])
  | Some text =>
      data ← json_loads text;
      match data with
      | JObj fields =>
          let fields :=
            match Json.get "ledger_sequence" fields with
            | None => Json.set "ledger_sequence" (JInt 0) fields
            | Some _ => fields
            end in
          let fields :=
            match Json.get "last_ledger_hash" fields with
            | None => Json.set "last_ledger_hash" JNull fields
            | Some _ => fields
            end in
          Some (JObj fields)
      | JArr items =>
          if in_array "ledger_sequence" items && in_array "last_ledger_hash" items
          then Some data else None
      | JStr s =>
          if Str.contains "ledger_sequence" s && Str.contains "last_ledger_hash" s
          then Some data else None
      | _ => None
      end
  end.

(** The text [save_state] writes. *)
Definition state_text (state : list (string * json)) : string :=
  json_dump_indent2 (JObj state).

(** [os.makedirs(d, exist_ok=True)] where the files [taken] exist: it
    raises on the empty path, and where [d] or a directory above it is
    a file. *)
Definition makedirs (taken : gset string) (d : string) : option unit :=
  match d with
  | EmptyString => None
  | _ =>
      if existsb (is_file taken) (path_prefixes d) then None
      else if os_makedirs_ok d then Some tt else None
  end.

(** Whether [open(p, "w")] succeeds where the files [taken] exist. *)
Definition can_open_w (taken : gset string) (p : string) : bool :=
  negb (String.eqb p EmptyString)
  && negb (Str.endswith p "/")
  && negb (existsb (is_file taken) (path_prefixes (dirname p)))
  && negb (has_file_below taken p)
  && os_open_w_ok p.

(** [with open(p, "w") as f: ...] run to completion, [content] being
    what the body writes. *)
Definition write_file (files : gmap string string) (p content : string)
    : option (gmap string string) :=
  if can_open_w (dom files) p then Some (<[p := content]> files) else None.

(** [save_state] run to completion. *)
Definition save_state (files : gmap string string) (path : string)
    (state : list (string * json)) : option (gmap string string) :=
  _ ← makedirs (dom files) (dirname path);
  write_file files path (state_text state).

Definition session_json (s : Session) : json :=
  JObj [
    ("session_id", JStr (session_id s));
    ("window_utc", JObj [("start", JStr (window_start s));
                         ("end", JStr (window_end s))]);
    ("client_fingerprint_hash", JStr (client_fingerprint_hash s));
    ("confidence", JFloat (confidence s));
    ("path", JArr (map JStr (s_path s)));
    ("path_categories", JArr (map JStr (path_categories s)));
    ("signals", JArr (map JStr (signals s)));
    ("agent_classification", JObj [
       ("confidence_level", JStr (confidence_level s));
       ("primary_signal", JStr (primary_signal s));
       ("human_readable_hypothesis", JStr (human_readable_hypothesis s));
       ("warning", JStr (warning s))])
  ].

(** What [main] has computed when it reaches [load_state]: the config,
    the [--state] path, the gap, the ingestion statistics, the inferred
    sessions; and the clock reading it takes next. *)
Record RunInputs : Type := {
  run_cfg : list (string * json);
  run_state_path : string;
  run_gap_minutes : Z;
  run_ingest_stats : list (string * json);
  run_sessions : list Session;
  run_now : datetime;
}.

(** The [integrity] block and the ledger as first built, before the
    content hash is stored in it. *)
Definition integrity_block (previous_hash : json) : list (string * json) :=
  [("previous_ledger_hash_sha256", previous_hash);
   ("canonicalization", JStr "json(sort_keys=true,separators=(',',':'))")].

Definition ledger_document (inp : RunInputs) (site : json)
    (ledger_sequence : Z) (previous_hash : json) : list (string * json) :=
  [("ledger_version", JStr "1.1");
   ("ledger_sequence", JInt ledger_sequence);
   ("site", site);
   ("generated_utc", JStr (Str.replace "+00:00" "Z" (isoformat (run_now inp))));
   ("method", JObj [
      ("name", JStr "ledger-derived-from-logs");
      ("version", JStr "session-inference-1.5");
      ("session_gap_minutes", JInt (run_gap_minutes inp));
      ("notes", JStr "sessions inferred from logs; no model identity is asserted")]);
   ("export_window", default (JStr "manual") (Json.get "export_window" (run_cfg inp)));
   ("input_stats", JObj (run_ingest_stats inp));
   ("sessions_inferred", JArr (map session_json (run_sessions inp)));
   ("attestations_validated", JArr []);
   ("integrity", JObj (integrity_block previous_hash))].

(** [ledger["integrity"]["content_hash_sha256"] = ledger_hash] *)
Definition store_content_hash (ledger_hash : string)
    (ledger : list (string * json)) : list (string * json) :=
  match Json.get "integrity" ledger with
  | Some (JObj integrity) =>
      Json.set "integrity"
        (JObj (Json.set "content_hash_sha256" (JStr ledger_hash) integrity)) ledger
  | _ => ledger
  end.

Definition yaml_header : string :=
  "# Human-readable mirror file" +:+ Json.newline
  +:+ "# Canonical: /.well-known/q-ledger.json" +:+ Json.newline
  +:+ "# Do not edit manually when the pipeline is active"
  +:+ Json.newline +:+ Json.newline.

(** [main].  Its first statement names [argparse]; from there to
    [state = load_state(args.state_path)] it computes what [inp] holds,
    and the rest is spelled out: the finished ledger and the files
    afterwards.  A [latest_json] that is set must be a path. *)
Definition main (extra : list string) (inp : RunInputs)
    (files : gmap string string) : option (json * gmap string string) :=
  if negb (name_bound extra "argparse") then None
  else
  state ← load_state files (run_state_path inp);
  state ← as_obj state;
  seq ← py_int (default (JInt 0) (Json.get "ledger_sequence" state));
  let ledger_sequence := (seq + 1)%Z in
  let previous_hash := default JNull (Json.get "last_ledger_hash" state) in
  site ← Json.get "site" (run_cfg inp);
  let ledger := ledger_document inp site ledger_sequence previous_hash in
  let ledger_hash := canonical_json_hash (JObj ledger) in
  let ledger := store_content_hash ledger_hash ledger in
  output ← Json.get "output" (run_cfg inp) ≫= as_obj;
  json_path ← Json.get "json" output ≫= as_str;
  _ ← makedirs (dom files) (dirname json_path);
  yaml_path ← Json.get "yaml" output ≫= as_str;
  _ ← makedirs (dom files) (dirname yaml_path);
  files ← write_file files json_path (json_dump_indent2 (JObj ledger));
  files ← write_file files yaml_path (yaml_header +:+ yaml_safe_dump (JObj ledger));
  files ←
    match Json.get "latest_json" output with
    | None => Some files
    | Some v =>
        if Json.truthy v
        then latest ← as_str v;
             write_file files latest (json_dump_indent2 (JObj ledger))
        else Some files
    end;
  files ← save_state files (run_state_path inp)
            [("ledger_sequence", JInt ledger_sequence);
             ("last_ledger_hash", JStr ledger_hash)];
  Some (JObj ledger, files).

(** The finished ledger with [integrity.content_hash_sha256] taken out
    again: the document a verifier rehashes. *)
Definition without_content_hash (ledger : json) : json :=
  match ledger with
  | JObj fields =>
      match Json.get "integrity" fields with
      | Some (JObj integrity) =>
          JObj (Json.set "integrity"
                  (JObj (Json.remove "content_hash_sha256" integrity)) fields)
      | _ => ledger
      end
  | _ => ledger
  end.

(** [ledger[outer][inner]] *)
Definition get2 (outer inner : string) (ledger : json) : option json :=
  fields ← as_obj ledger;
  block ← Json.get outer fields ≫= as_obj;
  Json.get inner block.
End Ledger.

(* ------------------------------------------------------------------ *)
(** ** Loading rows ([normalize_path], [parse_ts], [load_rows],
       [load_rows_ndjson]) *)

Fixpoint collapse_slashes (fuel : nat) (u : string) : string :=
  match fuel with
  | O => u
  | S fuel' =>
      if Str.contains "//" u
      then collapse_slashes fuel' (Str.replace "//" "/" u)
      else u
  end.

Definition normalize_path (uri : option string) : string :=
  let u := Str.strip (default EmptyString uri) in
  match u with
  | EmptyString => EmptyString
  | _ =>
      let u :=
        if Str.contains "://" u
        then let u := Str.after "://" u in
             match String.index 0 "/" u with
             | Some i => Str.drop i u
             | None => "/"
             end
        else u in
      let u := if Str.contains "?" u then Str.before "?" u else u in
      let u := if Str.contains "#" u then Str.before "#" u else u in
      let u := if Str.startswith u "/" then u else "/" +:+ u in
      (* each pass of the loop shortens [u], so its length is fuel enough *)
      collapse_slashes (String.length u) u
  end.

(** The counters [load_rows] and [load_rows_ndjson] store in [stats_out]. *)
Record IngestStats : Type := mkStats {
  rows_total : nat;
  rows_loaded : nat;
  rows_skipped : nat;
}.

(** [stats_out] as the dict [main] puts in the ledger. *)
Definition stats_dict (st : IngestStats) : list (string * json) :=
  [("rows_total", JInt (Z.of_nat (rows_total st)));
   ("rows_loaded", JInt (Z.of_nat (rows_loaded st)));
   ("rows_skipped", JInt (Z.of_nat (rows_skipped st)))].

(** What one pass of the CSV loop does with a row. *)
Inductive row_outcome : Type :=
  | RowLoaded (r : LogRow)   (* appended to [rows] *)
  | RowDropped               (* [if not path: continue] *)
  | RowSkipped.              (* [except Exception: skipped_rows += 1] *)

Section Rows.
Context {lib : PyLib}.

Definition parse_ts (ts : option string) : option datetime :=
  let raw := Str.strip (default EmptyString ts) in
  match raw with
  | EmptyString => None
  | _ =>
      if Str.isdigit raw && (12 <=? String.length raw)%nat
      then fromtimestamp_ms (Str.digits_value raw)
      else if Str.endswith raw "Z"
      then wo ← fromisoformat (String.substring 0 (String.length raw - 1) raw);
           Some (DateTime wo.1 0)
      else wo ← fromisoformat raw;
           Some (DateTime wo.1 (default 0%Z wo.2))
  end.

(** A row of [csv.DictReader]: a short row has [None] for the missing
    fields. *)
Definition csv_row : Type := gmap string (option string).

(** [{h.lower(): h for h in fieldnames}] *)
Definition header_map (fieldnames : list string) : gmap string string :=
  fold_left (fun m h => <[Str.lower h := h]> m) fieldnames ∅.

Definition _get_case_insensitive (row : csv_row)
    (headers_map : gmap string string) (wanted : string) : option string :=
  match default EmptyString (headers_map !! Str.lower (Str.strip wanted)) with
  | EmptyString => Some EmptyString
  | actual => default (Some EmptyString) (row !! actual)
  end.

Section LoadRows.
Variables col_ts col_ip col_ua col_path col_host : string.
Variables col_method col_status : option string.

Definition optional_column (row : csv_row) (headers : gmap string string)
    (col : option string) : string :=
  match col with
  | None | Some EmptyString => EmptyString
  | Some c => Str.strip (default EmptyString (_get_case_insensitive row headers c))
  end.

(** The body of [for r in reader]. *)
Definition load_row (headers : gmap string string) (r : csv_row) : row_outcome :=
  match parse_ts (_get_case_insensitive r headers col_ts) with
  | None => RowSkipped
  | Some t =>
      let ip := Str.strip (default EmptyString (_get_case_insensitive r headers col_ip)) in
      let ua := Str.strip (default EmptyString (_get_case_insensitive r headers col_ua)) in
      let path := normalize_path (_get_case_insensitive r headers col_path) in
      let host := Str.strip (default EmptyString (_get_case_insensitive r headers col_host)) in
      let method := optional_column r headers col_method in
      let status := optional_column r headers col_status in
      match path with
      | EmptyString => RowDropped
      | _ => RowLoaded (mkLogRow t ip ua path host method (StatusStr status))
      end
  end.

(** [rows], [total_rows], [skipped_rows] after one more row. *)
Definition load_rows_step (headers : gmap string string)
    (acc : list LogRow * nat * nat) (r : csv_row) : list LogRow * nat * nat :=
  let '(rows, total_rows, skipped_rows) := acc in
  match load_row headers r with
  | RowLoaded row => (rows ++ [row], S total_rows, skipped_rows)
  | RowDropped => (rows, S total_rows, skipped_rows)
  | RowSkipped => (rows, S total_rows, S skipped_rows)
  end.

(** [load_rows] on the header and the rows [csv.DictReader] yields:
    the sorted rows and what goes into [stats_out]. *)
Definition load_rows (fieldnames : list string) (reader : list csv_row)
    : list LogRow * IngestStats :=
  let headers := header_map fieldnames in
  let '(rows, total_rows, skipped_rows) :=
    fold_left (load_rows_step headers) reader ([], 0, 0) in
  let rows := sort_by Z.leb (fun x => instant (ts x)) rows in
  (rows, mkStats total_rows (length rows) skipped_rows).
End LoadRows.

(** [str(v or "")] for a value taken with [obj.get(key, "")]. *)
Definition str_or_empty (v : option json) : string :=
  match v with
  | None => EmptyString
  | Some v =>
      if Json.truthy v
      then match v with
           | JStr s => s
           | JInt n => pretty n
           | JBool b => if b then "True" else "False"
           | JFloat x => float_repr x
           | JNull => "None"
           | _ => container_str v
           end
      else EmptyString
  end.

(** [int(x)] as in [py_int], local to this loader. *)
Definition status_int (v : json) : option Z :=
  match v with
  | JNull => Some 0%Z
  | JInt n => Some n
  | JBool b => Some (if b then 1 else 0)%Z
  | JFloat x => float_trunc x
  | JStr s => int_of_str s
  | _ => None
  end.

Section LoadNdjson.
Variables key_ts key_ip key_ua key_path key_host : string.
Variables key_method key_status : option string.

(** The [try] block for one non-blank line; [None] is an exception. *)
Definition load_line (line : string) : option LogRow :=
  obj ← json_loads line ≫= as_obj;
  let obj : gmap string json :=
    fold_left (fun m kv => <[Str.lower kv.1 := kv.2]> m) obj ∅ in
  let field k := str_or_empty (obj !! Str.lower k) in
  let method :=
    match key_method with
    | None | Some EmptyString => EmptyString
    | Some k => field k
    end in
  let status_raw :=
    match key_status with
    | None | Some EmptyString => JInt 0
    | Some k => default (JInt 0) (obj !! Str.lower k)
    end in
  t ← parse_ts (Some (field key_ts));
  status ← status_int status_raw;
  Some (mkLogRow t (field key_ip) (field key_ua) (field key_path)
                 (field key_host) method (StatusInt status)).

Definition load_ndjson_step (acc : list LogRow * IngestStats) (line : string)
    : list LogRow * IngestStats :=
  let '(rows, st) := acc in
  match Str.strip line with
  | EmptyString => acc
  | line =>
      match load_line line with
      | Some row =>
          (rows ++ [row],
           mkStats (S (rows_total st)) (S (rows_loaded st)) (rows_skipped st))
      | None =>
          (rows,
           mkStats (S (rows_total st)) (rows_loaded st) (S (rows_skipped st)))
      end
  end.

(** [load_rows_ndjson] on the lines of the file; [stats_in] is what
    [stats_out] held on entry (zeros for a fresh dict). *)
Definition load_rows_ndjson (stats_in : IngestStats) (lines : list string)
    : list LogRow * IngestStats :=
  fold_left load_ndjson_step lines ([], stats_in).
End LoadNdjson.
End Rows.

(* ------------------------------------------------------------------ *)
(** ** Path categories ([build_category_map]) *)

(** The [add(layers.get(key, []), category)] calls, in source order. *)
Definition category_table : list (string * string) :=
  [("entrypoints", "entrypoint");
   ("policy", "policy");
   ("q_layer", "q_layer");
   ("canon_identity_boundaries", "canon");
   ("constraints", "constraints");
   ("routing_discovery", "discovery");
   ("ontology", "ontology");
   ("ontology_fallback", "ontology");
   ("index", "index");
   ("observation", "observation");
   ("traceability", "traceability");
   ("reporting", "reporting")].

(** [add(paths, cat)] of [build_category_map]: empty paths are left out. *)
Definition add_paths (paths : list string) (cat : string)
    (path_to_cat : gmap string string) : gmap string string :=
  fold_left (fun m p => match p with
                        | EmptyString => m
                        | _ => <[p := cat]> m
                        end) paths path_to_cat.

Definition build_category_map (layers : gmap string (list string))
    : gmap string string :=
  fold_left (fun m kc => add_paths (default [] (layers !! kc.1)) kc.2 m)
            category_table ∅.

(* ------------------------------------------------------------------ *)
(** ** Q-metrics ([metrics.compute_q_metrics]) *)

(** The scope configuration as [metrics.py] reads it: the layers and the
    [pattern] of each entry of [expected_sequences]. *)
Record Scope : Type := mkScope {
  scope_layers : gmap string (list string);
  expected_sequences : list (list string);
}.

Definition compress_consecutive (items : list string) : list string :=
  fold_left (fun out x =>
               match last out with
               | Some y => if String.eqb y x then out else out ++ [x]
               | None => out ++ [x]
               end) items [].

(** [add(layer_key, category)] of [build_exact_path_to_category]. *)
Definition add_layer (paths : list string) (cat : string)
    (mapping : gmap string string) : gmap string string :=
  fold_left (fun m p => <[p := cat]> m) paths mapping.

Definition build_exact_path_to_category (scope : Scope) : gmap string string :=
  fold_left (fun m kc => add_layer (default [] (scope_layers scope !! kc.1)) kc.2 m)
            category_table ∅.

Definition classify_path_with_scope (p : string) (exact_map : gmap string string)
    : string :=
  default "other" (exact_map !! p).

(** The loop of [subsequence_match], [j] being the index into [expected]. *)
Fixpoint subsequence_match_from (expected : list string) (j : nat)
    (seq : list string) : bool :=
  match seq with
  | [] => false
  | c :: rest =>
      match expected !! j with
      | Some e =>
          if String.eqb c e
          then (if (S j =? length expected)%nat then true
                else subsequence_match_from expected (S j) rest)
          else subsequence_match_from expected j rest
      | None => false
      end
  end.

Definition subsequence_match (seq expected : list string) : bool :=
  match expected with
  | [] => true
  | _ => subsequence_match_from expected 0 seq
  end.

Definition normalize_categories_for_metrics (cats : list string) : list string :=
  compress_consecutive
    (List.filter (fun c => negb (String.eqb c "") && negb (String.eqb c "other")) cats).

Definition layer_to_cat (x : string) : string :=
  if String.eqb x "entrypoints" then "entrypoint" else x.

Definition expected_pattern_governance_only : list string :=
  ["entrypoint"; "constraints"; "ontology"].

(** [compute_expected_patterns]: the declared pattern in category names
    (empty when none is declared) and the governance-only pattern. *)
Definition compute_expected_patterns (scope : option Scope)
    : list string * list string :=
  let expected_pattern_full :=
    match scope with
    | Some sc =>
        match expected_sequences sc with
        | p :: _ => map layer_to_cat p
        | [] => []
        end
    | None => []
    end in
  (expected_pattern_full, expected_pattern_governance_only).

Definition map_canon_to_constraints_for_checks (cats : list string) : list string :=
  map (fun c => if String.eqb c "canon" then "constraints" else c) cats.

Definition governed_categories : list string :=
  ["policy"; "q_layer"; "constraints"; "ontology"; "index"; "reporting";
   "traceability"; "observation"; "discovery"].

Definition str_in (x : string) (l : list string) : bool :=
  existsb (String.eqb x) l.

(** The categories of a ledger session as both passes of
    [compute_q_metrics] take them: [path_categories], or the scope's
    classification of the paths when that list is empty or missing; then
    normalized. *)
Definition session_categories (exact_map : gmap string string) (s : Session)
    : list string :=
  let cats :=
    match path_categories s with
    | [] => map (fun p => classify_path_with_scope p exact_map) (s_path s)
    | cats => cats
    end in
  normalize_categories_for_metrics cats.

(** First pass: is [content] seen in any session. *)
Definition observed_any_content (exact_map : gmap string string)
    (sessions : list Session) : bool :=
  existsb (fun s => str_in "content" (session_categories exact_map s)) sessions.

(** The counters of the second pass. *)
Record Counters : Type := mkCounters {
  total : nat;
  entrypoint_first : nat;
  constraints_touched : nat;
  escaped : nat;
  seq_match : nat;
  governance_only_mode : bool;
  used_pattern : option (list string);
}.

Definition bump (b : bool) (n : nat) : nat := if b then S n else n.

Section QMetrics.
Variable expected_pattern_full : list string.
Variable content_observed : bool.
Variable exact_map : gmap string string.

(** The body of the second [for s in sessions]. *)
Definition count_session (c : Counters) (s : Session) : Counters :=
  match session_categories exact_map s with
  | [] => c
  | (first :: _) as cats =>
      let cats_for_checks := map_canon_to_constraints_for_checks cats in
      let declared :=
        match expected_pattern_full with [] => false | _ => content_observed end in
      let pattern :=
        if declared then expected_pattern_full
        else expected_pattern_governance_only in
      {| total := S (total c);
         entrypoint_first :=
           bump (String.eqb first "entrypoint") (entrypoint_first c);
         constraints_touched :=
           bump (str_in "constraints" cats_for_checks) (constraints_touched c);
         escaped :=
           bump (negb (str_in "entrypoint" cats_for_checks)
                 && existsb (fun x => str_in x governed_categories) cats_for_checks)
                (escaped c);
         seq_match := bump (subsequence_match cats_for_checks pattern) (seq_match c);
         governance_only_mode := if declared then governance_only_mode c else true;
         used_pattern := Some pattern |}
  end.
End QMetrics.

(** The counters [compute_q_metrics] ends its loops with. *)
Definition compute_q_metrics (sessions : list Session) (scope : option Scope)
    : Counters :=
  let exact_map :=
    match scope with
    | Some sc => build_exact_path_to_category sc
    | None => ∅
    end in
  let expected_pattern_full := (compute_expected_patterns scope).1 in
  let content := observed_any_content exact_map sessions in
  fold_left (count_session expected_pattern_full content exact_map) sessions
            (mkCounters 0 0 0 0 0 false None).

(** [rates["sequence_fidelity"]] *)
Definition sequence_fidelity (c : Counters) : option float :=
  match total c with
  | O => None
  | _ => Some (Py.truediv (seq_match c) (total c))
  end.
(* ------------------------------------------------------------------ *)
(** ** [build_ledger.main]: configuration files, scope layers, and the
       filter in front of [infer_sessions] *)

(** [os.path.isfile] is a predicate on paths; a candidate that is [None]
    or empty is passed over. *)
Section ResolveFiles.
Variable isfile : string -> bool.

(** [resolve_existing_file]: the first candidate that is a file;
    [None] is [FileNotFoundError]. *)
Fixpoint resolve_existing_file (candidates : list (option string)) : option string :=
  match candidates with
  | [] => None
  | Some (String c p) :: rest =>
      if isfile (String c p) then Some (String c p)
      else resolve_existing_file rest
  | _ :: rest => resolve_existing_file rest
  end.

(** [os.environ.get(name, "").strip() or None], [env] being the value
    of the variable when it is set. *)
Definition env_path (env : option string) : option string :=
  match Str.strip (default EmptyString env) with
  | EmptyString => None
  | p => Some p
  end.

Definition resolve_config_path (cli_path env : option string) : option string :=
  resolve_existing_file
    [cli_path; env_path env;
     Some "config/config.local.json";
     Some "config/config.json";
     Some "config/config.example.json"].

Definition resolve_scope_path (cli_path env : option string) : option string :=
  resolve_existing_file
    [cli_path; env_path env;
     Some "config/governance_scope.local.json";
     Some "config/governance_scope.json";
     Some "config/governance_scope.example.json"].
End ResolveFiles.

(** [out[key] = value] on an insertion-ordered dict. *)
Fixpoint dict_set {V : Type} (key : string) (value : V) (d : list (string * V))
    : list (string * V) :=
  match d with
  | [] => [(key, value)]
  | (k, v) :: rest =>
      if String.eqb k key then (k, value) :: rest
      else (k, v) :: dict_set key value rest
  end.

(** [normalize_path(x)] on a value read from JSON: a string is
    normalized, a falsy value ([None], [0], [False], an empty container)
    gives the empty path, and any other value has no [strip]. *)
Definition normalize_path_value (x : json) : option string :=
  match x with
  | JStr s => Some (normalize_path (Some s))
  | _ => if Json.truthy x then None else Some EmptyString
  end.

Section ScopeLayers.
Context {lib : PyLib}.

(** [load_json_file]: [None] when the file cannot be opened or parsed. *)
Definition load_json_file (files : gmap string string) (path : string)
    : option json :=
  text ← files !! path; json_loads text.

(** One pass of [for k, v in layers.items()]. *)
Definition add_scope_layer (out : option (list (string * list string)))
    (kv : string * json) : option (list (string * list string)) :=
  out ← out;
  match kv.2 with
  | JArr xs => paths ← mapM normalize_path_value xs; Some (dict_set kv.1 paths out)
  | _ => Some out
  end.

(** [load_scope_layers]; the outer [None] is an uncaught exception. *)
Definition load_scope_layers (files : gmap string string) (scope_path : string)
    : option (list (string * list string)) :=
  match load_json_file files scope_path with
  | None => Some []
  | Some d =>
      if Json.truthy d
      then fields ← as_obj d;
           layers ← as_obj (default (JObj []) (Json.get "layers" fields));
           fold_left add_scope_layer layers (Some [])
      else Some []
  end.
End ScopeLayers.

Definition upper_char (c : ascii) : ascii :=
  let n := nat_of_ascii c in
  if ((97 <=? n) && (n <=? 122))%nat then ascii_of_nat (n - 32) else c.

(** [s.upper()] on a text of ASCII characters, as [Str.lower] is: the
    letters of Unicode outside ASCII are left as they are. *)
Definition upper (s : string) : string :=
  Str.of_list (map upper_char (Str.to_list s)).

(** [if r.status]: a string is true unless empty, an int unless zero. *)
Definition status_truthy (s : status_value) : bool :=
  match s with
  | StatusStr s => negb (String.eqb s EmptyString)
  | StatusInt n => negb (n =? 0)%Z
  end.

(** [r.status in allow_status_norm], a list of [str]: an [int] equals
    none of its elements. *)
Definition status_allowed (s : status_value) (allow_status_norm : list string)
    : bool :=
  match s with
  | StatusStr s => str_in s allow_status_norm
  | StatusInt _ => false
  end.

Definition nonempty {A : Type} (l : list A) : bool :=
  match l with [] => false | _ => true end.

Section MainFilter.
Variables allow_methods_norm allow_status_norm : list string.
Variable gov_paths : list string.

(** One pass of [for r in rows] in [main]: [true] when [r] is appended
    to [filtered_rows]. *)
Definition keeps (r : LogRow) : bool :=
  let gov_set : gset string := list_to_set gov_paths in
  if negb (String.eqb (method r) EmptyString) && nonempty allow_methods_norm
     && negb (str_in (upper (method r)) allow_methods_norm)
  then false
  else if status_truthy (status r) && nonempty allow_status_norm
          && negb (status_allowed (status r) allow_status_norm)
  then false
  else if negb (bool_decide (gov_set = ∅))
          && negb (bool_decide (path r ∈ gov_set))
  then false
  else true.

Definition filtered_rows (rows : list LogRow) : list LogRow :=
  List.filter keeps rows.

(** [main] from the filter to the call of [infer_sessions]. *)
Definition main_sessions {lib : PyLib} (rows : list LogRow)
    (site_host salt : string) (gap_minutes : Z)
    (path_to_category : gmap string string) : option (list Session) :=
  infer_sessions (filtered_rows rows) site_host salt gap_minutes gov_paths
                 path_to_category.
End MainFilter.

(* ------------------------------------------------------------------ *)
(** ** The legacy analysis of [metrics.py] *)

(** [s.count(x)] for a single character. *)
Definition count_char (x : ascii) (s : string) : nat :=
  length (List.filter (Ascii.eqb x) (Str.to_list s)).

Definition legacy_markers : list string :=
  ["/.well-known/"; "/ai-governance.json"; "/ai-manifest.json";
   "/dualweb-index.md"; "/response-legitimacy"; "/llms"; "/readme.llm.txt";
   "/canon.md"; "/identity.json"; "/services-non-publics.md"; "/author.md";
   "/humans.txt"; "/site-context.md"; "/editorial-context.md"; "/non-goals.md";
   "/negative-definitions.md"; "/output-constraints.md"; "/data-handling.md";
   "/citations.md"; "/changelog-ai.md"].

Definition is_governance_path_legacy (p : string) : bool :=
  existsb (fun m => Str.contains m p) legacy_markers.

Definition is_content_path_legacy (p : string) : bool :=
  if is_governance_path_legacy p then false
  else if existsb (Str.endswith p) [".json"; ".jsonld"; ".yaml"; ".yml"; ".txt"; ".md"]
  then false
  else Str.endswith p "/" || (1 <=? count_char "/" p)%nat.

(** The counters of [detect_sequences_legacy]. *)
Record Motifs : Type := mkMotifs {
  yaml_then_ledger : nat;
  yaml_then_protocol : nat;
  ledger_then_protocol : nat;
  gov_content_gov : nat;
}.

(** The first loop: [for i in range(len(paths) - 1)], on the pairs of
    neighbours. *)
Fixpoint count_pairs (paths : list string) (m : Motifs) : Motifs :=
  match paths with
  | a :: (b :: _) as rest =>
      let m :=
        mkMotifs
          (bump (is_yaml a && Str.contains "/.well-known/q-ledger" b) (yaml_then_ledger m))
          (bump (is_yaml a && Str.contains "q-attest-protocol" b) (yaml_then_protocol m))
          (bump (Str.contains "/.well-known/q-ledger" a && Str.contains "q-attest-protocol" b)
                (ledger_then_protocol m))
          (gov_content_gov m) in
      count_pairs rest m
  | _ => m
  end.

(** The second loop: [for i in range(len(paths) - 2)], on the triples. *)
Fixpoint count_triples (paths : list string) (m : Motifs) : Motifs :=
  match paths with
  | a :: (b :: c :: _) as rest =>
      let m :=
        mkMotifs (yaml_then_ledger m) (yaml_then_protocol m) (ledger_then_protocol m)
          (bump (is_governance_path_legacy a && is_content_path_legacy b
                 && is_governance_path_legacy c) (gov_content_gov m)) in
      count_triples rest m
  | _ => m
  end.

Definition detect_sequences_legacy (paths : list string) : Motifs :=
  count_triples paths (count_pairs paths (mkMotifs 0 0 0 0)).

(* ------------------------------------------------------------------ *)
(** ** [verify_publication.py]: the endpoints that are checked *)

Definition DEFAULT_ENDPOINTS : list (string * string) :=
  [("q_ledger_json", "/.well-known/q-ledger.json");
   ("q_ledger_yml", "/.well-known/q-ledger.yml");
   ("q_metrics_json", "/.well-known/q-metrics.json");
   ("q_metrics_yml", "/.well-known/q-metrics.yml")].

(** [build_endpoints]; [config] is [None] for no [--config]. *)
Definition build_endpoints (config : option (list (string * json)))
    : list (string * string) :=
  let eps := DEFAULT_ENDPOINTS in
  match config with
  | None | Some [] => eps
  | Some config =>
      match default (JObj []) (Json.get "publication" config) with
      | JObj pub =>
          match Json.get "endpoints" pub with
          | Some (JObj cfg_eps) =>
              fold_left (fun eps kv =>
                           match kv.2 with
                           | JStr v => dict_set kv.1 v eps
                           | _ => eps
                           end) cfg_eps eps
          | _ => eps
          end
      | _ => eps
      end
  end.

(** [dict[key]] on a dict of strings. *)
Fixpoint dict_get {V : Type} (key : string) (d : list (string * V)) : option V :=
  match d with
  | [] => None
  | (k, v) :: rest => if String.eqb k key then Some v else dict_get key rest
  end.

(* ------------------------------------------------------------------ *)
(** ** [normalize_input.py]: the path of a request *)

Module NormalizeInput.

(** [normalize_path]; [urlparse_path v] is [urlparse(v).path], the library's
    reading of a full URL. *)
Definition normalize_path (urlparse_path : string -> string) (value : option string)
    : string :=
  let v := Str.strip (default EmptyString value) in
  match v with
  | EmptyString => "/"
  | _ =>
      if Str.contains "://" v
      then match urlparse_path v with
           | EmptyString => "/"
           | path => path
           end
      else
        let v := Str.before "?" (Str.before "#" v) in
        if Str.startswith v "/" then v else "/" +:+ v
  end.

End NormalizeInput.

(* ================================================================== *)
(** * Properties *)

(* ------------------------------------------------------------------ *)
(** ** Floats: comparison and [round(x, 2)] on a clamped value *)

Module FloatFacts.
Local Open Scope Z_scope.

Lemma ltb_leb (a b : float) : (a <? b)%float = true -> (a <=? b)%float = true.
Proof.
  rewrite ltb_spec, leb_spec. unfold SFltb, SFleb.
  destruct (SFcompare (Prim2SF a) (Prim2SF b)) as [[]|]; congruence.
Qed.

Lemma digits2_pos_bounds (m : positive) :
  2 ^ (Z.pos (digits2_pos m) - 1) <= Z.pos m < 2 ^ Z.pos (digits2_pos m).
Proof.
  induction m as [m IH|m IH|]; cbn [digits2_pos].
  - rewrite Pos2Z.inj_succ.
    replace (Z.succ (Z.pos (digits2_pos m)) - 1) with (Z.succ (Z.pos (digits2_pos m) - 1)) by lia.
    rewrite !Z.pow_succ_r by lia. lia.
  - rewrite Pos2Z.inj_succ.
    replace (Z.succ (Z.pos (digits2_pos m)) - 1) with (Z.succ (Z.pos (digits2_pos m) - 1)) by lia.
    rewrite !Z.pow_succ_r by lia. lia.
  - cbn. lia.
Qed.

Lemma round_half_even_div_lower (a d n : Z) :
  0 < d -> (2 * n - 1) * d < 2 * a -> n <= Py.round_half_even_div a d.
Proof.
  intros Hd H. unfold Py.round_half_even_div.
  pose proof (Z.div_mod a d ltac:(lia)) as E.
  pose proof (Z.mod_pos_bound a d Hd) as B.
  destruct (Z.compare_spec (2 * (a mod d)) d) as [C|C|C];
    [destruct (Z.even (a / d))|..]; nia.
Qed.

Lemma round_half_even_div_upper (a d n : Z) :
  0 < d -> 2 * a < (2 * n + 1) * d -> Py.round_half_even_div a d <= n.
Proof.
  intros Hd H. unfold Py.round_half_even_div.
  pose proof (Z.div_mod a d ltac:(lia)) as E.
  pose proof (Z.mod_pos_bound a d Hd) as B.
  destruct (Z.compare_spec (2 * (a mod d)) d) as [C|C|C];
    [destruct (Z.even (a / d))|..]; nia.
Qed.

Lemma SFleb_pos_finite (m1 m2 : positive) (e1 e2 : Z) :
  SFleb (S754_finite false m1 e1) (S754_finite false m2 e2) = true ->
  e1 < e2 \/ (e1 = e2 /\ (m1 <= m2)%positive).
Proof.
  unfold SFleb, SFcompare.
  destruct (Z.compare_spec e1 e2) as [->|?|?]; try (intros; lia || discriminate).
  intros H. right. split; [done|].
  change (Pos.compare_cont Eq m1 m2) with (Pos.compare m1 m2) in H.
  destruct (Pos.compare_spec m1 m2); try discriminate; lia.
Qed.

Lemma valid_finite_digits (s : bool) (m : positive) (e : Z) :
  valid_binary (S754_finite s m e) = true -> -1074 < e ->
  2 ^ 52 <= Z.pos m < 2 ^ 53.
Proof.
  cbn [SpecFloat.valid_binary]. unfold bounded, canonical_mantissa, fexp, SpecFloat.emin, prec, emax.
  intros H He. apply andb_true_iff in H as [H _]. apply Z.eqb_eq in H.
  pose proof (digits2_pos_bounds m) as B.
  assert (Z.pos (digits2_pos m) = 53) as E by lia.
  rewrite E in B. exact B.
Qed.

Lemma round2_clamped (x cap : float) (N : Z) :
  (cap = 0.55%float /\ N = 55) \/ (cap = 0.95%float /\ N = 95) ->
  (0.05 <=? x)%float = true -> (x <=? cap)%float = true ->
  exists n, 5 <= n <= N /\ Py.round2 x = Py.nearest_quotient false n 100.
Proof.
  intros Hcap Hlo Hhi.
  rewrite leb_spec in Hlo, Hhi.
  pose proof (Prim2SF_valid x) as Hv.
  unfold Py.round2.
  assert (exists m0, Prim2SF cap = S754_finite false m0 (-53) /\
                     200 * Z.pos m0 < (2 * N + 1) * 2 ^ 53) as (m0 & Ecap & Hm0).
  { destruct Hcap as [[-> ->]|[-> ->]];
      [exists 4953959590107546%positive|exists 8556839292003942%positive];
      (split; [vm_compute; reflexivity|lia]). }
  assert (55 <= N) as HN by (destruct Hcap as [[_ ->]|[_ ->]]; lia).
  rewrite Ecap in Hhi. clear Ecap Hcap.
  change (Prim2SF 0.05%float) with (S754_finite false 7205759403792794 (-57)) in Hlo.
  destruct (Prim2SF x) as [s|s| |s m e]; try discriminate.
  - destruct s; discriminate.
  - destruct s; [discriminate|].
    apply SFleb_pos_finite in Hlo, Hhi.
    apply valid_finite_digits in Hv; [|lia].
    assert (e = -57 \/ e = -56 \/ e = -55 \/ e = -54 \/ e = -53) as He by lia.
    destruct (Z.leb_spec 0 e); [lia|].
    eexists; split; [|reflexivity].
    split.
    + apply round_half_even_div_lower; [apply Z.pow_pos_nonneg; lia|].
      destruct He as [->|[->|[->|[->| ->]]]]; cbn [Z.opp]; 
        change (2 ^ 57) with 144115188075855872;
        change (2 ^ 56) with 72057594037927936;
        change (2 ^ 55) with 36028797018963968;
        change (2 ^ 54) with 18014398509481984;
        change (2 ^ 53) with 9007199254740992;
        change (2 ^ 52) with 4503599627370496 in Hv; lia.
    + apply round_half_even_div_upper; [apply Z.pow_pos_nonneg; lia|].
      change (2 ^ 53) with 9007199254740992 in *.
      destruct He as [->|[->|[->|[->| ->]]]]; cbn [Z.opp]; 
        change (2 ^ 57) with 144115188075855872;
        change (2 ^ 56) with 72057594037927936;
        change (2 ^ 55) with 36028797018963968;
        change (2 ^ 54) with 18014398509481984;
        change (2 ^ 52) with 4503599627370496 in Hv; lia.
Qed.

Definition hundredths_ok (hi : Z) (cap : float) : bool :=
  forallb (fun n => let r := Py.nearest_quotient false n 100 in
                    (0.05 <=? r)%float && (r <=? cap)%float)
          (map (fun k => 5 + Z.of_nat k) (seq 0 (Z.to_nat (hi - 4)))).

Lemma hundredths_55 : hundredths_ok 55 0.55%float = true.
Proof. vm_compute. reflexivity. Qed.
Lemma hundredths_95 : hundredths_ok 95 0.95%float = true.
Proof. vm_compute. reflexivity. Qed.

Lemma hundredths_ok_spec hi cap n :
  hundredths_ok hi cap = true -> 5 <= n <= hi ->
  (0.05 <=? Py.nearest_quotient false n 100)%float = true /\
  (Py.nearest_quotient false n 100 <=? cap)%float = true.
Proof.
  unfold hundredths_ok. rewrite forallb_forall. intros H Hn.
  specialize (H n). cbv zeta in H. apply andb_true_iff. apply H.
  apply in_map_iff. exists (Z.to_nat (n - 5)). split; [lia|].
  apply in_seq. lia.
Qed.

End FloatFacts.

(** ** The order on strings *)

Module StrOrder.

Lemma ascii_compare_trans (a b c : ascii) (o : comparison) :
  Ascii.compare a b = o -> Ascii.compare b c = o -> Ascii.compare a c = o.
Proof.
  unfold Ascii.compare. destruct o; intros H1 H2.
  - apply N.compare_eq_iff in H1, H2. apply N.compare_eq_iff. congruence.
  - apply N.compare_lt_iff in H1, H2. apply N.compare_lt_iff.
    eapply N.lt_trans; eassumption.
  - apply N.compare_gt_iff in H1, H2. apply N.compare_gt_iff.
    eapply N.lt_trans; eassumption.
Qed.

Lemma ascii_compare_eq (a b : ascii) : Ascii.compare a b = Eq -> a = b.
Proof.
  unfold Ascii.compare. intros H%N.compare_eq_iff.
  rewrite <- (ascii_N_embedding a), <- (ascii_N_embedding b). congruence.
Qed.

Lemma compare_lt_trans (a b c : string) :
  String.compare a b = Lt -> String.compare b c = Lt -> String.compare a c = Lt.
Proof.
  revert b c. induction a as [|x a IH]; intros [|y b] [|z c]; cbn; try congruence.
  destruct (Ascii.compare x y) eqn:Exy; try discriminate;
    destruct (Ascii.compare y z) eqn:Eyz; try discriminate; intros H1 H2.
  - rewrite (ascii_compare_trans _ _ _ _ Exy Eyz). eauto.
  - apply ascii_compare_eq in Exy as ->. now rewrite Eyz.
  - apply ascii_compare_eq in Eyz as <-. now rewrite Exy.
  - now rewrite (ascii_compare_trans _ _ _ _ Exy Eyz).
Qed.

Lemma leb_trans (a b c : string) :
  String.leb a b = true -> String.leb b c = true -> String.leb a c = true.
Proof.
  unfold String.leb.
  destruct (String.compare a b) eqn:Eab; try discriminate;
    destruct (String.compare b c) eqn:Ebc; try discriminate; intros _ _.
  - apply String.compare_eq_iff in Eab as ->. now rewrite Ebc.
  - apply String.compare_eq_iff in Eab as ->. now rewrite Ebc.
  - apply String.compare_eq_iff in Ebc as <-. now rewrite Eab.
  - now rewrite (compare_lt_trans _ _ _ Eab Ebc).
Qed.

Lemma leb_refl (a : string) : String.leb a a = true.
Proof. destruct (String.leb_total a a); assumption. Qed.

End StrOrder.

(** ** The stable sort *)

Section SortFacts.
Context {A K : Type} (le : K -> K -> bool) (key : A -> K).
Hypothesis le_total : forall a b, le a b = true \/ le b a = true.
Hypothesis le_trans : forall a b c, le a b = true -> le b c = true -> le a c = true.

Let R (x y : A) : Prop := le (key x) (key y) = true.

Lemma insert_by_Permutation (x : A) (l : list A) :
  insert_by le key x l ≡ₚ x :: l.
Proof.
  induction l as [|y l IH]; cbn; [done|].
  destruct (le (key x) (key y)); [done|].
  rewrite IH. apply Permutation_swap.
Qed.

Lemma sort_by_Permutation (l : list A) : sort_by le key l ≡ₚ l.
Proof.
  induction l as [|x l IH]; cbn; [done|].
  now rewrite insert_by_Permutation, IH.
Qed.

Lemma insert_by_StronglySorted (x : A) (l : list A) :
  StronglySorted R l -> StronglySorted R (insert_by le key x l).
Proof.
  induction 1 as [|y l Hl IH Hy]; cbn.
  - constructor; constructor.
  - destruct (le (key x) (key y)) eqn:E.
    + constructor; [by constructor|].
      constructor; [exact E|].
      eapply Forall_impl; [exact Hy|]. intros z Hz. unfold R in *. eauto.
    + constructor; [exact IH|].
      rewrite (insert_by_Permutation x l). constructor; [|exact Hy].
      unfold R. destruct (le_total (key x) (key y)); congruence.
Qed.

Lemma sort_by_StronglySorted (l : list A) : StronglySorted R (sort_by le key l).
Proof.
  induction l as [|x l IH]; cbn; [constructor|].
  by apply insert_by_StronglySorted.
Qed.

(** Stability: elements with the same key keep their relative order. *)
Lemma insert_by_filter (P : A -> bool) (x : A) (l : list A) :
  (forall y, In y l -> P y = true -> P x = true -> le (key x) (key y) = true) ->
  List.filter P (insert_by le key x l) = List.filter P (x :: l).
Proof.
  induction l as [|y l IH]; intros Hle; [done|].
  cbn [insert_by]. destruct (le (key x) (key y)) eqn:E; [done|].
  cbn [List.filter]. rewrite IH by (intros; apply Hle; [by right|done..]).
  cbn [List.filter].
  destruct (P x) eqn:Px, (P y) eqn:Py; try done.
  rewrite Hle in E; [done|by left|done..].
Qed.

Lemma sort_by_stable (P : A -> bool) (k : K) (l : list A) :
  (forall y, P y = true -> key y = k) ->
  List.filter P (sort_by le key l) = List.filter P l.
Proof.
  intros HP. induction l as [|x l IH]; [done|].
  cbn [sort_by]. rewrite insert_by_filter.
  - cbn [List.filter]. by rewrite IH.
  - intros y _ Hy Hx. rewrite (HP _ Hx), (HP _ Hy).
    by destruct (le_total k k).
Qed.
End SortFacts.

(** ** Chunks of one fingerprint group *)

(** The neighbouring pairs of a list, left to right. *)
Fixpoint adjacent {A : Type} (l : list A) : list (A * A) :=
  match l with
  | a :: (b :: _) as t => (a, b) :: adjacent t
  | _ => []
  end.

Definition elapsed (a b : LogRow) : Z := (instant (ts b) - instant (ts a))%Z.

(** Every two neighbouring requests of the chunk are at most [gap] apart. *)
Definition within_gap (gap : Z) (chunk : list LogRow) : Prop :=
  Forall (fun p => (elapsed p.1 p.2 <= gap)%Z) (adjacent chunk).

(** Every chunk but the first starts strictly more than [gap] after the
    last request of the chunk before it. *)
Definition breaks_exceed (gap : Z) (chunks : list (list LogRow)) : Prop :=
  Forall (fun cc => exists a b, last cc.1 = Some a /\ head cc.2 = Some b /\
                                (gap < elapsed a b)%Z)
         (adjacent chunks).

Section WalkFacts.
Context {A : Type}.

Lemma adjacent_snoc (l : list A) (x : A) :
  adjacent (l ++ [x]) =
  adjacent l ++ match last l with Some y => [(y, x)] | None => [] end.
Proof.
  induction l as [|a [|b l] IH]; [done..|].
  change (adjacent ((a :: b :: l) ++ [x]))
    with ((a, b) :: adjacent ((b :: l) ++ [x])).
  rewrite IH. done.
Qed.
End WalkFacts.

Lemma walk_step_snoc (gap : Z) (items : list LogRow) (r : LogRow) :
  fold_left (walk_step gap) (items ++ [r]) ([], []) =
  walk_step gap (fold_left (walk_step gap) items ([], [])) r.
Proof. by rewrite fold_left_app. Qed.

(** The loop invariant of the walk over one group. *)
Record walk_inv (gap : Z) (items : list LogRow)
    (st : list LogRow * list (list LogRow)) : Prop := {
  wi_concat : concat st.2 ++ st.1 = items;
  wi_flushed : Forall (fun c => c <> []) st.2;
  wi_current : items <> [] -> st.1 <> [];
  wi_empty : st.1 = [] -> st.2 = [];
  wi_within : Forall (within_gap gap) (st.2 ++ [st.1]);
  wi_breaks : breaks_exceed gap (st.2 ++ [st.1]);
}.

Lemma walk_inv_fold (gap : Z) (items : list LogRow) :
  walk_inv gap items (fold_left (walk_step gap) items ([], [])).
Proof.
  induction items as [|r items IH] using rev_ind.
  - split; cbn; try done.
    + repeat constructor.
    + constructor.
  - rewrite walk_step_snoc.
    destruct (fold_left (walk_step gap) items ([], [])) as [cur fl].
    destruct IH as [Hc Hf Hcur He Hw Hb]; cbn [fst snd] in *.
    unfold walk_step.
    destruct (last cur) as [prev|] eqn:El.
    + assert (cur <> []) as Hne by (intros ->; discriminate).
      destruct (Z.leb_spec (instant (ts r) - instant (ts prev)) gap) as [Hle|Hgt].
      * split; cbn [fst snd].
        -- by rewrite app_assoc, Hc.
        -- done.
        -- intros _. by destruct cur.
        -- intros E. by destruct cur.
        -- apply Forall_app in Hw as [Hw1 Hw2]. apply Forall_app. split; [done|].
           constructor; [|constructor].
           apply Forall_inv in Hw2. unfold within_gap in *.
           rewrite adjacent_snoc, El. apply Forall_app. split; [done|].
           by repeat constructor.
        -- unfold breaks_exceed in *.
           destruct fl as [|c fl _] using rev_ind; [constructor|].
           rewrite (adjacent_snoc (fl ++ [c])) in Hb |- *.
           rewrite last_snoc in Hb |- *.
           apply Forall_app in Hb as [Hb1 Hb2]. apply Forall_app. split; [done|].
           apply Forall_inv in Hb2 as (a & b & Ha & Hb' & Hg). cbn [fst snd] in *.
           constructor; [|constructor]. exists a, b. cbn [fst snd].
           split; [done|]. split; [|done]. by destruct cur.
      * split; cbn [fst snd].
        -- rewrite concat_app. cbn. rewrite app_nil_r, <- app_assoc. by rewrite app_assoc, Hc.
        -- apply Forall_app. split; [done|]. by constructor.
        -- done.
        -- done.
        -- apply Forall_app. split; [done|]. constructor; [|constructor]. constructor.
        -- unfold breaks_exceed in *.
           rewrite (adjacent_snoc (fl ++ [cur])), last_snoc.
           apply Forall_app. split; [done|].
           constructor; [|constructor]. exists prev, r. cbn [fst snd].
           unfold elapsed. split; [done|]. split; [done|lia].
    + assert (cur = []) as -> by (destruct cur as [|x cur] using rev_ind; [done|by rewrite last_snoc in El]).
      rewrite (He eq_refl) in *. cbn in Hc. subst items.
      split; cbn [fst snd]; try done; repeat constructor.
Qed.

Import FloatFacts.

Lemma clamp_bounds (c cap : float) :
  cap = 0.55%float \/ cap = 0.95%float ->
  (0.05 <=? Py.min cap (Py.max 0.05 c))%float = true /\
  (Py.min cap (Py.max 0.05 c) <=? cap)%float = true.
Proof.
  intros Hcap. unfold Py.min, Py.max.
  destruct (0.05 <? c)%float eqn:E1.
  - destruct (c <? cap)%float eqn:E2.
    + split; by apply ltb_leb.
    + destruct Hcap as [-> | ->]; split; vm_compute; reflexivity.
  - destruct Hcap as [-> | ->]; split; vm_compute; reflexivity.
Qed.

Lemma SFleb_pos_finite_intro (m1 m2 : positive) (e1 e2 : Z) :
  (e1 < e2)%Z \/ (e1 = e2 /\ (m1 <= m2)%positive) ->
  SFleb (S754_finite false m1 e1) (S754_finite false m2 e2) = true.
Proof.
  unfold SFleb, SFcompare. intros [H|[-> H]].
  - rewrite (proj2 (Z.compare_lt_iff _ _) H). reflexivity.
  - rewrite Z.compare_refl.
    change (Pos.compare_cont Eq m1 m2) with (Pos.compare m1 m2).
    destruct (Pos.compare_spec m1 m2) as [E|E|E]; [reflexivity|reflexivity|lia].
Qed.

(** A value at most 0.55 is at most 0.95. *)
Lemma leb_055_095 (x : float) :
  (x <=? 0.55)%float = true -> (x <=? 0.95)%float = true.
Proof.
  intros H. rewrite leb_spec in H |- *.
  change (Prim2SF 0.55%float) with (S754_finite false 4953959590107546 (-53)) in H.
  change (Prim2SF 0.95%float) with (S754_finite false 8556839292003942 (-53)).
  destruct (Prim2SF x) as [s|s| |s m e].
  - destruct s; reflexivity.
  - destruct s; [reflexivity|discriminate H].
  - discriminate H.
  - destruct s; [reflexivity|]. apply SFleb_pos_finite in H. 
    apply SFleb_pos_finite_intro.
    destruct H as [H|[-> H]]; [left; exact H|right; split; [reflexivity|]].
    eapply Pos.le_trans; [exact H|]. apply Pos.leb_le. vm_compute. reflexivity.
Qed.

Section SessionFacts.
Context {lib : PyLib}.

Lemma walk_chunks (gap : Z) (items : list LogRow) :
  items <> [] ->
  concat (walk gap items) = items /\
  Forall (fun c => c <> []) (walk gap items) /\
  Forall (within_gap gap) (walk gap items) /\
  breaks_exceed gap (walk gap items).
Proof.
  intros Hne. unfold walk.
  pose proof (walk_inv_fold gap items) as Hinv.
  destruct (fold_left (walk_step gap) items ([], [])) as [cur fl].
  destruct Hinv as [Hc Hf Hcur He Hw Hb]; cbn [fst snd] in *.
  repeat split.
  - rewrite concat_app. cbn. by rewrite app_nil_r.
  - apply Forall_app. split; [done|]. constructor; [by apply Hcur|constructor].
  - done.
  - done.
Qed.

Lemma flush_elem (gov_set : gset string) (cmap : gmap string string)
    (fp : string) (chunk : list LogRow) (s : Session) :
  In s (flush gov_set cmap fp chunk) ->
  chunk <> [] /\
  s_path s = map path chunk /\
  path_categories s = map (classify cmap) (map path chunk) /\
  confidence s = Py.round2 (clamped_confidence gov_set (map path chunk)) /\
  (length (map path chunk) = 1 -> confidence_level s = "low").
Proof.
  destruct chunk as [|r chunk]; [intros []|].
  intros [<-|[]]. cbn [s_path path_categories confidence confidence_level].
  repeat split; try done.
  intros ->%Nat.eqb_eq. done.
Qed.

Lemma infer_sessions_elem (rows : list LogRow) (site_host salt : string)
    (gap_minutes : Z) (gov : list string) (cmap : gmap string string)
    (ss : list Session) (s : Session) :
  infer_sessions rows site_host salt gap_minutes gov cmap = Some ss ->
  In s ss ->
  exists fp chunk, In s (flush (list_to_set gov) cmap fp chunk).
Proof.
  unfold infer_sessions. intros Hrun Hin.
  destruct (timedelta_minutes gap_minutes) as [gap|]; [|discriminate].
  cbn in Hrun. injection Hrun as <-.
  apply (Permutation_in _ (sort_by_Permutation _ _ _)) in Hin.
  apply in_flat_map in Hin as ([fp items] & _ & Hin).
  unfold group_sessions in Hin. apply in_flat_map in Hin as (chunk & _ & Hin).
  eauto.
Qed.

Lemma clamped_confidence_bounds (gov_set : gset string) (paths : list string) :
  let cap := if (length paths =? 1)%nat then 0.55%float else 0.95%float in
  (0.05 <=? clamped_confidence gov_set paths)%float = true /\
  (clamped_confidence gov_set paths <=? cap)%float = true.
Proof.
  unfold clamped_confidence. apply clamp_bounds.
  destruct (length paths =? 1)%nat; auto.
Qed.
End SessionFacts.

Import FloatFacts.

Section SessionTheorems.
Context {lib : PyLib}.

Lemma reported_confidence_range (gov_set : gset string) (paths : list string) :
  let r := Py.round2 (clamped_confidence gov_set paths) in
  (0.05 <=? r)%float = true /\ (r <=? 0.95)%float = true /\
  (length paths = 1 -> (r <=? 0.55)%float = true).
Proof.
  cbv zeta.
  destruct (clamped_confidence_bounds gov_set paths) as [Hlo Hhi].
  destruct (Nat.eqb_spec (length paths) 1) as [E|E].
  - destruct (round2_clamped _ 0.55%float 55 ltac:(auto) Hlo Hhi) as (n & Hn & ->).
    destruct (hundredths_ok_spec 55 0.55%float n hundredths_55 Hn) as [? ?].
    destruct (hundredths_ok_spec 95 0.95%float n hundredths_95 ltac:(lia)) as [? ?].
    auto.
  - destruct (round2_clamped _ 0.95%float 95 ltac:(auto) Hlo Hhi) as (n & Hn & ->).
    destruct (hundredths_ok_spec 95 0.95%float n hundredths_95 Hn) as [? ?].
    split; [done|]. split; [done|]. intros; done.
Qed.

(** C3.  Every session [infer_sessions] emits with exactly one request
    ([total == 1]) reports a confidence of at most 0.55 and the level
    [low], whatever the signals. *)
Theorem single_request_session_is_low (rows : list LogRow)
    (site_host salt : string) (gap_minutes : Z) (gov_exact_paths : list string)
    (path_to_category : gmap string string) (sessions : list Session)
    (s : Session) :
  infer_sessions rows site_host salt gap_minutes gov_exact_paths path_to_category
    = Some sessions ->
  In s sessions ->
  length (s_path s) = 1 ->
  (confidence s <=? 0.55)%float = true /\ confidence_level s = "low".
Proof.
  intros Hrun Hin Hone.
  destruct (infer_sessions_elem _ _ _ _ _ _ _ _ Hrun Hin) as (fp & chunk & Hs).
  apply flush_elem in Hs as (_ & Hp & _ & Hc & Hl).
  rewrite Hp in Hone. split; [|by apply Hl].
  rewrite Hc. by apply reported_confidence_range.
Qed.

(** C4.  Every session [infer_sessions] emits reports a confidence in
    the closed interval [0.05, 0.95], whatever the signals and bonuses;
    and so is the clamped value it is rounded from. *)
Theorem confidence_in_closed_interval (rows : list LogRow)
    (site_host salt : string) (gap_minutes : Z) (gov_exact_paths : list string)
    (path_to_category : gmap string string) (sessions : list Session)
    (s : Session) :
  infer_sessions rows site_host salt gap_minutes gov_exact_paths path_to_category
    = Some sessions ->
  In s sessions ->
  (0.05 <=? confidence s)%float = true /\ (confidence s <=? 0.95)%float = true /\
  exists clamped : float,
    confidence s = Py.round2 clamped /\
    (0.05 <=? clamped)%float = true /\ (clamped <=? 0.95)%float = true.
Proof.
  intros Hrun Hin.
  destruct (infer_sessions_elem _ _ _ _ _ _ _ _ Hrun Hin) as (fp & chunk & Hs).
  apply flush_elem in Hs as (_ & _ & _ & Hc & _).
  rewrite Hc.
  destruct (reported_confidence_range (list_to_set gov_exact_paths) (map path chunk))
    as (? & ? & _).
  split; [done|]. split; [done|].
  exists (clamped_confidence (list_to_set gov_exact_paths) (map path chunk)).
  split; [done|].
  destruct (clamped_confidence_bounds (list_to_set gov_exact_paths) (map path chunk))
    as [Hlo Hhi].
  split; [done|].
  destruct (length (map path chunk) =? 1)%nat; [|done].
  by apply leb_055_095.
Qed.
End SessionTheorems.

Section TwoRequests.
Context {lib : PyLib}.

Lemma string_eqb_refl (s : string) : String.eqb s s = true.
Proof. by apply String.eqb_eq. Qed.

(** Two requests of one client, the first not after the second, given
    to [infer_sessions] in either order. *)
Lemma two_requests (r1 r2 : LogRow) (rows : list LogRow) (site_host salt : string)
    (gap_minutes gap : Z) (gov : list string) (cmap : gmap string string) :
  ip r1 = ip r2 -> ua r1 = ua r2 ->
  site_host = EmptyString \/ (host r1 = site_host /\ host r2 = site_host) ->
  rows = [r1; r2] /\ (0 <= elapsed r1 r2)%Z \/
  rows = [r2; r1] /\ (0 < elapsed r1 r2)%Z ->
  timedelta_minutes gap_minutes = Some gap ->
  let fp := row_fingerprint salt r1 in
  exists sessions,
    infer_sessions rows site_host salt gap_minutes gov cmap = Some sessions /\
    sessions ≡ₚ
      (if (elapsed r1 r2 <=? gap)%Z
       then flush (list_to_set gov) cmap fp [r1; r2]
       else flush (list_to_set gov) cmap fp [r1] ++ flush (list_to_set gov) cmap fp [r2]).
Proof.
  intros Hip Hua Hhost Hrows Hgap fp.
  unfold infer_sessions. rewrite Hgap. cbn [mbind option_bind].
  eexists. split; [reflexivity|].
  rewrite sort_by_Permutation.
  assert ((match site_host with
           | EmptyString => rows
           | String _ _ => List.filter (fun r => String.eqb (host r) site_host) rows
           end) = rows) as ->.
  { destruct Hhost as [->|[H1 H2]]; [done|].
    destruct Hrows as [[-> _]|[-> _]]; cbn;
      rewrite H1, H2, string_eqb_refl; by destruct site_host. }
  assert (row_fingerprint salt r2 = fp) as Hfp
    by (unfold fp, row_fingerprint; by rewrite Hip, Hua).
  assert (group_rows salt rows = [(fp, rows)]) as ->.
  { destruct Hrows as [[-> _]|[-> _]]; unfold group_rows;
      cbn [fold_left group_append]; rewrite Hfp; fold fp;
      by rewrite string_eqb_refl. }
  cbn [flat_map app fst snd]. rewrite app_nil_r. unfold group_sessions.
  assert (sort_by Z.leb (fun r => instant (ts r)) rows = [r1; r2]) as ->.
  { unfold elapsed in Hrows. destruct Hrows as [[-> Hord]|[-> Hord]]; cbn.
    - destruct (Z.leb_spec (instant (ts r1)) (instant (ts r2))); [done|lia].
    - destruct (Z.leb_spec (instant (ts r2)) (instant (ts r1))); [lia|done]. }
  unfold walk. cbn [fold_left walk_step last]. fold (elapsed r1 r2).
  destruct (elapsed r1 r2 <=? gap)%Z; cbn [app flat_map]; by rewrite ?app_nil_r.
Qed.
End TwoRequests.

(** ** Groups, chunks and the sessions made of them *)

(** The rows [infer_sessions] works on: those of the wanted host, or all
    of them when no host is given. *)
Definition kept_rows (site_host : string) (rows : list LogRow) : list LogRow :=
  match site_host with
  | EmptyString => rows
  | _ => List.filter (fun r => String.eqb (host r) site_host) rows
  end.

Section GroupFacts.
Context {lib : PyLib}.

Lemma walk_concat (gap : Z) (items : list LogRow) :
  concat (walk gap items) = items.
Proof.
  unfold walk. pose proof (walk_inv_fold gap items) as Hinv.
  destruct (fold_left (walk_step gap) items ([], [])) as [cur fl].
  destruct Hinv as [Hc _ _ _ _ _]. cbn [fst snd] in Hc.
  rewrite concat_app. cbn. by rewrite app_nil_r.
Qed.

Lemma group_append_rows (grouped : list (string * list LogRow))
    (fp : string) (r : LogRow) :
  flat_map snd (group_append grouped fp r) ≡ₚ flat_map snd grouped ++ [r].
Proof.
  induction grouped as [|[k items] grouped IH]; [done|].
  cbn [group_append]. destruct (String.eqb k fp); cbn [flat_map snd].
  - rewrite <- !app_assoc. apply Permutation_app_head.
    apply Permutation_app_comm.
  - rewrite IH. by rewrite app_assoc.
Qed.

Lemma group_rows_rows (salt : string) (rows : list LogRow) :
  flat_map snd (group_rows salt rows) ≡ₚ rows.
Proof.
  unfold group_rows. induction rows as [|r rows IH] using rev_ind; [done|].
  rewrite fold_left_app. cbn [fold_left]. by rewrite group_append_rows, IH.
Qed.

(** Every group holds rows of one fingerprint, its key. *)
Definition keyed (salt : string) (grouped : list (string * list LogRow)) : Prop :=
  Forall (fun g => Forall (fun r => row_fingerprint salt r = g.1) g.2) grouped.

Lemma group_append_keyed (salt : string) (grouped : list (string * list LogRow))
    (r : LogRow) :
  keyed salt grouped ->
  keyed salt (group_append grouped (row_fingerprint salt r) r).
Proof.
  unfold keyed. induction 1 as [|[k items] grouped Hg Hrest IH]; cbn [group_append].
  - repeat constructor.
  - destruct (String.eqb_spec k (row_fingerprint salt r)) as [->|Hne].
    + constructor; [|done]. cbn [fst snd] in *. apply Forall_app. split; [done|].
      by repeat constructor.
    + by constructor.
Qed.

Lemma group_rows_keyed (salt : string) (rows : list LogRow) :
  keyed salt (group_rows salt rows).
Proof.
  unfold group_rows. induction rows as [|r rows IH] using rev_ind; [constructor|].
  rewrite fold_left_app. cbn [fold_left]. by apply group_append_keyed.
Qed.

Lemma flush_paths (gov_set : gset string) (cmap : gmap string string)
    (fp : string) (chunk : list LogRow) :
  flat_map s_path (flush gov_set cmap fp chunk) = map path chunk.
Proof. destruct chunk; [done|]. cbn. by rewrite app_nil_r. Qed.

Lemma chunks_paths (gov_set : gset string) (cmap : gmap string string)
    (fp : string) (chunks : list (list LogRow)) :
  flat_map s_path (flat_map (flush gov_set cmap fp) chunks)
    = map path (concat chunks).
Proof.
  induction chunks as [|chunk chunks IH]; [done|].
  change (flat_map s_path (flush gov_set cmap fp chunk
                           ++ flat_map (flush gov_set cmap fp) chunks)
          = map path (chunk ++ concat chunks)).
  by rewrite flat_map_app, flush_paths, map_app, IH.
Qed.

Lemma group_sessions_paths (gov_set : gset string) (cmap : gmap string string)
    (gap : Z) (fp : string) (items : list LogRow) :
  flat_map s_path (group_sessions gov_set cmap gap fp items) ≡ₚ map path items.
Proof.
  unfold group_sessions. rewrite chunks_paths, walk_concat.
  apply Permutation_map, sort_by_Permutation.
Qed.

(** Where a session comes from: a chunk of the walk over a group. *)
Lemma infer_sessions_origin (rows : list LogRow) (site_host salt : string)
    (gap_minutes : Z) (gov : list string) (cmap : gmap string string)
    (ss : list Session) (s : Session) :
  infer_sessions rows site_host salt gap_minutes gov cmap = Some ss ->
  In s ss ->
  exists gap fp items chunk,
    timedelta_minutes gap_minutes = Some gap /\
    In (fp, items) (group_rows salt (kept_rows site_host rows)) /\
    In chunk (walk gap (sort_by Z.leb (fun r => instant (ts r)) items)) /\
    In s (flush (list_to_set gov) cmap fp chunk).
Proof.
  unfold infer_sessions. fold (kept_rows site_host rows). intros Hrun Hin.
  destruct (timedelta_minutes gap_minutes) as [gap|]; [|discriminate].
  cbn in Hrun. injection Hrun as <-.
  apply (Permutation_in _ (sort_by_Permutation _ _ _)) in Hin.
  apply in_flat_map in Hin as ([fp items] & Hg & Hin).
  unfold group_sessions in Hin. apply in_flat_map in Hin as (chunk & Hc & Hin).
  by exists gap, fp, items, chunk.
Qed.

Lemma sort_by_ts_sorted (items : list LogRow) :
  StronglySorted (fun a b => (instant (ts a) <= instant (ts b))%Z)
                 (sort_by Z.leb (fun r => instant (ts r)) items).
Proof.
  pose proof (sort_by_StronglySorted Z.leb (fun x => instant (ts x))
                ltac:(intros a b; rewrite !Z.leb_le; lia)
                ltac:(intros a b c; rewrite !Z.leb_le; lia) items) as Hsorted.
  induction Hsorted as [|x l Hl IH Hx]; constructor; [done|].
  eapply Forall_impl; [exact Hx|]. intros y Hy. cbv beta in Hy. by apply Z.leb_le.
Qed.

Lemma kept_rows_spec (site_host : string) (rows : list LogRow) (r : LogRow) :
  In r (kept_rows site_host rows) ->
  In r rows /\ (site_host <> EmptyString -> host r = site_host).
Proof.
  unfold kept_rows. destruct site_host as [|c h]; [by split|].
  intros [Hin Hh]%filter_In. split; [done|]. intros _. by apply String.eqb_eq.
Qed.

Lemma sorted_concat_elem {A : Type} (R : A -> A -> Prop)
    (chunks : list (list A)) (chunk : list A) :
  StronglySorted R (concat chunks) -> In chunk chunks -> StronglySorted R chunk.
Proof.
  induction chunks as [|c chunks IH]; [done|]. cbn [concat]. intros Hs [->|Hin].
  - clear IH. induction chunk as [|x chunk IH]; [constructor|].
    cbn in Hs. apply StronglySorted_inv in Hs as [Hs Hx].
    constructor; [by apply IH|]. apply Forall_app in Hx. tauto.
  - apply IH; [|done]. clear IH Hin. induction c as [|x c IH]; [done|].
    cbn in Hs. apply StronglySorted_inv in Hs as [Hs _]. by apply IH.
Qed.
End GroupFacts.

(** ** Where a session starts and where it ends *)

(** The chunks cut [items] exactly at the gaps above the threshold: put
    together they are [items], none is empty, neighbours inside a chunk
    are at most [gap] apart, and every chunk but the first starts more
    than [gap] after the last request of the chunk before it. *)
Definition split_at_gaps (gap : Z) (items : list LogRow)
    (chunks : list (list LogRow)) : Prop :=
  concat chunks = items /\
  Forall (fun chunk => chunk <> []) chunks /\
  Forall (within_gap gap) chunks /\
  breaks_exceed gap chunks.

Definition in_time_order (items : list LogRow) : Prop :=
  StronglySorted (fun a b => (instant (ts a) <= instant (ts b))%Z) items.

Section ClientFacts.
Context {lib : PyLib}.

(** The requests of one client among [rows], in the order of [rows]. *)
Definition client_rows (salt fp : string) (rows : list LogRow) : list LogRow :=
  List.filter (fun r => String.eqb (row_fingerprint salt r) fp) rows.

(** The text [infer_sessions] emits as [window_utc.start] for a session
    that row [r] opens. *)
Definition start_text (r : LogRow) : string :=
  Str.replace "+00:00" "Z" (isoformat (ts r)).

Lemma client_rows_snoc (salt fp : string) (rows : list LogRow) (r : LogRow) :
  client_rows salt fp (rows ++ [r]) =
    client_rows salt fp rows
    ++ (if String.eqb (row_fingerprint salt r) fp then [r] else []).
Proof. unfold client_rows. apply List.filter_app. Qed.

Lemma client_rows_nil (salt fp : string) (rows : list LogRow) :
  (forall r, In r rows -> row_fingerprint salt r <> fp) ->
  client_rows salt fp rows = [].
Proof.
  intros Hno. unfold client_rows. induction rows as [|r rows IH]; [done|].
  cbn. destruct (String.eqb_spec (row_fingerprint salt r) fp) as [E|_].
  - exfalso. by apply (Hno r); [left|].
  - apply IH. intros r' Hr'. apply Hno. by right.
Qed.

(** What the grouping table holds after the rows [rows]. *)
Definition grouped_by_client (salt : string) (rows : list LogRow)
    (grouped : list (string * list LogRow)) : Prop :=
  NoDup (map fst grouped) /\
  Forall (fun g => g.2 = client_rows salt g.1 rows /\ g.2 <> []) grouped /\
  (forall r, In r rows -> In (row_fingerprint salt r) (map fst grouped)).

Lemma group_append_keys (grouped : list (string * list LogRow)) (fp : string)
    (r : LogRow) :
  map fst (group_append grouped fp r) =
    map fst grouped ++ (if decide (fp ∈ map fst grouped) then [] else [fp]).
Proof.
  induction grouped as [|[k items] grouped IH].
  - cbn. destruct (decide _) as [Hin|_]; [|done]. by apply elem_of_nil in Hin.
  - cbn [group_append]. destruct (String.eqb_spec k fp) as [->|Hne].
    + cbn [map fst]. clear IH.
      destruct (decide (fp ∈ fp :: map fst grouped)) as [_|Hn]; [by rewrite app_nil_r|].
      exfalso. apply Hn. left.
    + cbn [map fst]. rewrite IH. cbn [app]. f_equal.
      destruct (decide (fp ∈ map fst grouped)) as [Hin|Hn],
               (decide (fp ∈ k :: map fst grouped)) as [Hin'|Hn']; try done.
      * exfalso. apply Hn'. by right.
      * apply elem_of_cons in Hin' as [?|?]; done.
Qed.

Lemma group_append_groups (salt : string) (rows : list LogRow) (r : LogRow)
    (grouped : list (string * list LogRow)) :
  let fp := row_fingerprint salt r in
  NoDup (map fst grouped) ->
  Forall (fun g => g.2 = client_rows salt g.1 rows /\ g.2 <> []) grouped ->
  (fp ∉ map fst grouped -> client_rows salt fp rows = []) ->
  Forall (fun g => g.2 = client_rows salt g.1 (rows ++ [r]) /\ g.2 <> [])
         (group_append grouped fp r).
Proof.
  intros fp. induction grouped as [|[k items] grouped IH]; intros Hnd HF Hnew.
  - cbn. constructor; [|constructor]. cbn [fst snd]. split; [|done].
    rewrite client_rows_snoc, Hnew by apply not_elem_of_nil. fold fp.
    by rewrite String.eqb_refl.
  - cbn [map fst] in Hnd. apply NoDup_cons in Hnd as [Hk Hnd].
    apply Forall_cons in HF as [[Hitems Hne] HF]. cbn [fst snd] in *.
    cbn [group_append]. destruct (String.eqb_spec k fp) as [->|Hkfp].
    + constructor.
      * cbn [fst snd]. split; [|by destruct items].
        rewrite client_rows_snoc. fold fp. by rewrite String.eqb_refl, Hitems.
      * apply Forall_forall. intros g Hg.
        rewrite Forall_forall in HF. destruct (HF g Hg) as [Hgi Hgne].
        split; [|done]. rewrite client_rows_snoc. fold fp.
        destruct (String.eqb_spec fp g.1) as [E|_]; [|by rewrite app_nil_r].
        exfalso. apply Hk. rewrite E. by apply (list_elem_of_fmap_2 fst).
    + constructor.
      * cbn [fst snd]. split; [|done]. rewrite client_rows_snoc. fold fp.
        destruct (String.eqb_spec fp k) as [E|_]; [by symmetry in E|].
        by rewrite app_nil_r.
      * apply IH; [done|done|]. intros Hn. apply Hnew.
        intros [?|?]%elem_of_cons; done.
Qed.

Lemma group_rows_clients (salt : string) (rows : list LogRow) :
  grouped_by_client salt rows (group_rows salt rows).
Proof.
  unfold group_rows. induction rows as [|r rows IH] using rev_ind.
  - split; [constructor|]. split; [constructor|]. intros r [].
  - rewrite fold_left_app. cbn [fold_left].
    set (grouped := fold_left _ rows []) in *.
    destruct IH as (Hnd & HF & Hall).
    assert (row_fingerprint salt r ∉ map fst grouped ->
            client_rows salt (row_fingerprint salt r) rows = []) as Hnew.
    { intros Hn. apply client_rows_nil. intros r' Hr' E. apply Hn.
      rewrite <- E. by apply list_elem_of_In, Hall. }
    split; [|split].
    + rewrite group_append_keys.
      destruct (decide (row_fingerprint salt r ∈ map fst grouped)) as [Hin|Hn].
      * by rewrite app_nil_r.
      * apply NoDup_app. split; [done|]. split; [|apply NoDup_singleton].
        by intros x Hx ->%list_elem_of_singleton.
    + by apply group_append_groups.
    + intros r' [Hr'|[<-|[]]]%in_app_or; rewrite group_append_keys;
        apply in_or_app.
      * left. by apply Hall.
      * destruct (decide (row_fingerprint salt r ∈ map fst grouped)) as [Hin|Hn];
          [left; by apply list_elem_of_In|right; by left].
Qed.
End ClientFacts.

Section SessionBoundaries.
Context {lib : PyLib}.

Lemma flat_map_chunks (gov_set : gset string) (cmap : gmap string string)
    (gap : Z) (grouped : list (string * list LogRow)) :
  flat_map (fun c => flat_map (flush gov_set cmap c.1) c.2)
    (map (fun g => (g.1, walk gap (sort_by Z.leb (fun r => instant (ts r)) g.2)))
         grouped)
  = flat_map (fun g => group_sessions gov_set cmap gap g.1 g.2) grouped.
Proof.
  induction grouped as [|g grouped IH]; [done|].
  cbn [map flat_map fst snd]. by rewrite IH.
Qed.

(** The sessions of [infer_sessions] are those of the chunks of every
    client: the requests of the client in time order, cut at the gaps
    above the threshold. *)
Lemma sessions_of_clients (rows : list LogRow) (site_host salt : string)
    (gap_minutes gap : Z) (gov : list string) (cmap : gmap string string) :
  timedelta_minutes gap_minutes = Some gap ->
  exists (sessions : list Session) (clients : list (string * list (list LogRow))),
    infer_sessions rows site_host salt gap_minutes gov cmap = Some sessions /\
    sessions ≡ₚ
      flat_map (fun c => flat_map (flush (list_to_set gov) cmap c.1) c.2) clients /\
    NoDup (map fst clients) /\
    (forall r, In r (kept_rows site_host rows) ->
               In (row_fingerprint salt r) (map fst clients)) /\
    Forall (fun c =>
              exists items : list LogRow,
                items ≡ₚ client_rows salt c.1 (kept_rows site_host rows) /\
                in_time_order items /\
                split_at_gaps gap items c.2) clients.
Proof.
  intros Hgap. unfold infer_sessions. fold (kept_rows site_host rows).
  rewrite Hgap. cbn [mbind option_bind].
  set (grouped := group_rows salt (kept_rows site_host rows)).
  destruct (group_rows_clients salt (kept_rows site_host rows))
    as (Hnd & HF & Hall). fold grouped in Hnd, HF, Hall.
  eexists _, (map (fun g => (g.1, walk gap (sort_by Z.leb (fun r => instant (ts r)) g.2)))
                  grouped).
  split; [reflexivity|]. split; [|split; [|split]].
  - by rewrite sort_by_Permutation, flat_map_chunks.
  - by rewrite map_map.
  - intros r Hr. rewrite map_map. by apply Hall.
  - apply Forall_map. eapply Forall_impl; [exact HF|].
    intros g [Hg Hne]. cbn [fst snd].
    exists (sort_by Z.leb (fun r => instant (ts r)) g.2).
    split; [by rewrite sort_by_Permutation, Hg|].
    split; [apply sort_by_ts_sorted|].
    apply walk_chunks. intros E. apply Hne.
    apply Permutation_nil. rewrite <- E. apply sort_by_Permutation.
Qed.

(** C5.  [infer_sessions] starts a new session exactly when the gap to
    the previous request of the running session strictly exceeds the
    threshold.  First part: the sessions are those of the chunks of each
    client, and the chunks of a client are its requests in time order
    cut at the gaps: neighbours inside a chunk are at most [gap] apart
    and every chunk starts more than [gap] after the end of the one
    before.  Second part: two requests of one client, given in either
    order, make one session when they are at most [gap] apart (a gap
    equal to the threshold stays in the session) and two sessions
    otherwise.  Third part: two requests of one fingerprint 45 minutes
    apart, under a 30-minute threshold, give two sessions. *)
Theorem new_session_iff_gap_exceeded :
  (forall (rows : list LogRow) (site_host salt : string) (gap_minutes gap : Z)
          (gov : list string) (cmap : gmap string string),
      timedelta_minutes gap_minutes = Some gap ->
      exists (sessions : list Session) (clients : list (string * list (list LogRow))),
        infer_sessions rows site_host salt gap_minutes gov cmap = Some sessions /\
        sessions ≡ₚ
          flat_map (fun c => flat_map (flush (list_to_set gov) cmap c.1) c.2) clients /\
        NoDup (map fst clients) /\
        (forall r, In r (kept_rows site_host rows) ->
                   In (row_fingerprint salt r) (map fst clients)) /\
        Forall (fun c =>
                  exists items : list LogRow,
                    items ≡ₚ client_rows salt c.1 (kept_rows site_host rows) /\
                    in_time_order items /\
                    split_at_gaps gap items c.2) clients) /\
  (forall (r1 r2 : LogRow) (rows : list LogRow) (site_host salt : string)
          (gap_minutes gap : Z) (gov : list string) (cmap : gmap string string),
      ip r1 = ip r2 -> ua r1 = ua r2 ->
      site_host = EmptyString \/ (host r1 = site_host /\ host r2 = site_host) ->
      rows = [r1; r2] /\ (0 <= elapsed r1 r2)%Z \/
      rows = [r2; r1] /\ (0 < elapsed r1 r2)%Z ->
      timedelta_minutes gap_minutes = Some gap ->
      exists sessions : list Session,
        infer_sessions rows site_host salt gap_minutes gov cmap = Some sessions /\
        if (gap <? elapsed r1 r2)%Z
        then map s_path sessions ≡ₚ [[path r1]; [path r2]]
        else map s_path sessions = [[path r1; path r2]]) /\
  (forall (r1 r2 : LogRow) (site_host salt : string) (gov : list string)
          (cmap : gmap string string),
      ip r1 = ip r2 -> ua r1 = ua r2 ->
      site_host = EmptyString \/ (host r1 = site_host /\ host r2 = site_host) ->
      elapsed r1 r2 = (45 * 60 * 1000000)%Z ->
      exists s1 s2,
        infer_sessions [r1; r2] site_host salt 30 gov cmap = Some [s1; s2] /\
        length (s_path s1) = 1 /\ length (s_path s2) = 1).
Proof.
  split; [|split].
  - apply sessions_of_clients.
  - intros r1 r2 rows site_host salt gap_minutes gap gov cmap Hip Hua Hhost Hrows Hgap.
    destruct (two_requests r1 r2 rows site_host salt gap_minutes gap gov cmap
                Hip Hua Hhost Hrows Hgap) as (ss & Hrun & Hperm).
    exists ss. split; [done|].
    destruct (Z.leb_spec (elapsed r1 r2) gap) as [Hle|Hgt],
             (Z.ltb_spec gap (elapsed r1 r2)) as [Hlt|Hge]; try lia.
    + cbn [flush] in Hperm. apply Permutation_sym, Permutation_length_1_inv in Hperm.
      by rewrite Hperm.
    + cbn [flush app] in Hperm. by rewrite Hperm.
  - intros r1 r2 site_host salt gov cmap Hip Hua Hhost Hel.
    destruct (two_requests r1 r2 [r1; r2] site_host salt 30 1800000000 gov cmap
                Hip Hua Hhost ltac:(left; split; [done|lia]) eq_refl)
      as (ss & Hrun & Hperm).
    rewrite Hel in Hperm. cbn [Z.leb] in Hperm.
    change (45 * 60 * 1000000 <=? 1800000000)%Z with false in Hperm.
    cbn [flush app] in Hperm.
    pose proof (Permutation_length Hperm) as Hlen.
    destruct ss as [|s1 [|s2 [|]]]; try discriminate.
    exists s1, s2. split; [done|].
    assert (Forall (fun s => length (s_path s) = 1) [s1; s2]) as HF.
    { rewrite Hperm. repeat constructor. }
    by inversion HF as [|? ? ? HF']; inversion HF'.
Qed.
End SessionBoundaries.

Section SessionOrder.
Context {lib : PyLib}.

(** The request that opens a session: the earliest of its chunk, whose
    timestamp gives the session its [window_utc.start]. *)
Definition opens (site_host : string) (rows : list LogRow) (s : Session)
    (first : LogRow) : Prop :=
  exists chunk : list LogRow,
    In first (kept_rows site_host rows) /\
    head chunk = Some first /\
    s_path s = map path chunk /\
    window_start s = start_text first /\
    Forall (fun r => (instant (ts first) <= instant (ts r))%Z) chunk.

Lemma session_start (rows : list LogRow) (site_host salt : string)
    (gap_minutes : Z) (gov : list string) (cmap : gmap string string)
    (sessions : list Session) (s : Session) :
  infer_sessions rows site_host salt gap_minutes gov cmap = Some sessions ->
  In s sessions ->
  exists first : LogRow, opens site_host rows s first.
Proof.
  intros Hrun Hin.
  destruct (infer_sessions_origin _ _ _ _ _ _ _ _ Hrun Hin)
    as (gap & fp & items & chunk & _ & Hg & Hc & Hs).
  destruct chunk as [|first chunk]; [destruct Hs|]. destruct Hs as [<-|[]].
  exists first, (first :: chunk).
  set (sorted := sort_by Z.leb (fun r => instant (ts r)) items) in *.
  split; [|split; [done|split; [done|split; [done|]]]].
  - apply (Permutation_in _ (group_rows_rows salt (kept_rows site_host rows))).
    apply in_flat_map. exists (fp, items). split; [done|]. cbn [snd].
    apply (Permutation_in _ (sort_by_Permutation Z.leb (fun r => instant (ts r)) items)).
    fold sorted. rewrite <- (walk_concat gap sorted).
    apply in_concat. exists (first :: chunk). split; [done|by left].
  - assert (StronglySorted (fun a b => (instant (ts a) <= instant (ts b))%Z)
              (first :: chunk)) as Hsorted.
    { apply (sorted_concat_elem _ (walk gap sorted)); [|done].
      rewrite walk_concat. apply sort_by_ts_sorted. }
    apply StronglySorted_inv in Hsorted as [_ Hfirst].
    constructor; [lia|done].
Qed.

(** What holds of the list [infer_sessions] returns, whenever the gap
    is a valid [timedelta]: it is sorted ascending by the text of
    [window_utc.start] (the strings are compared, not the instants);
    every session has requests and starts with the text of its earliest
    request; the list is in the order of the instants whenever the
    order of the start texts reflects them; and the governance
    allowlist counts only as a set: the order and the repetitions of
    [gov_exact_paths] do not change the result. *)
Lemma sessions_sorted_nonempty_deterministic (rows : list LogRow)
    (site_host salt : string) (gap_minutes gap : Z) (gov_exact_paths : list string)
    (path_to_category : gmap string string) :
  timedelta_minutes gap_minutes = Some gap ->
  exists sessions,
    infer_sessions rows site_host salt gap_minutes gov_exact_paths path_to_category
      = Some sessions /\
    StronglySorted
      (fun a b => String.leb (window_start a) (window_start b) = true) sessions /\
    Forall (fun s => s_path s <> [] /\ exists first, opens site_host rows s first)
           sessions /\
    ((forall a b : LogRow,
         In a (kept_rows site_host rows) -> In b (kept_rows site_host rows) ->
         String.leb (start_text a) (start_text b) = true ->
         (instant (ts a) <= instant (ts b))%Z) ->
     StronglySorted
       (fun s1 s2 => forall f1 f2 : LogRow,
            opens site_host rows s1 f1 -> opens site_host rows s2 f2 ->
            (instant (ts f1) <= instant (ts f2))%Z) sessions) /\
    (forall gov' : list string,
        list_to_set gov' =@{gset string} list_to_set gov_exact_paths ->
        infer_sessions rows site_host salt gap_minutes gov' path_to_category
          = Some sessions).
Proof.
  intros Hgap.
  destruct (infer_sessions rows site_host salt gap_minutes gov_exact_paths
              path_to_category) as [ss|] eqn:Hrun; cycle 1.
  { unfold infer_sessions in Hrun. rewrite Hgap in Hrun. discriminate. }
  assert (StronglySorted
            (fun a b => String.leb (window_start a) (window_start b) = true) ss)
    as Hsorted.
  { unfold infer_sessions in Hrun. rewrite Hgap in Hrun. cbn in Hrun.
    injection Hrun as <-.
    apply sort_by_StronglySorted.
    + apply String.leb_total.
    + apply StrOrder.leb_trans. }
  exists ss. split; [done|]. split; [done|]. split; [|split].
  - apply List.Forall_forall. intros s Hin.
    destruct (session_start _ _ _ _ _ _ _ _ Hrun Hin) as [first Hopen].
    split; [|by exists first].
    destruct Hopen as (chunk & _ & Hhead & Hpath & _). rewrite Hpath.
    by destruct chunk.
  - intros Hmono. clear Hrun.
    induction Hsorted as [|s1 l Hl IH Hs1]; constructor; [done|].
    eapply Forall_impl; [exact Hs1|]. intros s2 Hle f1 f2 Ho1 Ho2.
    cbv beta in Hle.
    destruct Ho1 as (c1 & Hin1 & _ & _ & Hw1 & _).
    destruct Ho2 as (c2 & Hin2 & _ & _ & Hw2 & _).
    apply Hmono; [done|done|]. by rewrite <- Hw1, <- Hw2.
  - intros gov' Heq. rewrite <- Hrun. unfold infer_sessions. by rewrite Heq.
Qed.
End SessionOrder.

(** ** The same logical content *)

(** Two JSON values hold the same logical content when they agree up to the
    order in which the keys of their objects were inserted: scalars are
    equal, arrays agree position by position, objects have the same keys
    (each once, as in a [dict]) and the same content under each key. *)
Fixpoint same_content (a b : json) : Prop :=
  match a, b with
  | JNull, JNull => True
  | JBool x, JBool y => x = y
  | JInt x, JInt y => x = y
  | JFloat x, JFloat y => x = y
  | JStr x, JStr y => x = y
  | JArr xs, JArr ys =>
      (fix go (xs ys : list json) : Prop :=
         match xs, ys with
         | [], [] => True
         | x :: xs', y :: ys' => same_content x y /\ go xs' ys'
         | _, _ => False
         end) xs ys
  | JObj fa, JObj fb =>
      NoDup (map fst fa) /\ NoDup (map fst fb) /\
      (forall k, In k (map fst fb) -> In k (map fst fa)) /\
      (fix go (fa : list (string * json)) : Prop :=
         match fa with
         | [] => True
         | kv :: fa' =>
             match Json.get (fst kv) fb with
             | Some w => same_content (snd kv) w
             | None => False
             end /\ go fa'
         end) fa
  | _, _ => False
  end.

Section JsonInd.
Variable P : json -> Prop.
Hypothesis HNull : P JNull.
Hypothesis HBool : forall b, P (JBool b).
Hypothesis HInt : forall n, P (JInt n).
Hypothesis HFloat : forall x, P (JFloat x).
Hypothesis HStr : forall s, P (JStr s).
Hypothesis HArr : forall items, Forall P items -> P (JArr items).
Hypothesis HObj : forall fields, Forall (fun kv => P (snd kv)) fields -> P (JObj fields).

Fixpoint json_nested_ind (v : json) : P v :=
  match v with
  | JNull => HNull
  | JBool b => HBool b
  | JInt n => HInt n
  | JFloat x => HFloat x
  | JStr s => HStr s
  | JArr items =>
      HArr items
        ((fix go (l : list json) : Forall P l :=
            match l with
            | [] => @List.Forall_nil _ P
            | x :: l' => @List.Forall_cons _ P x l' (json_nested_ind x) (go l')
            end) items)
  | JObj fields =>
      HObj fields
        ((fix go (l : list (string * json)) : Forall (fun kv => P (snd kv)) l :=
            match l with
            | [] => @List.Forall_nil _ _
            | kv :: l' => @List.Forall_cons _ (fun kv => P (snd kv)) kv l' (json_nested_ind (snd kv)) (go l')
            end) fields)
  end.
End JsonInd.

(** ** A sorted list with distinct keys is unique *)

Section SortUnique.
Context {A K : Type} (le : K -> K -> bool) (key : A -> K).
Hypothesis le_total : forall a b, le a b = true \/ le b a = true.
Hypothesis le_trans : forall a b c, le a b = true -> le b c = true -> le a c = true.
Hypothesis le_antisym : forall a b, le a b = true -> le b a = true -> a = b.

Let R (x y : A) : Prop := le (key x) (key y) = true.

Lemma sorted_distinct_unique (l1 l2 : list A) :
  StronglySorted R l1 -> StronglySorted R l2 -> l1 ≡ₚ l2 ->
  List.NoDup (map key l1) -> l1 = l2.
Proof.
  intros H1. revert l2. induction H1 as [|x t1 H1 IH Hx]; intros l2 H2 Hp Hnd.
  - by apply Permutation_nil in Hp.
  - destruct H2 as [|y t2 H2 Hy].
    + symmetry in Hp. by apply Permutation_nil in Hp.
    + assert (x = y) as <-.
      { assert (In y (x :: t1)) as [->|Hy1]
          by (eapply Permutation_in; [symmetry; exact Hp|by left]); [done|].
        assert (In x (y :: t2)) as [->|Hx2]
          by (eapply Permutation_in; [exact Hp|by left]); [done|].
        rewrite List.Forall_forall in Hx, Hy.
        pose proof (le_antisym _ _ (Hx _ Hy1) (Hy _ Hx2)) as Hk.
        inversion Hnd as [|? ? Hnot _]. exfalso. apply Hnot.
        rewrite Hk. by apply in_map. }
      f_equal. apply IH; [done|by eapply Permutation_cons_inv|].
      by inversion Hnd.
Qed.

Lemma sort_by_unique (l1 l2 : list A) :
  l1 ≡ₚ l2 -> List.NoDup (map key l1) ->
  sort_by le key l1 = sort_by le key l2.
Proof.
  intros Hp Hnd. apply sorted_distinct_unique.
  - by apply sort_by_StronglySorted.
  - by apply sort_by_StronglySorted.
  - by rewrite !sort_by_Permutation.
  - eapply Permutation_NoDup; [|exact Hnd].
    apply Permutation_map. symmetry. apply sort_by_Permutation.
Qed.
End SortUnique.

Section DictFacts.
Lemma get_In (k : string) (fields : list (string * json)) (v : json) :
  Json.get k fields = Some v -> In (k, v) fields.
Proof.
  induction fields as [|[k' v'] fields IH]; cbn; [done|].
  destruct (String.eqb_spec k' k) as [->|_].
  - intros [= ->]. by left.
  - intros Hg. right. by apply IH.
Qed.

Lemma In_get (k : string) (fields : list (string * json)) (v : json) :
  List.NoDup (map fst fields) -> In (k, v) fields -> Json.get k fields = Some v.
Proof.
  induction fields as [|[k' v'] fields IH]; cbn; [done|].
  intros Hnd [[= -> ->]|Hin].
  - by rewrite (proj2 (String.eqb_eq k k) eq_refl).
  - inversion Hnd as [|? ? Hnot Hnd']; subst.
    destruct (String.eqb_spec k' k) as [->|_]; [|by apply IH].
    exfalso. apply Hnot. by apply (in_map fst) in Hin.
Qed.

Lemma In_key (k : string) (fields : list (string * json)) :
  In k (map fst fields) -> exists v, In (k, v) fields.
Proof.
  intros ([k' v] & <- & Hin)%in_map_iff. by exists v.
Qed.

Lemma same_content_arr (xs ys : list json) :
  same_content (JArr xs) (JArr ys) -> Forall2 same_content xs ys.
Proof.
  cbn. revert ys. induction xs as [|x xs IH]; intros [|y ys] Hs; try done.
  destruct Hs as [Hxy Hs]. constructor; [done|by apply IH].
Qed.

Lemma same_content_obj (fa fb : list (string * json)) :
  same_content (JObj fa) (JObj fb) ->
  List.NoDup (map fst fa) /\ List.NoDup (map fst fb) /\
  (forall k, In k (map fst fb) -> In k (map fst fa)) /\
  (forall k v, In (k, v) fa ->
     exists w, Json.get k fb = Some w /\ same_content v w).
Proof.
  cbn. intros (Ha & Hb & Hincl & Hgo).
  split; [by apply NoDup_ListNoDup|]. split; [by apply NoDup_ListNoDup|].
  split; [done|]. clear Ha Hincl.
  induction fa as [|[k' v'] fa IH]; [by intros ? ? []|].
  destruct Hgo as [Hkv Hgo]. intros k v [[= -> ->]|Hin]; [|by eapply IH].
  cbn in Hkv. destruct (Json.get k fb) as [w|]; [|done]. by exists w.
Qed.
End DictFacts.

Section EncodeFacts.
Context {lib : PyLib}.
Variable indent : option nat.
Variable item_separator key_separator : string.

Let enc := Json.encode true indent item_separator key_separator.

Lemma encode_same_content (a : json) :
  forall (b : json) (level : nat), same_content a b -> enc level a = enc level b.
Proof.
  induction a as [|b1|n1|x1|s1|xs IH|fa IH] using json_nested_ind;
    intros b level Hs; destruct b as [|b2|n2|x2|s2|ys|fb]; try done;
    try (cbn in Hs; by subst).
  - apply same_content_arr in Hs.
    assert (map (enc (S level)) xs = map (enc (S level)) ys) as Hmap.
    { clear -Hs IH. induction Hs as [|x y xs ys Hxy Hs IHs]; [done|].
      apply Forall_cons in IH as [IHx IHxs]. cbn. f_equal; eauto. }
    destruct Hs as [|x y xs ys Hxy Hs]; [done|].
    unfold enc in *. cbn [Json.encode]. by rewrite Hmap.
  - apply same_content_obj in Hs as (Hnda & Hndb & Hincl & Hval).
    set (item := fun kv : string * json => (fst kv, enc (S level) (snd kv))).
    assert (forall k v w, In (k, v) fa -> In (k, w) fb ->
                          enc (S level) v = enc (S level) w) as Henc.
    { intros k v w Hv Hw. destruct (Hval _ _ Hv) as (w' & Hg & Hsame).
      rewrite (In_get _ _ _ Hndb Hw) in Hg. injection Hg as <-.
      rewrite List.Forall_forall in IH. by apply (IH _ Hv). }
    assert (forall f : list (string * json), map fst (map item f) = map fst f) as Hfst.
    { intros f. rewrite map_map. by apply map_ext. }
    assert (map item fa ≡ₚ map item fb) as Hperm.
    { apply NoDup_Permutation.
      - apply NoDup_ListNoDup. eapply NoDup_map_inv with (f := fst).
        by rewrite Hfst.
      - apply NoDup_ListNoDup. eapply NoDup_map_inv with (f := fst).
        by rewrite Hfst.
      - intros [k t]. rewrite !list_elem_of_In, !in_map_iff. split.
        + intros ([k' v] & [= -> <-] & Hin).
          destruct (Hval _ _ Hin) as (w & Hg & _). apply get_In in Hg.
          exists (k, w). split; [|done]. unfold item. cbn. f_equal.
          symmetry. by eapply Henc.
        + intros ([k' w] & [= -> <-] & Hin).
          destruct (In_key k fa) as [v Hv].
          { apply Hincl. by apply (in_map fst) in Hin. }
          exists (k, v). split; [|done]. unfold item. cbn. f_equal.
          by eapply Henc. }
    assert (sort_by String.leb fst (map item fa) = sort_by String.leb fst (map item fb))
      as Hsort.
    { apply sort_by_unique; [apply String.leb_total|apply StrOrder.leb_trans| |done|].
      - intros x y Hxy Hyx. by apply String.leb_antisym.
      - by rewrite Hfst. }
    destruct fa as [|kva fa], fb as [|kvb fb].
    + done.
    + apply Permutation_nil in Hperm. discriminate.
    + symmetry in Hperm. apply Permutation_nil in Hperm. discriminate.
    + unfold enc in *. cbn [Json.encode]. fold item.
      change (item kva :: map item fa) with (map item (kva :: fa)).
      change (item kvb :: map item fb) with (map item (kvb :: fb)).
      by rewrite Hsort.
Qed.
End EncodeFacts.

(** ** The order in which the groups are visited

    [infer_sessions] visits the groups in insertion order.  Were they
    visited in another order, the same sessions would come out, and in the
    same order unless two of them share their [window_utc.start]: the visit
    order can only show in how ties are laid out. *)

Section GroupOrder.
Context {lib : PyLib}.

Lemma group_order_only_breaks_ties (gov_set : gset string)
    (path_to_category : gmap string string) (gap : Z)
    (grouped grouped' : list (string * list LogRow)) :
  grouped ≡ₚ grouped' ->
  let emit := fun g : string * list LogRow =>
                group_sessions gov_set path_to_category gap g.1 g.2 in
  let sessions := sort_by String.leb window_start (flat_map emit grouped) in
  let sessions' := sort_by String.leb window_start (flat_map emit grouped') in
  sessions ≡ₚ sessions' /\
  (List.NoDup (map window_start sessions) -> sessions = sessions').
Proof.
  intros Hp emit sessions sessions'.
  assert (flat_map emit grouped ≡ₚ flat_map emit grouped') as Hf
    by (by apply Permutation_flat_map).
  split.
  - unfold sessions, sessions'. by rewrite !sort_by_Permutation.
  - intros Hnd. apply sort_by_unique;
      [apply String.leb_total|apply StrOrder.leb_trans| |done|].
    + intros a b Hab Hba. by apply String.leb_antisym.
    + eapply Permutation_NoDup; [|exact Hnd].
      apply Permutation_map. apply sort_by_Permutation.
Qed.
End GroupOrder.

(** ** The run of [main] *)

(** The path [main] writes the copy of the ledger to, if the
    configuration sets [output.latest_json]. *)
Definition latest_json_is (output : list (string * json)) (latest : option string)
    : Prop :=
  match Json.get "latest_json" output with
  | Some v =>
      if Json.truthy v then exists p, v = JStr p /\ latest = Some p
      else latest = None
  | None => latest = None
  end.

(** The configuration and the file system let [main] reach its end:
    [site] and [output] are there, the output paths are strings, and every
    directory creation and every opening of a file succeeds, in the order
    the run makes them: the directories of the JSON and the YAML file,
    the two files, the copy if there is one, the directory of the state
    file and the state file. *)
Definition run_can_finish {lib : PyLib} (inp : RunInputs)
    (files : gmap string string) : Prop :=
  exists (site : json) (output : list (string * json)) (json_path yaml_path : string)
         (latest : option string),
    Json.get "site" (run_cfg inp) = Some site /\
    Json.get "output" (run_cfg inp) = Some (JObj output) /\
    Json.get "json" output = Some (JStr json_path) /\
    Json.get "yaml" output = Some (JStr yaml_path) /\
    latest_json_is output latest /\
    makedirs (dom files) (dirname json_path) = Some tt /\
    makedirs (dom files) (dirname yaml_path) = Some tt /\
    can_open_w (dom files) json_path = true /\
    can_open_w ({[json_path]} ∪ dom files) yaml_path = true /\
    let written := {[yaml_path]} ∪ ({[json_path]} ∪ dom files) in
    match latest with
    | Some p => can_open_w written p = true
    | None => True
    end /\
    let written :=
      match latest with Some p => {[p]} ∪ written | None => written end in
    makedirs written (dirname (run_state_path inp)) = Some tt /\
    can_open_w written (run_state_path inp) = true.

Section MainFacts.
Context {lib : PyLib}.

Lemma name_bound_argparse (extra : list string) :
  name_bound extra "argparse" = true <-> In "argparse" extra.
Proof.
  unfold name_bound. rewrite existsb_app. 
  change (existsb (String.eqb "argparse") module_names) with false.
  cbn [orb]. rewrite existsb_exists. split.
  - intros (x & Hin & ->%String.eqb_eq). done.
  - intros Hin. exists "argparse". split; [done|]. by apply String.eqb_eq.
Qed.

Lemma main_needs_argparse (extra : list string) (inp : RunInputs)
    (files : gmap string string) (result : json * gmap string string) :
  main extra inp files = Some result -> In "argparse" extra.
Proof.
  unfold main. intros Hrun. apply name_bound_argparse.
  by destruct (name_bound extra "argparse").
Qed.

Lemma write_file_ok (files : gmap string string) (p content : string) :
  can_open_w (dom files) p = true ->
  write_file files p content = Some (<[p := content]> files).
Proof. unfold write_file. by intros ->. Qed.

Lemma write_file_result (files files' : gmap string string) (p content : string) :
  write_file files p content = Some files' -> files' = <[p := content]> files.
Proof. unfold write_file. destruct (can_open_w _ _); [by intros [= <-]|done]. Qed.

Lemma stored_hash (inp : RunInputs) (site : json) (n : Z) (prev : json) (h : string) :
  let ledger := JObj (store_content_hash h (ledger_document inp site n prev)) in
  Json.get "ledger_sequence" (store_content_hash h (ledger_document inp site n prev))
    = Some (JInt n) /\
  get2 "integrity" "previous_ledger_hash_sha256" ledger = Some prev /\
  get2 "integrity" "content_hash_sha256" ledger = Some (JStr h) /\
  without_content_hash ledger = JObj (ledger_document inp site n prev).
Proof. cbv zeta. repeat split; reflexivity. Qed.

Lemma main_returns (extra : list string) (inp : RunInputs)
    (files : gmap string string) (st : list (string * json)) (n : Z) :
  In "argparse" extra ->
  load_state files (run_state_path inp) = Some (JObj st) ->
  py_int (default (JInt 0) (Json.get "ledger_sequence" st)) = Some n ->
  run_can_finish inp files ->
  exists (site : json) (files' : gmap string string),
    let prev := default JNull (Json.get "last_ledger_hash" st) in
    let doc := ledger_document inp site (n + 1) prev in
    let h := canonical_json_hash (JObj doc) in
    main extra inp files = Some (JObj (store_content_hash h doc), files') /\
    files' !! run_state_path inp =
      Some (state_text [("ledger_sequence", JInt (n + 1));
                        ("last_ledger_hash", JStr h)]).
Proof.
  intros Harg%name_bound_argparse Hload Hint
    (site & output & jp & yp & latest & Hsite & Hout & Hj & Hy & Hl
     & Hjd & Hyd & Hjw & Hyw & Hlw & Hsd & Hsw).
  exists site. unfold main. rewrite Harg. cbn [negb].
  rewrite Hload. cbn [mbind option_bind as_obj]. rewrite Hint. cbn [mbind option_bind].
  rewrite Hsite. cbn [mbind option_bind]. rewrite Hout. cbn [mbind option_bind as_obj].
  rewrite Hj. cbn [mbind option_bind as_str]. rewrite Hjd. cbn [mbind option_bind].
  rewrite Hy. cbn [mbind option_bind as_str]. rewrite Hyd. cbn [mbind option_bind].
  rewrite (write_file_ok _ _ _ Hjw). cbn [mbind option_bind].
  rewrite write_file_ok by (by rewrite dom_insert_L). cbn [mbind option_bind].
  unfold latest_json_is in Hl. unfold save_state.
  destruct (Json.get "latest_json" output) as [v|].
  - destruct (Json.truthy v) eqn:Ht.
    + destruct Hl as (p & -> & ->). cbn [mbind option_bind as_str].
      rewrite write_file_ok by (by rewrite !dom_insert_L). cbn [mbind option_bind].
      rewrite !dom_insert_L, Hsd. cbn [mbind option_bind].
      rewrite write_file_ok by (by rewrite !dom_insert_L).
      eexists. split; [reflexivity|]. apply lookup_insert_eq.
    + subst latest. cbn [mbind option_bind].
      rewrite !dom_insert_L, Hsd. cbn [mbind option_bind].
      rewrite write_file_ok by (by rewrite !dom_insert_L).
      eexists. split; [reflexivity|]. apply lookup_insert_eq.
  - subst latest. cbn [mbind option_bind].
    rewrite !dom_insert_L, Hsd. cbn [mbind option_bind].
    rewrite write_file_ok by (by rewrite !dom_insert_L).
    eexists. split; [reflexivity|]. apply lookup_insert_eq.
Qed.

Lemma main_result (extra : list string) (inp : RunInputs)
    (files : gmap string string) (ledger : json) (files' : gmap string string) :
  main extra inp files = Some (ledger, files') ->
  exists (site : json) (n : Z) (prev : json),
    ledger = JObj (store_content_hash
                     (canonical_json_hash (JObj (ledger_document inp site n prev)))
                     (ledger_document inp site n prev)).
Proof.
  unfold main. intros Hrun.
  destruct (name_bound extra "argparse"); [cbn [negb] in Hrun|done].
  destruct (load_state files (run_state_path inp)) as [state|]; [|done].
  cbn [mbind option_bind] in Hrun.
  destruct (as_obj state) as [st|]; [|done]. cbn [mbind option_bind] in Hrun.
  destruct (py_int _) as [n|]; [|done]. cbn [mbind option_bind] in Hrun.
  destruct (Json.get "site" (run_cfg inp)) as [site|]; [|done].
  cbn [mbind option_bind] in Hrun.
  repeat match type of Hrun with
         | (?x ≫= _) = Some _ =>
             destruct x; [cbn [mbind option_bind] in Hrun|done]
         end.
  injection Hrun as <- _. eauto.
Qed.
End MainFacts.

Section ChainTheorems.
Context {lib : PyLib}.

(** The run extends the chain from sequence [N] and previous hash
    [previous]: [main] returns a ledger with sequence [N + 1] and that
    previous hash, whose content hash is the canonical hash of the ledger
    without it, and the state file then holds the new sequence and the
    new content hash. *)
Definition chained_run (extra : list string) (inp : RunInputs)
    (files : gmap string string) (N : Z) (previous : json) : Prop :=
  exists (ledger : list (string * json)) (files' : gmap string string)
         (content_hash : string),
    main extra inp files = Some (JObj ledger, files') /\
    Json.get "ledger_sequence" ledger = Some (JInt (N + 1)) /\
    get2 "integrity" "previous_ledger_hash_sha256" (JObj ledger) = Some previous /\
    get2 "integrity" "content_hash_sha256" (JObj ledger) = Some (JStr content_hash) /\
    content_hash = canonical_json_hash (without_content_hash (JObj ledger)) /\
    files' !! run_state_path inp =
      Some (state_text [("ledger_sequence", JInt (N + 1));
                        ("last_ledger_hash", JStr content_hash)]).

Lemma chained_run_from_state (extra : list string) (inp : RunInputs)
    (files : gmap string string) (state : list (string * json)) (N : Z)
    (previous : json) :
  In "argparse" extra ->
  load_state files (run_state_path inp) = Some (JObj state) ->
  Json.get "ledger_sequence" state = Some (JInt N) ->
  Json.get "last_ledger_hash" state = Some previous ->
  run_can_finish inp files ->
  chained_run extra inp files N previous.
Proof.
  intros Harg Hload Hseq Hhash Hcfg.
  destruct (main_returns extra inp files state N Harg Hload)
    as (site & files' & Hrun & Hsaved); [by rewrite Hseq|done|].
  cbv zeta in Hrun, Hsaved. rewrite Hhash in Hrun, Hsaved. cbn [default] in *.
  pose proof (stored_hash inp site (N + 1) previous
                (canonical_json_hash (JObj (ledger_document inp site (N + 1) previous))))
    as Hst.
  cbv zeta in Hst. destruct Hst as (Hs & Hp & Hc & Hw).
  eexists _, files', _.
  split; [exact Hrun|]. split; [exact Hs|]. split; [exact Hp|]. split; [exact Hc|].
  split; [exact (f_equal canonical_json_hash (eq_sym Hw))|exact Hsaved].
Qed.

(** What [main] does from [load_state] on, in a process where a caller
    has bound [argparse] in the module: for a prior state with sequence
    [N] and last hash [previous], and a run that can finish, it returns
    a ledger with [ledger_sequence = N + 1] and
    [integrity.previous_ledger_hash_sha256 = previous], and the state
    file holds afterwards the new sequence and the new content hash.
    With no state file, the first ledger has sequence 1 and a null
    previous hash. *)
Lemma ledger_extends_chain (extra : list string) :
  In "argparse" extra ->
  (forall (inp : RunInputs) (files : gmap string string)
          (state : list (string * json)) (N : Z) (previous : json),
      load_state files (run_state_path inp) = Some (JObj state) ->
      Json.get "ledger_sequence" state = Some (JInt N) ->
      Json.get "last_ledger_hash" state = Some previous ->
      run_can_finish inp files ->
      chained_run extra inp files N previous) /\
  (forall (inp : RunInputs) (files : gmap string string),
      files !! run_state_path inp = None ->
      run_can_finish inp files ->
      chained_run extra inp files 0 JNull).
Proof.
  intros Harg. split.
  - intros inp files state N previous. by apply chained_run_from_state.
  - intros inp files Hnone Hcfg.
    apply (chained_run_from_state extra inp files
             [("ledger_sequence", JInt 0); ("last_ledger_hash", JNull)]);
      [done| |reflexivity|reflexivity|done].
    unfold load_state. by rewrite Hnone.
Qed.

(** C1.  The module never imports [argparse], which the first statement
    of [main] names: as the file stands, [main] raises a [NameError] on
    every input, before it reads the state, so that no ledger is
    assembled and no state is persisted.  A run returns only in a
    process where a caller has bound the name in the module; what it
    then does to the chain is [ledger_extends_chain]. *)
Theorem main_raises_name_error :
  (forall (inp : RunInputs) (files : gmap string string),
      main [] inp files = None) /\
  (forall (extra : list string) (inp : RunInputs) (files : gmap string string),
      is_Some (main extra inp files) -> In "argparse" extra).
Proof.
  split.
  - reflexivity.
  - intros extra inp files [result Hrun]. by eapply main_needs_argparse.
Qed.

(** C2.  [canonical_json_hash] gives the same digest for two documents
    with the same logical content, whatever the order their keys were
    inserted in; hence rehashing any document with the content of the
    finished ledger minus [content_hash_sha256] gives the stored content
    hash. *)
Theorem canonical_hash_ignores_key_order :
  (forall a b : json,
      same_content a b -> canonical_json_hash a = canonical_json_hash b) /\
  (forall (extra : list string) (inp : RunInputs)
          (files files' : gmap string string) (ledger rebuilt : json),
      main extra inp files = Some (ledger, files') ->
      same_content (without_content_hash ledger) rebuilt ->
      get2 "integrity" "content_hash_sha256" ledger
        = Some (JStr (canonical_json_hash rebuilt))).
Proof.
  assert (forall a b : json,
             same_content a b -> canonical_json_hash a = canonical_json_hash b) as Hord.
  { intros a b Hs. unfold canonical_json_hash, canonical_json.
    f_equal. by apply encode_same_content. }
  split; [exact Hord|].
  intros extra inp files files' ledger rebuilt Hrun Hsame.
  apply main_result in Hrun as (site & n & prev & ->).
  destruct (stored_hash inp site n prev
              (canonical_json_hash (JObj (ledger_document inp site n prev))))
    as (_ & _ & Hc & Hw).
  rewrite Hw in Hsame. rewrite Hc. do 2 f_equal. by apply Hord.
Qed.
End ChainTheorems.

(** ** Writing the state file *)

Section WriteFacts.
Lemma substring_all (s : string) : String.substring 0 (String.length s) s = s.
Proof. induction s as [|c s IH]; cbn; [done|by rewrite IH]. Qed.

Lemma substring_none (n : nat) (s : string) : String.substring n 0 s = EmptyString.
Proof. revert n. induction s as [|c s IH]; intros [|n]; cbn; auto. Qed.

Lemma drop_zero (s : string) : Str.drop 0 s = s.
Proof. unfold Str.drop. rewrite Nat.sub_0_r. apply substring_all. Qed.

Lemma take_drop (n : nat) (s : string) :
  String.substring 0 n s +:+ Str.drop n s = s.
Proof.
  revert n. induction s as [|c s IH]; intros [|n]; try done.
  - apply drop_zero.
  - specialize (IH n). unfold Str.drop in *.
    change (String c (String.substring 0 n s
                        +:+ String.substring n (String.length s - n) s) = String c s).
    by rewrite IH.
Qed.

Lemma drop_all (s : string) : Str.drop (String.length s) s = EmptyString.
Proof. unfold Str.drop. rewrite Nat.sub_diag. apply substring_none. Qed.

Lemma append_cons (c : ascii) (s t : string) :
  String c s +:+ t = String c (s +:+ t).
Proof. reflexivity. Qed.

Lemma append_empty_r (s : string) : s +:+ EmptyString = s.
Proof. induction s as [|c s IH]; [done|by rewrite append_cons, IH]. Qed.

Lemma append_assoc_str (a b c : string) : (a +:+ b) +:+ c = a +:+ (b +:+ c).
Proof. induction a as [|x a IH]; [done|by rewrite !append_cons, IH]. Qed.

(** What holds of every state the write passes through. *)
Definition write_inv (content : string) (w : write_state) : Prop :=
  match w with
  | NotOpened => True
  | Opened on_disk pending => on_disk +:+ pending = content
  | Closed on_disk => on_disk = content
  end.

Lemma write_step_inv (content : string) (w w' : write_state) :
  write_inv content w -> write_step content w w' -> write_inv content w'.
Proof.
  intros Hinv Hstep. destruct Hstep as [|d p n Hn|d]; cbn in *.
  - done.
  - by rewrite append_assoc_str, take_drop.
  - by rewrite append_empty_r in Hinv.
Qed.

Lemma write_reaches_inv (content : string) (w : write_state) :
  write_reaches content w -> write_inv content w.
Proof.
  unfold write_reaches. revert w. apply rtc_ind_r; [done|].
  intros w w' _ Hstep IH. by eapply write_step_inv.
Qed.

Lemma write_completes (content : string) :
  write_reaches content (Closed content).
Proof.
  unfold write_reaches.
  eapply rtc_l; [apply ws_open|].
  destruct content as [|c s] eqn:E.
  - apply rtc_once. apply ws_close.
  - rewrite <- E. eapply rtc_l.
    + apply (ws_write content EmptyString content (String.length content)).
      subst content. cbn. lia.
    + rewrite substring_all, drop_all. cbn. apply rtc_once. apply ws_close.
Qed.
End WriteFacts.

Section SaveTheorems.
Context {lib : PyLib}.

(** C8, amended.  [save_state] rewrites the state file in place.  Once it
    has returned the file holds the complete new record; on the way the
    file is first emptied by [open(path, "w")] and then holds a prefix of
    the new record, so it is the old state only before the open and the
    complete new state only after the last write. *)
Theorem save_state_overwrites_in_place (files files' : gmap string string)
    (path : string) (state : list (string * json)) :
  save_state files path state = Some files' ->
  files' !! path = Some (state_text state) /\
  write_reaches (state_text state) (Closed (state_text state)) /\
  write_reaches (state_text state) (Opened EmptyString (state_text state)) /\
  (forall w : write_state,
      write_reaches (state_text state) w ->
      match w with
      | NotOpened => file_content (files !! path) w = files !! path
      | Opened on_disk pending => on_disk +:+ pending = state_text state
      | Closed on_disk => on_disk = state_text state
      end).
Proof.
  unfold save_state. intros Hsave.
  destruct (makedirs (dom files) (dirname path)); [|done].
  cbn [mbind option_bind] in Hsave. apply write_file_result in Hsave as ->.
  split; [apply lookup_insert_eq|]. split; [apply write_completes|].
  split; [apply rtc_once, ws_open|].
  intros w Hw. apply write_reaches_inv in Hw. by destruct w.
Qed.
End SaveTheorems.

(** ** Ingestion statistics *)

Definition is_dropped (o : row_outcome) : bool :=
  match o with RowDropped => true | _ => false end.

Section RowTheorems.
Context {lib : PyLib}.
Variables col_ts col_ip col_ua col_path col_host : string.
Variables col_method col_status : option string.

Let row_of := load_row col_ts col_ip col_ua col_path col_host col_method col_status.
Let step := load_rows_step col_ts col_ip col_ua col_path col_host col_method col_status.

Lemma load_rows_fold (headers : gmap string string) (reader : list csv_row)
    (rows : list LogRow) (total skipped : nat) :
  let '(rows', total', skipped') := fold_left (step headers) reader (rows, total, skipped) in
  total' = total + length reader /\
  length rows' + skipped'
    + length (List.filter (fun r => is_dropped (row_of headers r)) reader)
    = length rows + skipped + length reader.
Proof.
  revert rows total skipped.
  induction reader as [|r reader IH]; intros rows total skipped.
  - cbn. lia.
  - cbn [fold_left]. unfold step at 2, load_rows_step. fold (row_of headers r).
    cbn [List.filter].
    destruct (row_of headers r) as [row| |] eqn:E; cbn [is_dropped].
    + specialize (IH (rows ++ [row]) (S total) skipped).
      destruct (fold_left _ _ _) as [[rows' total'] skipped'].
      rewrite length_app in IH. cbn in *. lia.
    + specialize (IH rows (S total) skipped).
      destruct (fold_left _ _ _) as [[rows' total'] skipped'].
      cbn in *. lia.
    + specialize (IH rows (S total) (S skipped)).
      destruct (fold_left _ _ _) as [[rows' total'] skipped'].
      cbn in *. lia.
Qed.

(** What [load_rows] records, for every header and rows: the total
    exceeds loaded plus skipped by the rows whose timestamp parses and
    whose path is empty. *)
Lemma load_rows_accounting (fieldnames : list string) (reader : list csv_row) :
  let st := (load_rows col_ts col_ip col_ua col_path col_host col_method col_status
               fieldnames reader).2 in
  rows_total st = length reader /\
  rows_total st =
    rows_loaded st + rows_skipped st
    + length (List.filter
                (fun r => is_dropped (row_of (header_map fieldnames) r)) reader).
Proof.
  unfold load_rows.
  pose proof (load_rows_fold (header_map fieldnames) reader [] 0 0) as Hf.
  unfold step in Hf.
  destruct (fold_left _ reader _) as [[rows total] skipped].
  cbn [snd rows_total rows_loaded rows_skipped].
  rewrite (Permutation_length (sort_by_Permutation _ _ rows)).
  cbn in Hf. lia.
Qed.

(** C7, at the failing input.  A CSV with one row whose timestamp parses
    and whose path is empty: the row is counted in [rows_total] and neither
    loaded nor skipped, so [rows_total = 1] and
    [rows_loaded + rows_skipped = 0]. *)
Theorem load_rows_drops_empty_path_uncounted (fieldnames : list string)
    (r : csv_row) (t : datetime) :
  parse_ts (_get_case_insensitive r (header_map fieldnames) col_ts) = Some t ->
  normalize_path (_get_case_insensitive r (header_map fieldnames) col_path)
    = EmptyString ->
  load_rows col_ts col_ip col_ua col_path col_host col_method col_status
    fieldnames [r]
    = ([], {| rows_total := 1; rows_loaded := 0; rows_skipped := 0 |}) /\
  rows_total {| rows_total := 1; rows_loaded := 0; rows_skipped := 0 |}
    <> rows_loaded {| rows_total := 1; rows_loaded := 0; rows_skipped := 0 |}
       + rows_skipped {| rows_total := 1; rows_loaded := 0; rows_skipped := 0 |}.
Proof.
  intros Hts Hpath. split; [|cbn; lia].
  unfold load_rows. cbn [fold_left]. unfold load_rows_step, load_row.
  rewrite Hts, Hpath. reflexivity.
Qed.
End RowTheorems.

Section NdjsonTheorems.
Context {lib : PyLib}.
Variables key_ts key_ip key_ua key_path key_host : string.
Variables key_method key_status : option string.

(** The NDJSON loader keeps the balance: every counted line is loaded
    or skipped. *)
Lemma load_rows_ndjson_balanced (stats_in : IngestStats) (lines : list string) :
  let st := (load_rows_ndjson key_ts key_ip key_ua key_path key_host
               key_method key_status stats_in lines).2 in
  rows_total st + rows_loaded stats_in + rows_skipped stats_in
    = rows_total stats_in + rows_loaded st + rows_skipped st.
Proof.
  cbv zeta. unfold load_rows_ndjson. generalize (@nil LogRow) as rows. revert stats_in.
  induction lines as [|line lines IH]; intros st rows; [cbn; lia|].
  cbn [fold_left]. unfold load_ndjson_step at 2 4 6.
  destruct (Str.strip line) as [|c l]; [apply IH|].
  destruct (load_line _ _ _ _ _ _ _ _) as [row|].
  - pose proof (IH (mkStats (S (rows_total st)) (S (rows_loaded st)) (rows_skipped st))
                   (rows ++ [row])) as E.
    cbn [rows_total rows_loaded rows_skipped] in E. lia.
  - pose proof (IH (mkStats (S (rows_total st)) (rows_loaded st) (S (rows_skipped st)))
                   rows) as E.
    cbn [rows_total rows_loaded rows_skipped] in E. lia.
Qed.
End NdjsonTheorems.

(** ** The loop of [normalize_path] runs to its end

    [while "//" in u: u = u.replace("//", "/")] shortens [u] on every pass,
    so the fuel the model gives it, the length of [u], is never used up:
    the result has no doubled slash left. *)

Section CollapseFacts.
Lemma contains_cons (sub : string) (c : ascii) (t : string) :
  Str.contains sub (String c t) = String.prefix sub (String c t) || Str.contains sub t.
Proof.
  unfold Str.contains. cbn [String.index].
  destruct (String.prefix sub (String c t)); [done|].
  by destruct (String.index 0 sub t).
Qed.

Lemma prefix_slashes (s : string) :
  String.prefix "//" s = true -> exists t, s = String "/" (String "/" t).
Proof.
  intros H%String.prefix_correct.
  destruct s as [|a [|b t]]; cbn in H; try discriminate H.
  injection H as -> ->. by exists t.
Qed.

Lemma drop_two (a b : ascii) (t : string) : Str.drop 2 (String a (String b t)) = t.
Proof. unfold Str.drop. cbn. rewrite Nat.sub_0_r. apply substring_all. Qed.

Lemma append_length (a b : string) :
  String.length (a +:+ b) = String.length a + String.length b.
Proof. induction a as [|c a IH]; [done|]. rewrite append_cons. cbn. by rewrite IH. Qed.

Lemma replace_fuel_length (fuel : nat) (s : string) :
  String.length (Str.replace_fuel fuel "//" "/" s) <= String.length s.
Proof.
  revert s. induction fuel as [|fuel IH]; intros s; [done|].
  destruct s as [|c t]; [done|]. cbn [Str.replace_fuel].
  destruct (String.prefix "//" (String c t)) eqn:E.
  - apply prefix_slashes in E as [t' [= -> ->]].
    change (String.length "//") with 2. rewrite drop_two, append_length.
    specialize (IH t'). cbn. lia.
  - specialize (IH t). cbn. lia.
Qed.

Lemma replace_fuel_shrinks (fuel : nat) (s : string) :
  String.length s <= fuel -> Str.contains "//" s = true ->
  String.length (Str.replace_fuel fuel "//" "/" s) < String.length s.
Proof.
  revert s. induction fuel as [|fuel IH]; intros s Hf Hc.
  - destruct s; [done|cbn in Hf; lia].
  - destruct s as [|c t]; [done|]. cbn [Str.replace_fuel].
    rewrite contains_cons in Hc.
    destruct (String.prefix "//" (String c t)) eqn:E.
    + apply prefix_slashes in E as [t' [= -> ->]].
      change (String.length "//") with 2. rewrite drop_two, append_length.
      pose proof (replace_fuel_length fuel t'). cbn. lia.
    + cbn in Hc, Hf. specialize (IH t ltac:(lia) Hc). cbn. lia.
Qed.

Lemma collapse_slashes_done (fuel : nat) (u : string) :
  String.length u <= fuel ->
  Str.contains "//" (collapse_slashes fuel u) = false.
Proof.
  revert u. induction fuel as [|fuel IH]; intros u Hf.
  - destruct u; [done|cbn in Hf; lia].
  - cbn [collapse_slashes].
    destruct (Str.contains "//" u) eqn:E; [|done].
    apply IH. unfold Str.replace.
    pose proof (replace_fuel_shrinks (String.length u) u ltac:(lia) E). lia.
Qed.

Lemma normalize_path_collapsed (uri : option string) :
  Str.contains "//" (normalize_path uri) = false.
Proof.
  unfold normalize_path.
  destruct (Str.strip (default EmptyString uri)) as [|c t]; [done|].
  by apply collapse_slashes_done.
Qed.
End CollapseFacts.

(** The repository's own examples of [normalize_path]. *)
Example normalize_path_examples :
  normalize_path (Some "https://example.com/.well-known/q-ledger.json?x=1")
    = "/.well-known/q-ledger.json" /\
  normalize_path (Some "/.well-known/q-ledger.json#frag")
    = "/.well-known/q-ledger.json" /\
  normalize_path (Some "https://x.com/.well-known/q-ledger.json?x=1#y")
    = "/.well-known/q-ledger.json" /\
  normalize_path (Some " a//b///c ") = "/a/b/c" /\
  normalize_path None = EmptyString.
Proof. repeat split; vm_compute; reflexivity. Qed.

(** ** [subsequence_match] decides the ordered-subsequence relation *)

Section SubsequenceFacts.
Lemma subsequence_match_from_spec (expected : list string) (seq : list string) :
  forall j : nat,
    j < length expected ->
    subsequence_match_from expected j seq = true <-> sublist (drop j expected) seq.
Proof.
  induction seq as [|c rest IH]; intros j Hj.
  - cbn. split; [done|]. intros Hs%sublist_nil_r.
    apply (f_equal length) in Hs. rewrite length_drop in Hs. cbn in Hs. lia.
  - cbn [subsequence_match_from].
    destruct (lookup_lt_is_Some_2 expected j Hj) as [e He]. rewrite He.
    rewrite (drop_S _ _ _ He).
    destruct (String.eqb_spec c e) as [->|Hne].
    + destruct (Nat.eqb_spec (S j) (length expected)) as [Hlast|Hmore].
      * rewrite drop_ge by lia. split; [intros _|done].
        apply sublist_skip, sublist_nil_l.
      * rewrite IH by lia. split.
        -- apply sublist_skip.
        -- intros Hs%sublist_cons_r.
           destruct Hs as [Hs|(l' & [= <-] & Hs)]; [|done].
           etrans; [|exact Hs]. by apply sublist_cons.
    + rewrite IH by lia. rewrite <- (drop_S _ _ _ He). rewrite (drop_S _ _ _ He).
      split.
      * apply sublist_cons.
      * intros Hs%sublist_cons_r.
        destruct Hs as [Hs|(l' & [= ?] & Hs)]; [done|congruence].
Qed.

Lemma subsequence_match_spec (seq expected : list string) :
  subsequence_match seq expected = true <-> sublist expected seq.
Proof.
  unfold subsequence_match. destruct expected as [|e expected].
  - split; [intros _; apply sublist_nil_l|done].
  - rewrite subsequence_match_from_spec by (cbn; lia). done.
Qed.
End SubsequenceFacts.

(** ** What the loops of [compute_q_metrics] count *)

(** The session's normalized categories, with [canon] read as
    [constraints]: the list every check of the second pass looks at. *)
Definition checked_categories (exact_map : gmap string string) (s : Session)
    : list string :=
  map_canon_to_constraints_for_checks (session_categories exact_map s).

(** The session enters the denominator: it has a category besides
    [other]. *)
Definition counted (exact_map : gmap string string) (s : Session) : bool :=
  match session_categories exact_map s with [] => false | _ => true end.

Definition scope_exact_map (scope : option Scope) : gmap string string :=
  match scope with
  | Some sc => build_exact_path_to_category sc
  | None => ∅
  end.

(** The pattern for the whole ledger: the declared one when there is one
    and [content] was seen, the governance-only one otherwise. *)
Definition ledger_pattern (sessions : list Session) (scope : option Scope)
    : list string :=
  match (compute_expected_patterns scope).1 with
  | [] => expected_pattern_governance_only
  | declared =>
      if observed_any_content (scope_exact_map scope) sessions
      then declared else expected_pattern_governance_only
  end.

Section CountFacts.
Variable full : list string.
Variable content : bool.
Variable exact_map : gmap string string.

Let pattern : list string :=
  if (match full with [] => false | _ => content end) then full
  else expected_pattern_governance_only.

Let declared : bool := match full with [] => false | _ => content end.

Let matches (s : Session) : bool :=
  counted exact_map s && subsequence_match (checked_categories exact_map s) pattern.

Lemma count_session_fields (c : Counters) (s : Session) :
  let c' := count_session full content exact_map c s in
  total c' = bump (counted exact_map s) (total c) /\
  seq_match c' = bump (matches s) (seq_match c) /\
  used_pattern c' = (if counted exact_map s then Some pattern else used_pattern c) /\
  governance_only_mode c' =
    (if counted exact_map s
     then (if declared then governance_only_mode c else true)
     else governance_only_mode c).
Proof.
  unfold matches, counted, checked_categories, count_session.
  destruct (session_categories exact_map s) as [|c0 cats]; cbn; [done|].
  repeat split.
Qed.

Lemma filter_length_cons {A : Type} (f : A -> bool) (x : A) (l : list A) :
  length (List.filter f (x :: l)) = bump (f x) (length (List.filter f l)).
Proof. cbn. by destruct (f x). Qed.

Lemma count_session_fold (sessions : list Session) (c : Counters) :
  let m := fold_left (count_session full content exact_map) sessions c in
  let n := length (List.filter (counted exact_map) sessions) in
  total m = total c + n /\
  seq_match m = seq_match c + length (List.filter matches sessions) /\
  used_pattern m = (if (n =? 0)%nat then used_pattern c else Some pattern) /\
  governance_only_mode m =
    (if (n =? 0)%nat then governance_only_mode c
     else if declared then governance_only_mode c else true).
Proof.
  revert c. induction sessions as [|s sessions IH]; intros c.
  - cbn. repeat split; lia.
  - cbn [fold_left]. specialize (IH (count_session full content exact_map c s)).
    cbv zeta in IH |- *. destruct IH as (Ht & Hs & Hu & Hg).
    destruct (count_session_fields c s) as (Ft & Fs & Fu & Fg).
    rewrite Ht, Hs, Hu, Hg, Ft, Fs, Fu, Fg, !filter_length_cons.
    clear Ht Hs Hu Hg Ft Fs Fu Fg.
    destruct (counted exact_map s), (matches s),
      (length (List.filter (counted exact_map) sessions)) as [|n'];
      cbn [bump Nat.eqb]; (repeat split; try lia); by destruct declared.
Qed.
End CountFacts.

(** The categories [build_category_map] can assign. *)
Definition governance_categories : list string :=
  ["entrypoint"; "policy"; "q_layer"; "canon"; "constraints"; "discovery";
   "ontology"; "index"; "observation"; "traceability"; "reporting"].

Section CategoryFacts.
Definition values_in (allowed : list string) (m : gmap string string) : Prop :=
  forall p c, m !! p = Some c -> In c allowed.

Lemma add_paths_values (allowed paths : list string) (cat : string)
    (m : gmap string string) :
  In cat allowed -> values_in allowed m -> values_in allowed (add_paths paths cat m).
Proof.
  intros Hcat. unfold add_paths. revert m.
  induction paths as [|p paths IH]; intros m Hm; [done|].
  cbn [fold_left]. apply IH. destruct p as [|a p]; [done|].
  intros q c. destruct (decide (String a p = q)) as [<-|Hne].
  - rewrite lookup_insert_eq. by intros [= <-].
  - rewrite lookup_insert_ne by done. apply Hm.
Qed.

Lemma add_layer_values (allowed paths : list string) (cat : string)
    (m : gmap string string) :
  In cat allowed -> values_in allowed m -> values_in allowed (add_layer paths cat m).
Proof.
  intros Hcat. unfold add_layer. revert m.
  induction paths as [|p paths IH]; intros m Hm; [done|].
  cbn [fold_left]. apply IH.
  intros q c. destruct (decide (p = q)) as [<-|Hne].
  - rewrite lookup_insert_eq. by intros [= <-].
  - rewrite lookup_insert_ne by done. apply Hm.
Qed.

Lemma table_categories (kc : string * string) :
  In kc category_table -> In kc.2 governance_categories.
Proof.
  cbn. intros Hin.
  repeat (destruct Hin as [<-|Hin]; [cbn; tauto|]). done.
Qed.

Lemma build_category_map_values (layers : gmap string (list string)) :
  values_in governance_categories (build_category_map layers).
Proof.
  unfold build_category_map.
  assert (forall table m,
             (forall kc, In kc table -> In kc.2 governance_categories) ->
             values_in governance_categories m ->
             values_in governance_categories
               (fold_left (fun m kc => add_paths (default [] (layers !! kc.1)) kc.2 m)
                          table m)) as Hfold.
  { induction table as [|kc table IH]; intros m Hall Hm; [done|].
    cbn [fold_left]. apply IH; [by intros; apply Hall; right|].
    apply add_paths_values; [apply Hall; by left|done]. }
  apply Hfold; [apply table_categories|]. intros p c. by rewrite lookup_empty.
Qed.

Lemma build_exact_path_to_category_values (scope : Scope) :
  values_in governance_categories (build_exact_path_to_category scope).
Proof.
  unfold build_exact_path_to_category.
  assert (forall table m,
             (forall kc, In kc table -> In kc.2 governance_categories) ->
             values_in governance_categories m ->
             values_in governance_categories
               (fold_left (fun m kc =>
                             add_layer (default [] (scope_layers scope !! kc.1)) kc.2 m)
                          table m)) as Hfold.
  { induction table as [|kc table IH]; intros m Hall Hm; [done|].
    cbn [fold_left]. apply IH; [by intros; apply Hall; right|].
    apply add_layer_values; [apply Hall; by left|done]. }
  apply Hfold; [apply table_categories|]. intros p c. by rewrite lookup_empty.
Qed.

Lemma lookup_category (m : gmap string string) (p : string) :
  values_in governance_categories m ->
  In (default "other" (m !! p)) ("other" :: governance_categories).
Proof.
  intros Hm. destruct (m !! p) as [c|] eqn:E; [right; by eapply Hm|by left].
Qed.

Lemma compress_consecutive_subset (items : list string) (x : string) :
  In x (compress_consecutive items) -> In x items.
Proof.
  unfold compress_consecutive.
  assert (forall out, In x (fold_left
            (fun out y => match last out with
                          | Some z => if String.eqb z y then out else out ++ [y]
                          | None => out ++ [y]
                          end) items out) -> In x out \/ In x items) as Hfold.
  { induction items as [|y items IH]; intros out; cbn [fold_left]; [by left|].
    intros [Hin|Hin]%IH; [|by right; right].
    destruct (last out) as [z|]; [destruct (String.eqb z y)|]; auto;
      apply in_app_or in Hin as [?|[<-|[]]]; auto; right; by left. }
  intros [[]|Hin]%Hfold. done.
Qed.

Lemma normalize_subset (cats : list string) (x : string) :
  In x (normalize_categories_for_metrics cats) -> In x cats.
Proof.
  unfold normalize_categories_for_metrics.
  intros Hin%compress_consecutive_subset. by apply filter_In in Hin as [? _].
Qed.

Lemma str_in_In (x : string) (l : list string) : str_in x l = true <-> In x l.
Proof.
  unfold str_in. rewrite existsb_exists. split.
  - intros (y & Hy & ->%String.eqb_eq). done.
  - intros Hin. exists x. split; [done|]. by apply String.eqb_eq.
Qed.

(** A session none of whose categories is [content]. *)
Definition content_free (s : Session) : Prop := ~ In "content" (path_categories s).

Lemma session_categories_content_free (exact_map : gmap string string) (s : Session) :
  values_in governance_categories exact_map -> content_free s ->
  str_in "content" (session_categories exact_map s) = false.
Proof.
  intros Hm Hs. apply not_true_is_false. rewrite str_in_In.
  unfold session_categories. intros Hin%normalize_subset.
  destruct (path_categories s) as [|c cats] eqn:E.
  - apply in_map_iff in Hin as (p & Hp & _).
    pose proof (lookup_category exact_map p Hm) as Hc.
    unfold classify_path_with_scope in Hp. rewrite Hp in Hc.
    cbn in Hc. repeat (destruct Hc as [[=]|Hc]). done.
  - unfold content_free in Hs. by rewrite E in Hs.
Qed.

Lemma observed_any_content_free (exact_map : gmap string string)
    (sessions : list Session) :
  values_in governance_categories exact_map ->
  Forall content_free sessions ->
  observed_any_content exact_map sessions = false.
Proof.
  intros Hm Hall. unfold observed_any_content.
  apply not_true_is_false. rewrite existsb_exists. intros (s & Hin & Hs).
  rewrite List.Forall_forall in Hall.
  by rewrite (session_categories_content_free _ _ Hm (Hall _ Hin)) in Hs.
Qed.

Lemma scope_exact_map_values (scope : option Scope) :
  values_in governance_categories (scope_exact_map scope).
Proof.
  destruct scope as [sc|]; cbn.
  - apply build_exact_path_to_category_values.
  - intros p c. by rewrite lookup_empty.
Qed.

Lemma classified_content_free (layers : gmap string (list string)) (s : Session) :
  path_categories s = map (classify (build_category_map layers)) (s_path s) ->
  content_free s.
Proof.
  intros E Hin. unfold content_free in *. rewrite E in Hin.
  apply in_map_iff in Hin as (p & Hp & _).
  pose proof (lookup_category (build_category_map layers) p
                (build_category_map_values layers)) as Hc.
  unfold classify in Hp. rewrite Hp in Hc.
  cbn in Hc. repeat (destruct Hc as [[=]|Hc]). done.
Qed.
End CategoryFacts.

Section MetricsTheorems.

Lemma compute_q_metrics_counts (sessions : list Session) (scope : option Scope) :
  let exact_map := scope_exact_map scope in
  let pattern := ledger_pattern sessions scope in
  let m := compute_q_metrics sessions scope in
  total m = length (List.filter (counted exact_map) sessions) /\
  seq_match m =
    length (List.filter
              (fun s => counted exact_map s &&
                        subsequence_match (checked_categories exact_map s) pattern)
              sessions) /\
  used_pattern m = (if (total m =? 0)%nat then None else Some pattern) /\
  governance_only_mode m =
    negb (total m =? 0)%nat &&
    negb (match (compute_expected_patterns scope).1 with
          | [] => false
          | _ => observed_any_content exact_map sessions
          end).
Proof.
  cbv zeta. unfold compute_q_metrics. fold (scope_exact_map scope).
  destruct (count_session_fold (compute_expected_patterns scope).1
              (observed_any_content (scope_exact_map scope) sessions)
              (scope_exact_map scope) sessions (mkCounters 0 0 0 0 0 false None))
    as (Ht & Hs & Hu & Hg).
  cbn [total seq_match used_pattern governance_only_mode] in Ht, Hs, Hu, Hg.
  rewrite Ht, Hs, Hu, Hg. clear Ht Hs Hu Hg. cbn [Nat.add].
  assert (ledger_pattern sessions scope =
          if match (compute_expected_patterns scope).1 with
             | [] => false
             | _ => observed_any_content (scope_exact_map scope) sessions
             end
          then (compute_expected_patterns scope).1
          else expected_pattern_governance_only) as ->.
  { unfold ledger_pattern. by destruct (compute_expected_patterns scope).1. }
  repeat split.
  destruct (length _ =? 0)%nat; [done|]. cbn [negb andb].
  by destruct (match (compute_expected_patterns scope).1 with
               | [] => false | _ => _ end).
Qed.




(** C10.  [build_category_map] never assigns [content]: a path gets one
    of the eleven governance categories, or [other] when it is not in the
    map.  So for a ledger whose sessions carry categories made with
    [build_category_map], as those of [infer_sessions] do, the scan finds
    no [content] and sequence fidelity is computed against the
    governance-only pattern, never the declared one. *)
Theorem category_map_never_yields_content :
  (forall (layers : gmap string (list string)) (p : string),
      build_category_map layers !! p <> Some "content" /\
      In (classify (build_category_map layers) p)
         ("other" :: governance_categories)) /\
  (forall (sessions : list Session) (scope : option Scope),
      Forall (fun s => exists layers,
                  path_categories s
                    = map (classify (build_category_map layers)) (s_path s))
             sessions ->
      let m := compute_q_metrics sessions scope in
      observed_any_content (scope_exact_map scope) sessions = false /\
      ledger_pattern sessions scope = ["entrypoint"; "constraints"; "ontology"] /\
      used_pattern m =
        (if (total m =? 0)%nat then None
         else Some ["entrypoint"; "constraints"; "ontology"]) /\
      governance_only_mode m = negb (total m =? 0)%nat /\
      seq_match m =
        length (List.filter
                  (fun s => counted (scope_exact_map scope) s &&
                            subsequence_match
                              (checked_categories (scope_exact_map scope) s)
                              ["entrypoint"; "constraints"; "ontology"])
                  sessions)) /\
  (forall (lib : PyLib) (rows : list LogRow) (site_host salt : string)
          (gap_minutes : Z) (gov : list string)
          (layers : gmap string (list string)) (sessions : list Session),
      infer_sessions rows site_host salt gap_minutes gov (build_category_map layers)
        = Some sessions ->
      Forall (fun s => path_categories s
                         = map (classify (build_category_map layers)) (s_path s))
             sessions).
Proof.
  split; [|split].
  - intros layers p. split.
    + intros Hc. apply build_category_map_values in Hc.
      cbn in Hc. repeat (destruct Hc as [[=]|Hc]). done.
    + apply lookup_category, build_category_map_values.
  - intros sessions scope Hall. cbv zeta.
    assert (observed_any_content (scope_exact_map scope) sessions = false) as Hobs.
    { apply observed_any_content_free; [apply scope_exact_map_values|].
      eapply Forall_impl; [exact Hall|].
      intros s [layers Hs]. by eapply classified_content_free. }
    assert (ledger_pattern sessions scope = ["entrypoint"; "constraints"; "ontology"])
      as Hpat.
    { unfold ledger_pattern. rewrite Hobs.
      by destruct (compute_expected_patterns scope).1. }
    destruct (compute_q_metrics_counts sessions scope) as (Ht & Hs & Hu & Hg).
    rewrite Hpat in Hs, Hu. rewrite Hobs in Hg.
    split; [done|]. split; [done|]. split; [done|]. split; [|done].
    rewrite Hg. destruct (compute_expected_patterns scope).1;
      by rewrite andb_true_r.
  - intros lib rows site_host salt gap_minutes gov layers sessions Hrun.
    apply List.Forall_forall. intros s Hin.
    destruct (infer_sessions_elem _ _ _ _ _ _ _ _ Hrun Hin) as (fp & chunk & Hs).
    apply flush_elem in Hs as (_ & Hp & Hc & _). by rewrite Hc, Hp.
Qed.
End MetricsTheorems.

(** ** Concrete runs

    A small implementation of [PyLib] to run the model on concrete inputs:
    the theorems above hold for every implementation, this one only picks
    inputs.  Its [json_loads] reads back one state file. *)

Definition prior_state : list (string * json) :=
  [("ledger_sequence", JInt 7); ("last_ledger_hash", JStr "feed")].

Definition base_lib : PyLib := {|
  sha256_hex := fun s => s;
  isoformat := fun d => pretty (dt_wall d) +:+ "+00:00";
  fromisoformat := fun _ => None;
  fromtimestamp_ms := fun n => Some (DateTime (n * 1000) 0);
  float_repr := fun _ => "0.0";
  yaml_safe_dump := fun _ => EmptyString;
  json_loads := fun _ => None;
  int_of_str := fun _ => None;
  container_str := fun _ => EmptyString;
  os_makedirs_ok := fun _ => true;
  os_open_w_ok := fun _ => true;
|}.

(** The state file a run leaves behind for [prior_state]. *)
Definition prior_text : string :=
  Eval vm_compute in state_text (lib := base_lib) prior_state.

Definition stub_lib : PyLib := {|
  sha256_hex := sha256_hex (PyLib := base_lib);
  isoformat := isoformat (PyLib := base_lib);
  fromisoformat := fromisoformat (PyLib := base_lib);
  fromtimestamp_ms := fromtimestamp_ms (PyLib := base_lib);
  float_repr := float_repr (PyLib := base_lib);
  yaml_safe_dump := yaml_safe_dump (PyLib := base_lib);
  json_loads := fun text =>
    if String.eqb text prior_text then Some (JObj prior_state) else None;
  int_of_str := int_of_str (PyLib := base_lib);
  container_str := container_str (PyLib := base_lib);
  os_makedirs_ok := os_makedirs_ok (PyLib := base_lib);
  os_open_w_ok := os_open_w_ok (PyLib := base_lib);
|}.

Definition request (minute : Z) (p : string) : LogRow :=
  mkLogRow (DateTime (minute * 60000000) 0) "1.2.3.4" "ua" p "example.com" "GET"
           (StatusStr "200").

Definition ledger_path : string := "/.well-known/q-ledger.json".

Lemma single_request_session_is_low_witness :
  exists s : Session,
    infer_sessions (lib := stub_lib) [request 0 ledger_path] "example.com" "test-salt" 30
      [ledger_path] ∅ = Some [s] /\
    (confidence s <=? 0.55)%float = true /\ confidence_level s = "low".
Proof.
  eexists. split; [vm_compute; reflexivity|].
  eapply (single_request_session_is_low (lib := stub_lib)
            [request 0 ledger_path] "example.com" "test-salt" 30 [ledger_path] ∅).
  - vm_compute. reflexivity.
  - left. reflexivity.
  - reflexivity.
Defined.

Lemma confidence_in_closed_interval_witness :
  exists s : Session,
    infer_sessions (lib := stub_lib) [request 0 ledger_path; request 30 "/x.yml"]
      "example.com" "test-salt" 30 [] ∅ = Some [s] /\
    (0.05 <=? confidence s)%float = true /\ (confidence s <=? 0.95)%float = true /\
    exists clamped : float,
      confidence s = Py.round2 clamped /\
      (0.05 <=? clamped)%float = true /\ (clamped <=? 0.95)%float = true.
Proof.
  eexists. split; [vm_compute; reflexivity|].
  eapply (confidence_in_closed_interval (lib := stub_lib)
            [request 0 ledger_path; request 30 "/x.yml"] "example.com" "test-salt" 30 [] ∅).
  - vm_compute. reflexivity.
  - left. reflexivity.
Defined.

Lemma new_session_iff_gap_exceeded_witness :
  (exists sessions : list Session,
      infer_sessions (lib := stub_lib) [request 30 "/b"; request 0 ledger_path]
        "example.com" "test-salt" 30 [] ∅ = Some sessions /\
      map s_path sessions = [[ledger_path; "/b"]]) /\
  (exists sessions : list Session,
      infer_sessions (lib := stub_lib) [request 31 "/b"; request 0 ledger_path]
        "example.com" "test-salt" 30 [] ∅ = Some sessions /\
      map s_path sessions ≡ₚ [[ledger_path]; ["/b"]]) /\
  exists s1 s2,
    infer_sessions (lib := stub_lib) [request 0 ledger_path; request 45 "/b"]
      "example.com" "test-salt" 30 [] ∅ = Some [s1; s2] /\
    length (s_path s1) = 1 /\ length (s_path s2) = 1.
Proof.
  split; [|split].
  - apply (proj1 (proj2 (new_session_iff_gap_exceeded (lib := stub_lib)))
             (request 0 ledger_path) (request 30 "/b")
             [request 30 "/b"; request 0 ledger_path]
             "example.com" "test-salt" 30%Z 1800000000%Z [] ∅).
    + reflexivity.
    + reflexivity.
    + right. split; reflexivity.
    + right. split; [reflexivity|]. vm_compute. reflexivity.
    + vm_compute. reflexivity.
  - apply (proj1 (proj2 (new_session_iff_gap_exceeded (lib := stub_lib)))
             (request 0 ledger_path) (request 31 "/b")
             [request 31 "/b"; request 0 ledger_path]
             "example.com" "test-salt" 30%Z 1800000000%Z [] ∅).
    + reflexivity.
    + reflexivity.
    + right. split; reflexivity.
    + right. split; [reflexivity|]. vm_compute. reflexivity.
    + vm_compute. reflexivity.
  - apply (proj2 (proj2 (new_session_iff_gap_exceeded (lib := stub_lib)))
             (request 0 ledger_path) (request 45 "/b") "example.com" "test-salt" [] ∅).
    + reflexivity.
    + reflexivity.
    + right. split; reflexivity.
    + vm_compute. reflexivity.
Defined.

Lemma sessions_sorted_nonempty_deterministic_witness :
  exists sessions,
    infer_sessions (lib := stub_lib)
      [request 50 "/b"; request 0 ledger_path; request 10 "/a.yml"]
      "example.com" "test-salt" 30 [ledger_path] ∅ = Some sessions /\
    StronglySorted (fun a b => String.leb (window_start a) (window_start b) = true)
      sessions /\
    Forall (fun s => s_path s <> [] /\
                     exists first,
                       opens (lib := stub_lib) "example.com"
                         [request 50 "/b"; request 0 ledger_path; request 10 "/a.yml"]
                         s first) sessions.
Proof.
  destruct (sessions_sorted_nonempty_deterministic (lib := stub_lib)
              [request 50 "/b"; request 0 ledger_path; request 10 "/a.yml"]
              "example.com" "test-salt" 30%Z 1800000000%Z [ledger_path] ∅)
    as (sessions & Hrun & Hsorted & Hopen & _); [vm_compute; reflexivity|].
  exists sessions. split; [exact Hrun|]. split; [exact Hsorted|exact Hopen].
Defined.

(** ** The order of the sessions is not the order of their starts *)

(** [datetime.isoformat] of an aware datetime, [dt_wall] counting the
    microseconds of the wall clock since 1970-01-01T00:00:00: the date,
    [T], the time, the microseconds when they are not zero, and the
    offset. *)
Definition pad (width : nat) (n : Z) : string :=
  let digits := pretty (Z.to_N n) in
  String.concat EmptyString (repeat "0" (width - String.length digits)) +:+ digits.

(** Days since 1970-01-01 to year, month and day of the proleptic
    Gregorian calendar. *)
Definition civil_from_days (days : Z) : Z * Z * Z :=
  let z := (days + 719468)%Z in
  let era := (z / 146097)%Z in
  let doe := (z - era * 146097)%Z in
  let yoe := ((doe - doe / 1460 + doe / 36524 - doe / 146096) / 365)%Z in
  let doy := (doe - (365 * yoe + yoe / 4 - yoe / 100))%Z in
  let mp := ((5 * doy + 2) / 153)%Z in
  let d := (doy - (153 * mp + 2) / 5 + 1)%Z in
  let m := (if (mp <? 10)%Z then mp + 3 else mp - 9)%Z in
  let y := (yoe + era * 400 + (if (m <=? 2)%Z then 1 else 0))%Z in
  (y, m, d).

Definition clock_text (us : Z) : string :=
  let seconds := (us / 1000000)%Z in
  pad 2 (seconds / 3600) +:+ ":" +:+ pad 2 (seconds / 60 mod 60) +:+ ":"
  +:+ pad 2 (seconds mod 60)
  +:+ (if (us mod 1000000 =? 0)%Z then EmptyString
       else "." +:+ pad 6 (us mod 1000000)).

Definition offset_text (offset : Z) : string :=
  let a := Z.abs offset in
  (if (offset <? 0)%Z then "-" else "+")
  +:+ pad 2 (a / 3600000000) +:+ ":" +:+ pad 2 (a / 60000000 mod 60)
  +:+ (if (a mod 60000000 =? 0)%Z then EmptyString
       else ":" +:+ pad 2 (a / 1000000 mod 60)
            +:+ (if (a mod 1000000 =? 0)%Z then EmptyString
                 else "." +:+ pad 6 (a mod 1000000))).

Definition py_isoformat (d : datetime) : string :=
  let '(y, m, day) := civil_from_days (dt_wall d / 86400000000) in
  pad 4 y +:+ "-" +:+ pad 2 m +:+ "-" +:+ pad 2 day +:+ "T"
  +:+ clock_text (dt_wall d mod 86400000000) +:+ offset_text (dt_utcoffset d).

Definition iso_lib : PyLib := {|
  sha256_hex := sha256_hex (PyLib := base_lib);
  isoformat := py_isoformat;
  fromisoformat := fromisoformat (PyLib := base_lib);
  fromtimestamp_ms := fromtimestamp_ms (PyLib := base_lib);
  float_repr := float_repr (PyLib := base_lib);
  yaml_safe_dump := yaml_safe_dump (PyLib := base_lib);
  json_loads := json_loads (PyLib := base_lib);
  int_of_str := int_of_str (PyLib := base_lib);
  container_str := container_str (PyLib := base_lib);
  os_makedirs_ok := os_makedirs_ok (PyLib := base_lib);
  os_open_w_ok := os_open_w_ok (PyLib := base_lib);
|}.

(** Two clients, one request each: the first at 2023-11-14T22:13:20 UTC
    (the epoch milliseconds 1700000000000), the second half a second
    later. *)
Definition early_request : LogRow :=
  mkLogRow (DateTime 1700000000000000 0) "198.51.100.1" "agent-a" "/early"
           "example.com" "GET" (StatusStr "200").

Definition late_request : LogRow :=
  mkLogRow (DateTime 1700000000500000 0) "198.51.100.2" "agent-b" "/late"
           "example.com" "GET" (StatusStr "200").

(** The order the design document asks for: the sessions come in the
    order of the instants at which their windows start. *)
Definition sorted_by_start_instant {lib : PyLib} (site_host : string)
    (rows : list LogRow) (sessions : list Session) : Prop :=
  StronglySorted
    (fun s1 s2 => forall f1 f2 : LogRow,
         opens site_host rows s1 f1 -> opens site_host rows s2 f2 ->
         (instant (ts f1) <= instant (ts f2))%Z) sessions.

(** C6.  The list [infer_sessions] returns is not always sorted by window
    start: the code sorts by the text of [window_utc.start], and
    [isoformat] writes the fraction of a second only when it is not zero,
    so that [...:20.500000Z] comes before [...:20Z].  Of two sessions of
    two clients that start half a second apart, the later one is listed
    first. *)
Theorem sessions_not_chronological :
  exists s_late s_early : Session,
    infer_sessions (lib := iso_lib) [early_request; late_request]
      "example.com" "salt" 30 [] ∅ = Some [s_late; s_early] /\
    window_start s_late = "2023-11-14T22:13:20.500000Z" /\
    window_start s_early = "2023-11-14T22:13:20Z" /\
    opens (lib := iso_lib) "example.com" [early_request; late_request]
      s_late late_request /\
    opens (lib := iso_lib) "example.com" [early_request; late_request]
      s_early early_request /\
    (instant (ts early_request) < instant (ts late_request))%Z /\
    ~ sorted_by_start_instant (lib := iso_lib) "example.com"
        [early_request; late_request] [s_late; s_early].
Proof.
  eexists _, _. split; [vm_compute; reflexivity|].
  split; [reflexivity|]. split; [reflexivity|].
  match goal with
  | |- @opens ?l ?h ?rows ?s1 ?r1 /\ @opens _ _ _ ?s2 ?r2 /\ _ =>
      assert (@opens l h rows s1 r1) as Hlate;
      [|assert (@opens l h rows s2 r2) as Hearly]
  end.
  { exists [late_request]. split; [right; by left|]. split; [done|].
    split; [done|]. split; [vm_compute; reflexivity|]. by repeat constructor. }
  { exists [early_request]. split; [by left|]. split; [done|].
    split; [done|]. split; [vm_compute; reflexivity|]. by repeat constructor. }
  split; [exact Hlate|]. split; [exact Hearly|].
  split; [vm_compute; reflexivity|].
  intros Hsorted. apply StronglySorted_inv in Hsorted as [_ Hfirst].
  apply Forall_inv in Hfirst.
  specialize (Hfirst late_request early_request Hlate Hearly).
  vm_compute in Hfirst. by apply Hfirst.
Qed.

Definition state_file : string := "state/ledger-state.json".

Definition demo_run : RunInputs := {|
  run_cfg :=
    [("site", JStr "https://example.com/");
     ("output", JObj [("json", JStr "out/q-ledger.json");
                      ("yaml", JStr "out/q-ledger.yml")])];
  run_state_path := state_file;
  run_gap_minutes := 30;
  run_ingest_stats := stats_dict (mkStats 2 1 1);
  run_sessions := [];
  run_now := DateTime 0 0;
|}.

Lemma demo_run_finishes (files : gmap string string) :
  dom files ⊆ {[ state_file ]} -> run_can_finish (lib := stub_lib) demo_run files.
Proof.
  intros Hdom.
  assert (dom files = ∅ \/ dom files = {[ state_file ]}) as [Hd|Hd].
  { destruct (decide (state_file ∈ dom files)) as [Hin|Hout].
    - right. apply set_eq. intros x. split; [apply Hdom|].
      by intros ->%elem_of_singleton.
    - left. apply set_eq. intros x. split; [|by intros ?%not_elem_of_empty].
      intros Hx. pose proof (Hdom x Hx) as ->%elem_of_singleton. done. }
  all: exists (JStr "https://example.com/"),
      [("json", JStr "out/q-ledger.json"); ("yaml", JStr "out/q-ledger.yml")],
      "out/q-ledger.json", "out/q-ledger.yml", None;
    rewrite Hd; repeat split; vm_compute; reflexivity.
Qed.

Lemma main_raises_name_error_witness :
  main (lib := stub_lib) [] demo_run {[ state_file := prior_text ]} = None /\
  chained_run (lib := stub_lib) ["argparse"] demo_run {[ state_file := prior_text ]}
    7%Z (JStr "feed") /\
  chained_run (lib := stub_lib) ["argparse"] demo_run ∅ 0%Z JNull.
Proof.
  split; [apply (proj1 (main_raises_name_error (lib := stub_lib)))|].
  split.
  - apply (proj1 (ledger_extends_chain (lib := stub_lib) ["argparse"] ltac:(by left))
             demo_run {[ state_file := prior_text ]} prior_state 7%Z (JStr "feed")).
    + vm_compute. reflexivity.
    + reflexivity.
    + reflexivity.
    + apply demo_run_finishes. by rewrite dom_singleton_L.
  - apply (proj2 (ledger_extends_chain (lib := stub_lib) ["argparse"] ltac:(by left))
             demo_run ∅).
    + reflexivity.
    + apply demo_run_finishes. by rewrite dom_empty_L.
Defined.

Lemma canonical_hash_ignores_key_order_witness :
  canonical_json_hash (lib := stub_lib) (JObj [("b", JInt 2); ("a", JInt 1)])
  = canonical_json_hash (lib := stub_lib) (JObj [("a", JInt 1); ("b", JInt 2)]).
Proof.
  apply (proj1 (canonical_hash_ignores_key_order (lib := stub_lib))).
  cbn. repeat split.
  - apply (bool_decide_unpack _). vm_compute. exact I.
  - apply (bool_decide_unpack _). vm_compute. exact I.
  - intros k [<-|[<-|[]]]; tauto.
Defined.

Lemma load_rows_drops_empty_path_uncounted_witness :
  load_rows (lib := stub_lib) "EdgeStartTimestamp" "ClientIP" "ClientRequestUserAgent"
    "ClientRequestPath" "ClientRequestHost" None None
    ["EdgeStartTimestamp"; "ClientRequestPath"]
    [{[ "EdgeStartTimestamp" := Some "1700000000000";
        "ClientRequestPath" := Some EmptyString ]}]
    = ([], {| rows_total := 1; rows_loaded := 0; rows_skipped := 0 |}) /\
  rows_total {| rows_total := 1; rows_loaded := 0; rows_skipped := 0 |}
    <> rows_loaded {| rows_total := 1; rows_loaded := 0; rows_skipped := 0 |}
       + rows_skipped {| rows_total := 1; rows_loaded := 0; rows_skipped := 0 |}.
Proof.
  apply (load_rows_drops_empty_path_uncounted (lib := stub_lib)
           "EdgeStartTimestamp" "ClientIP" "ClientRequestUserAgent"
           "ClientRequestPath" "ClientRequestHost" None None
           ["EdgeStartTimestamp"; "ClientRequestPath"]
           {[ "EdgeStartTimestamp" := Some "1700000000000";
              "ClientRequestPath" := Some EmptyString ]}
           (DateTime 1700000000000000 0)).
  - vm_compute. reflexivity.
  - vm_compute. reflexivity.
Defined.

(** ** The state write is not atomic *)

(** C8 as the design document states it: whatever point the write has
    reached, the file holds the old state or the complete new one. *)
Definition crash_atomic (old : option string) (content : string) : Prop :=
  forall w : write_state,
    write_reaches content w ->
    file_content old w = old \/ file_content old w = Some content.

Lemma save_state_not_atomic :
  ~ crash_atomic (Some prior_text)
      (state_text (lib := stub_lib)
         [("ledger_sequence", JInt 8); ("last_ledger_hash", JStr "beef")]).
Proof.
  intros Hatomic.
  destruct (Hatomic (Opened EmptyString _) (rtc_once _ _ (ws_open _))) as [E|E];
    vm_compute in E; discriminate.
Qed.

Lemma save_state_overwrites_in_place_witness :
  (<[state_file := state_text (lib := stub_lib) prior_state]> ∅ : gmap string string)
    !! state_file = Some (state_text (lib := stub_lib) prior_state) /\
  write_reaches (state_text (lib := stub_lib) prior_state)
    (Closed (state_text (lib := stub_lib) prior_state)) /\
  write_reaches (state_text (lib := stub_lib) prior_state)
    (Opened EmptyString (state_text (lib := stub_lib) prior_state)) /\
  (forall w : write_state,
      write_reaches (state_text (lib := stub_lib) prior_state) w ->
      match w with
      | NotOpened => file_content ((∅ : gmap string string) !! state_file) w
                     = (∅ : gmap string string) !! state_file
      | Opened on_disk pending => on_disk +:+ pending = state_text (lib := stub_lib) prior_state
      | Closed on_disk => on_disk = state_text (lib := stub_lib) prior_state
      end).
Proof.
  apply (save_state_overwrites_in_place (lib := stub_lib) ∅ _ state_file prior_state).
  reflexivity.
Defined.

Definition demo_layers : gmap string (list string) :=
  {[ "entrypoints" := [ledger_path]; "policy" := ["/content"] ]}.

Definition demo_session : Session := {|
  session_id := "0";
  window_start := "0Z";
  window_end := "0Z";
  client_fingerprint_hash := "f";
  confidence := 0.55%float;
  s_path := [ledger_path; "/content"; "/other"];
  path_categories := ["entrypoint"; "policy"; "other"];
  signals := [];
  confidence_level := "low";
  primary_signal := "unknown";
  human_readable_hypothesis := "hypothese faible";
  warning := "aucune preuve cryptographique d'identite";
|}.

Lemma category_map_never_yields_content_witness :
  let scope := Some (mkScope demo_layers [["entrypoints"; "content"]]) in
  let m := compute_q_metrics [demo_session] scope in
  observed_any_content (scope_exact_map scope) [demo_session] = false /\
  ledger_pattern [demo_session] scope = ["entrypoint"; "constraints"; "ontology"] /\
  used_pattern m =
    (if (total m =? 0)%nat then None
     else Some ["entrypoint"; "constraints"; "ontology"]) /\
  governance_only_mode m = negb (total m =? 0)%nat /\
  seq_match m =
    length (List.filter
              (fun s => counted (scope_exact_map scope) s &&
                        subsequence_match
                          (checked_categories (scope_exact_map scope) s)
                          ["entrypoint"; "constraints"; "ontology"])
              [demo_session]).
Proof.
  apply (proj1 (proj2 category_map_never_yields_content) [demo_session]).
  constructor; [|constructor]. exists demo_layers. vm_compute. reflexivity.
Defined.

(* ================================================================== *)
(** * Further properties of the code *)

(* ------------------------------------------------------------------ *)
(** ** Strings as lists of characters *)

Section StringLists.
Lemma to_list_app (a b : string) :
  Str.to_list (a +:+ b) = Str.to_list a ++ Str.to_list b.
Proof.
  induction a as [|c a IH]; [done|].
  rewrite append_cons. cbn. f_equal. exact IH.
Qed.

Lemma of_to_list (s : string) : Str.of_list (Str.to_list s) = s.
Proof. apply string_of_list_ascii_of_string. Qed.

Lemma to_of_list (l : list ascii) : Str.to_list (Str.of_list l) = l.
Proof. apply list_ascii_of_string_of_list_ascii. Qed.

Lemma to_list_inj (a b : string) : Str.to_list a = Str.to_list b -> a = b.
Proof. intros E. rewrite <- (of_to_list a), <- (of_to_list b). by rewrite E. Qed.

Lemma prefix_list (p s : string) :
  String.prefix p s = true <-> exists t, Str.to_list s = Str.to_list p ++ t.
Proof.
  unfold Str.to_list. revert s. induction p as [|a p IH]; intros s.
  - split; [intros _; by exists (list_ascii_of_string s)|by destruct s].
  - destruct s as [|b s]; cbn.
    + split; [done|]. intros [t Ht]. discriminate Ht.
    + destruct (Ascii.ascii_dec a b) as [->|Hne].
      * rewrite IH. split; intros [t Ht]; exists t; [by rewrite Ht|].
        by injection Ht.
      * split; [done|]. intros [t Ht]. injection Ht as -> _. done.
Qed.

Lemma contains_list (sub s : string) :
  Str.contains sub s = true <->
  exists a b, Str.to_list s = a ++ Str.to_list sub ++ b.
Proof.
  induction s as [|c s IH].
  - unfold Str.contains, Str.to_list. cbn. destruct sub as [|x sub]; cbn.
    + split; [intros _; by exists [], []|done].
    + split; [done|]. intros (a & b & E). by destruct a.
  - rewrite contains_cons, orb_true_iff, prefix_list, IH.
    unfold Str.to_list. cbn [list_ascii_of_string]. split.
    + intros [[t Ht]|(a & b & E)].
      * exists [], t. exact Ht.
      * exists (c :: a), b. cbn [app]. by rewrite E.
    + intros (a & b & E). destruct a as [|c' a].
      * left. by exists b.
      * right. injection E as -> E. by exists a, b.
Qed.

Lemma contains_char (x : ascii) (s : string) :
  Str.contains (String x EmptyString) s = true <-> In x (Str.to_list s).
Proof.
  rewrite contains_list. cbn. split.
  - intros (a & b & ->). apply in_or_app. right. by left.
  - intros (a & b & ->)%in_split. by exists a, b.
Qed.

Lemma contains_false_char (x : ascii) (s : string) :
  Str.contains (String x EmptyString) s = false <-> ~ In x (Str.to_list s).
Proof. rewrite <- contains_char. by destruct (Str.contains _ s). Qed.

(** A string found in a prefix is found in the whole. *)
Lemma contains_prefix (sub a b : string) :
  Str.contains sub a = true -> Str.contains sub (a +:+ b) = true.
Proof.
  rewrite !contains_list. intros (l & r & E).
  exists l, (r ++ Str.to_list b). by rewrite to_list_app, E, <- !app_assoc.
Qed.

Lemma before_prefix (sep s : string) :
  exists t, s = Str.before sep s +:+ t.
Proof.
  unfold Str.before. destruct (String.index 0 sep s) as [i|].
  - exists (Str.drop i s). by rewrite take_drop.
  - exists EmptyString. by rewrite append_empty_r.
Qed.

Lemma index_char (x c : ascii) (t : string) :
  String.index 0 (String x EmptyString) (String c t) =
    if Ascii.eqb x c then Some 0
    else match String.index 0 (String x EmptyString) t with
         | Some n => Some (S n)
         | None => None
         end.
Proof.
  cbn. destruct (Ascii.ascii_dec x c) as [->|Hne].
  - rewrite Ascii.eqb_refl. by destruct t.
  - by apply Ascii.eqb_neq in Hne as ->.
Qed.

(** [s.split(x, 1)[0]] holds no [x]. *)
Lemma before_char (x : ascii) (s : string) :
  ~ In x (Str.to_list (Str.before (String x EmptyString) s)).
Proof.
  unfold Str.before. induction s as [|c s IH]; [cbn; tauto|].
  rewrite index_char. destruct (Ascii.eqb x c) eqn:E; [cbn; tauto|].
  apply Ascii.eqb_neq in E.
  destruct (String.index 0 (String x EmptyString) s) as [i|]; cbn.
  - intros [->|H]; [done|by apply IH].
  - intros [->|H]; [done|by apply IH].
Qed.

Lemma replace_fuel_chars (fuel : nat) (s : string) (c : ascii) :
  In c (Str.to_list (Str.replace_fuel fuel "//" "/" s)) -> In c (Str.to_list s).
Proof.
  revert s. induction fuel as [|fuel IH]; intros s; [done|].
  destruct s as [|x t]; [done|]. cbn [Str.replace_fuel].
  destruct (String.prefix "//" (String x t)) eqn:E.
  - apply prefix_slashes in E as [t' [= -> ->]].
    change (String.length "//") with 2. rewrite drop_two, to_list_app.
    cbn. intros [<-|H]; [by left|]. right. right. by apply IH.
  - cbn. intros [<-|H]; [by left|]. right. by apply IH.
Qed.

Lemma collapse_slashes_chars (fuel : nat) (u : string) (c : ascii) :
  In c (Str.to_list (collapse_slashes fuel u)) -> In c (Str.to_list u).
Proof.
  revert u. induction fuel as [|fuel IH]; intros u; [done|].
  cbn [collapse_slashes]. destruct (Str.contains "//" u); [|done].
  intros H%IH. by apply replace_fuel_chars in H.
Qed.

Lemma replace_fuel_head (fuel : nat) (t : string) :
  exists t', Str.replace_fuel (S fuel) "//" "/" (String "/" t) = String "/" t'.
Proof.
  cbn [Str.replace_fuel].
  destruct (String.prefix "//" (String "/" t)); eauto.
Qed.

Lemma collapse_slashes_head (fuel : nat) (t : string) :
  exists t', collapse_slashes fuel (String "/" t) = String "/" t'.
Proof.
  revert t. induction fuel as [|fuel IH]; intros t; [by exists t|].
  cbn [collapse_slashes]. destruct (Str.contains "//" (String "/" t)); [|by exists t].
  unfold Str.replace. cbn [String.length].
  destruct (replace_fuel_head (String.length t) t) as [t' ->]. apply IH.
Qed.

Lemma collapse_slashes_id (fuel : nat) (u : string) :
  Str.contains "//" u = false -> collapse_slashes fuel u = u.
Proof. destruct fuel; [done|]. cbn. by intros ->. Qed.
End StringLists.

(* ------------------------------------------------------------------ *)
(** ** [normalize_path] *)

Section StripFacts.
Lemma lstrip_list_suffix (l : list ascii) :
  exists d, l = d ++ Str.lstrip_list l.
Proof.
  induction l as [|c l [d IH]]; [by exists []|].
  cbn. destruct (Str.is_space c); [|by exists []].
  exists (c :: d). cbn. by rewrite <- IH.
Qed.

Lemma lstrip_list_snoc (l : list ascii) (x : ascii) :
  Str.is_space x = false ->
  Str.lstrip_list (l ++ [x]) = Str.lstrip_list l ++ [x].
Proof.
  intros Hx. induction l as [|c l IH]; cbn; [by rewrite Hx|].
  by destruct (Str.is_space c).
Qed.

Lemma lstrip_list_idem (l : list ascii) :
  Str.lstrip_list (Str.lstrip_list l) = Str.lstrip_list l.
Proof.
  induction l as [|c l IH]; [done|].
  cbn. destruct (Str.is_space c) eqn:E; [done|]. cbn. by rewrite E.
Qed.

(** [strip] of a string that starts with a character that is no
    whitespace: a prefix of it that starts with the same character and is
    left alone by a second [strip]. *)
Lemma strip_head (x : ascii) (t : string) :
  Str.is_space x = false ->
  exists t' rest,
    Str.strip (String x t) = String x t' /\
    String x t = String x t' +:+ rest /\
    Str.strip (String x t') = String x t'.
Proof.
  intros Hx.
  destruct (lstrip_list_suffix (rev (Str.to_list t))) as [d Hd].
  set (k := Str.lstrip_list (rev (Str.to_list t))) in *.
  assert (Str.strip (String x t) = String x (Str.of_list (rev k))) as E1.
  { unfold Str.strip, Str.to_list. cbn [list_ascii_of_string Str.lstrip_list].
    rewrite Hx. cbn [rev]. fold (Str.to_list t).
    rewrite lstrip_list_snoc by done. fold k.
    rewrite rev_app_distr. reflexivity. }
  exists (Str.of_list (rev k)), (Str.of_list (rev d)). split; [exact E1|]. split.
  - apply to_list_inj. rewrite to_list_app. unfold Str.to_list at 1 2.
    cbn [list_ascii_of_string]. fold (Str.to_list t).
    fold (Str.to_list (Str.of_list (rev k))).
    rewrite !to_of_list. cbn [app]. f_equal.
    rewrite <- rev_app_distr, <- Hd. by rewrite rev_involutive.
  - unfold Str.strip, Str.to_list. cbn [list_ascii_of_string Str.lstrip_list].
    rewrite Hx. cbn [rev]. fold (Str.to_list (Str.of_list (rev k))).
    rewrite to_of_list, rev_involutive.
    rewrite lstrip_list_snoc by done. unfold k at 1. rewrite lstrip_list_idem.
    fold k. rewrite rev_app_distr. reflexivity.
Qed.
End StripFacts.

Section NormalizePath.
(** The path before [while "//" in u]: it starts with a slash and holds
    neither [?] nor [#]. *)
Lemma cut_query_fragment (u : string) :
  let u1 := if Str.contains "?" u then Str.before "?" u else u in
  let u2 := if Str.contains "#" u1 then Str.before "#" u1 else u1 in
  let u3 := if Str.startswith u2 "/" then u2 else "/" +:+ u2 in
  (exists t, u3 = String "/" t) /\
  ~ In "?"%char (Str.to_list u3) /\ ~ In "#"%char (Str.to_list u3).
Proof.
  intros u1 u2 u3.
  assert (~ In "?"%char (Str.to_list u1)) as H1.
  { unfold u1. destruct (Str.contains "?" u) eqn:E; [apply before_char|].
    by apply contains_false_char. }
  assert (~ In "#"%char (Str.to_list u2)) as H2.
  { unfold u2. destruct (Str.contains "#" u1) eqn:E; [apply before_char|].
    by apply contains_false_char. }
  assert (~ In "?"%char (Str.to_list u2)) as H3.
  { unfold u2. destruct (Str.contains "#" u1); [|done].
    destruct (before_prefix "#" u1) as [t Ht]. intros Hin. apply H1.
    rewrite Ht, to_list_app. apply in_or_app. by left. }
  unfold u3, Str.startswith. destruct (String.prefix "/" u2) eqn:E.
  - apply prefix_list in E as [t E]. split; [|done].
    exists (Str.of_list t). apply to_list_inj. rewrite E.
    unfold Str.to_list at 2. cbn [list_ascii_of_string].
    fold (Str.to_list (Str.of_list t)). by rewrite to_of_list.
  - split; [by exists u2|].
    unfold Str.to_list. cbn [String.append list_ascii_of_string].
    fold (Str.to_list u2). split; intros [?|?]; done.
Qed.

Lemma normalize_path_cases (uri : option string) :
  (Str.strip (default EmptyString uri) = EmptyString /\
   normalize_path uri = EmptyString) \/
  (Str.strip (default EmptyString uri) <> EmptyString /\
   exists t, normalize_path uri = String "/" t /\
     ~ In "?"%char (Str.to_list (String "/" t)) /\
     ~ In "#"%char (Str.to_list (String "/" t))).
Proof.
  unfold normalize_path.
  destruct (Str.strip (default EmptyString uri)) as [|c u] eqn:Eu; [by left|].
  right. split; [done|].
  set (u0 := if Str.contains "://" (String c u) then _ else _).
  destruct (cut_query_fragment u0) as ([t Ht] & Hq & Hf).
  cbv zeta in Ht, Hq, Hf. rewrite Ht in Hq, Hf |- *.
  destruct (collapse_slashes_head (String.length (String "/" t)) t) as [t' E].
  exists t'. split; [exact E|]. rewrite <- E.
  split; intros Hin%collapse_slashes_chars; done.
Qed.

(** X1.  For a text of ASCII characters, [normalize_path] returns the
    empty string exactly when the input is missing or blank.  Whatever
    the input, a result that is not empty starts with a slash, and no
    result holds a doubled slash, a [?] or a [#]. *)
Theorem normalize_path_shape (uri : option string) :
  (Str.is_ascii (default EmptyString uri) = true ->
   (normalize_path uri = EmptyString <->
      Str.strip (default EmptyString uri) = EmptyString)) /\
  (normalize_path uri = EmptyString \/
     Str.startswith (normalize_path uri) "/" = true) /\
  Str.contains "//" (normalize_path uri) = false /\
  Str.contains "?" (normalize_path uri) = false /\
  Str.contains "#" (normalize_path uri) = false.
Proof.
  split; [|split; [|split; [apply normalize_path_collapsed|]]].
  - intros _. destruct (normalize_path_cases uri) as [[Hs Hn]|[Hs (t & Hn & _)]].
    + by rewrite Hs, Hn.
    + rewrite Hn. split; [intros E; discriminate E|]. intros E. by destruct Hs.
  - destruct (normalize_path_cases uri) as [[_ Hn]|[_ (t & Hn & _)]].
    + by left.
    + right. rewrite Hn. unfold Str.startswith. by destruct t.
  - destruct (normalize_path_cases uri) as [[_ Hn]|[_ (t & Hn & Hq & Hf)]].
    + by rewrite Hn.
    + rewrite Hn. split; by apply contains_false_char.
Qed.

Lemma contains_scheme (s : string) :
  Str.contains "://" s = true -> Str.contains "//" s = true.
Proof.
  rewrite !contains_list. intros (a & b & E).
  exists (a ++ [":"%char]), b. rewrite E, <- app_assoc. reflexivity.
Qed.

(** A path that is already in the shape [normalize_path] returns, and
    carries no whitespace at its ends, is returned as it is. *)
Lemma normalize_path_fixed (t : string) :
  Str.strip (String "/" t) = String "/" t ->
  Str.contains "//" (String "/" t) = false ->
  Str.contains "?" (String "/" t) = false ->
  Str.contains "#" (String "/" t) = false ->
  normalize_path (Some (String "/" t)) = String "/" t.
Proof.
  intros Hs Hd Hq Hf. unfold normalize_path.
  change (default EmptyString (Some (String "/" t))) with (String "/" t).
  rewrite Hs.
  destruct (Str.contains "://" (String "/" t)) eqn:E.
  { apply contains_scheme in E. congruence. }
  rewrite Hq, Hf. unfold Str.startswith.
  replace (String.prefix "/" (String "/" t)) with true by (by destruct t).
  by apply collapse_slashes_id.
Qed.

(** X2.  Normalizing a normalized path only strips it: for a text of
    ASCII characters, a second pass of [normalize_path] returns [strip]
    of the first result.  So the function is idempotent on every such
    input whose result carries no whitespace at its end, and three
    passes give what two give. *)
Theorem normalize_path_twice (uri : option string) :
  Str.is_ascii (default EmptyString uri) = true ->
  normalize_path (Some (normalize_path uri)) = Str.strip (normalize_path uri) /\
  normalize_path (Some (Str.strip (normalize_path uri)))
    = Str.strip (normalize_path uri).
Proof.
  intros _.
  destruct (normalize_path_cases uri) as [[_ Hn]|[_ (t & Hn & Hq & Hf)]].
  { rewrite Hn. split; reflexivity. }
  pose proof (normalize_path_collapsed uri) as Hd. rewrite Hn in Hd |- *.
  destruct (strip_head "/" t eq_refl) as (t' & rest & E1 & E2 & E3).
  assert (normalize_path (Some (String "/" t')) = String "/" t') as Hfix.
  { apply normalize_path_fixed; [exact E3|..].
    - destruct (Str.contains "//" (String "/" t')) eqn:E; [|done].
      apply (contains_prefix _ _ rest) in E. rewrite <- E2 in E. congruence.
    - apply contains_false_char. intros Hin. apply Hq.
      rewrite E2, to_list_app. apply in_or_app. by left.
    - apply contains_false_char. intros Hin. apply Hf.
      rewrite E2, to_list_app. apply in_or_app. by left. }
  rewrite E1. split; [|exact Hfix].
  unfold normalize_path at 1.
  change (default EmptyString (Some (String "/" t))) with (String "/" t).
  rewrite E1.
  unfold normalize_path in Hfix.
  change (default EmptyString (Some (String "/" t'))) with (String "/" t') in Hfix.
  rewrite E3 in Hfix. exact Hfix.
Qed.
End NormalizePath.

(** A result that ends in whitespace: the second pass differs. *)
Lemma normalize_path_twice_witness :
  normalize_path (Some "/a ?q") = "/a " /\
  normalize_path (Some (normalize_path (Some "/a ?q"))) = "/a" /\
  normalize_path (Some (normalize_path (Some "/a ?q")))
    = Str.strip (normalize_path (Some "/a ?q")).
Proof.
  split; [vm_compute; reflexivity|]. split; [vm_compute; reflexivity|].
  apply (normalize_path_twice (Some "/a ?q")). vm_compute. reflexivity.
Defined.

(* ------------------------------------------------------------------ *)
(** ** Loading rows *)

Section HeaderFacts.
Context {lib : PyLib}.

Lemma header_map_fold (fieldnames : list string) (m : gmap string string)
    (k : string) :
  fold_left (fun m h => <[Str.lower h := h]> m) fieldnames m !! k =
    match last (List.filter (fun h => String.eqb (Str.lower h) k) fieldnames) with
    | Some h => Some h
    | None => m !! k
    end.
Proof.
  revert m. induction fieldnames as [|h l IH] using rev_ind; intros m; [done|].
  rewrite fold_left_app, List.filter_app. cbn [fold_left List.filter].
  destruct (String.eqb_spec (Str.lower h) k) as [<-|Hne].
  - rewrite lookup_insert_eq. by rewrite last_snoc.
  - rewrite lookup_insert_ne by done. rewrite app_nil_r. apply IH.
Qed.

(** X5.  A column is found by its name without regard to case, the
    configured name being stripped first: for headers and a name of
    ASCII characters, the cell read is the one under the last header
    that equals the name up to case.  With no such header, under a
    header that is the empty string, or in a row that lacks the cell,
    the value is the empty string. *)
Theorem header_lookup_ignores_case (fieldnames : list string) (row : csv_row)
    (wanted : string) :
  Forall (fun h => Str.is_ascii h = true) fieldnames ->
  Str.is_ascii wanted = true ->
  _get_case_insensitive row (header_map fieldnames) wanted =
    match last (List.filter
                  (fun h => String.eqb (Str.lower h) (Str.lower (Str.strip wanted)))
                  fieldnames) with
    | Some (String c h) => default (Some EmptyString) (row !! String c h)
    | _ => Some EmptyString
    end.
Proof.
  intros _ _. unfold _get_case_insensitive, header_map. rewrite header_map_fold.
  destruct (last _) as [[|c h]|]; reflexivity.
Qed.
End HeaderFacts.

Section LoadRowsFacts.
Context {lib : PyLib}.
Variables col_ts col_ip col_ua col_path col_host : string.
Variables col_method col_status : option string.

Let row_of := load_row col_ts col_ip col_ua col_path col_host col_method col_status.
Let step := load_rows_step col_ts col_ip col_ua col_path col_host col_method col_status.

(** The shape of a path [normalize_path] lets through. *)
Definition clean_path (p : string) : Prop :=
  (exists t, p = String "/" t) /\
  Str.contains "//" p = false /\
  Str.contains "?" p = false /\
  Str.contains "#" p = false.

Lemma load_row_clean (headers : gmap string string) (r : csv_row) (row : LogRow) :
  row_of headers r = RowLoaded row -> clean_path (path row).
Proof.
  unfold row_of, load_row.
  destruct (parse_ts _) as [t|]; [|discriminate].
  set (uri := _get_case_insensitive r headers col_path).
  pose proof (normalize_path_collapsed uri) as Hd.
  destruct (normalize_path_cases uri) as [[_ Hn]|[_ (t' & Hn & Hq & Hf)]].
  - rewrite Hn. discriminate.
  - rewrite Hn in Hd |- *. intros [= <-]. cbn [path].
    split; [by exists t'|]. split; [done|].
    split; by apply contains_false_char.
Qed.

Lemma load_rows_fold_clean (headers : gmap string string) (reader : list csv_row)
    (acc : list LogRow * nat * nat) :
  Forall (fun r => clean_path (path r)) acc.1.1 ->
  Forall (fun r => clean_path (path r)) (fold_left (step headers) reader acc).1.1.
Proof.
  revert acc. induction reader as [|r reader IH]; intros [[rows total] skipped] H;
    [done|].
  cbn [fold_left]. apply IH. unfold step, load_rows_step.
  fold (row_of headers r).
  destruct (row_of headers r) as [row| |] eqn:E; cbn [fst]; [|done..].
  apply Forall_app. split; [done|]. constructor; [|constructor].
  by apply (load_row_clean headers r).
Qed.

(** X4.  The rows [load_rows] returns are in ascending order of their
    timestamps, [rows_loaded] is their number, and every one of them has
    a path that starts with a slash and holds no doubled slash, no [?] and
    no [#]. *)
Theorem load_rows_sorted_clean (fieldnames : list string) (reader : list csv_row) :
  let result := load_rows col_ts col_ip col_ua col_path col_host col_method
                  col_status fieldnames reader in
  StronglySorted (fun a b => (instant (ts a) <= instant (ts b))%Z) result.1 /\
  rows_loaded result.2 = length result.1 /\
  Forall (fun r => clean_path (path r)) result.1.
Proof.
  cbv zeta. unfold load_rows.
  pose proof (load_rows_fold_clean (header_map fieldnames) reader ([], 0, 0)
                ltac:(constructor)) as Hc.
  unfold step in Hc.
  destruct (fold_left _ reader _) as [[rows total] skipped].
  cbn [fst snd rows_loaded] in *. split; [|split; [done|]].
  - pose proof (sort_by_StronglySorted Z.leb (fun x => instant (ts x))
                  ltac:(intros a b; rewrite !Z.leb_le; lia)
                  ltac:(intros a b c; rewrite !Z.leb_le; lia) rows) as Hs.
    induction Hs as [|x l Hl IH Hx]; constructor; [done|].
    eapply Forall_impl; [exact Hx|]. intros y Hy. cbv beta in Hy. by apply Z.leb_le.
  - by rewrite sort_by_Permutation.
Qed.

Lemma blank_timestamps_skipped (headers : gmap string string)
    (reader : list csv_row) (rows : list LogRow) (total skipped : nat) :
  Forall (fun r => Str.strip (default EmptyString
                      (_get_case_insensitive r headers col_ts)) = EmptyString)
         reader ->
  fold_left (step headers) reader (rows, total, skipped)
    = (rows, total + length reader, skipped + length reader).
Proof.
  intros H. revert total skipped.
  induction H as [|r reader Hr _ IH]; intros total skipped.
  - cbn. by rewrite !Nat.add_0_r.
  - cbn [fold_left]. unfold step at 2, load_rows_step, load_row, parse_ts.
    rewrite Hr. rewrite IH. cbn [length]. f_equal; [f_equal|]; lia.
Qed.

(** X3.  When no header equals the configured timestamp column up to
    case (headers and column name being texts of ASCII characters),
    [load_rows] loads nothing and counts every row as skipped. *)
Theorem load_rows_without_timestamp_column (fieldnames : list string)
    (reader : list csv_row) :
  Forall (fun h => Str.is_ascii h = true) fieldnames ->
  Str.is_ascii col_ts = true ->
  header_map fieldnames !! Str.lower (Str.strip col_ts) = None ->
  load_rows col_ts col_ip col_ua col_path col_host col_method col_status
    fieldnames reader
    = ([], {| rows_total := length reader; rows_loaded := 0;
              rows_skipped := length reader |}).
Proof.
  intros _ _ Hcol. unfold load_rows. fold step.
  rewrite blank_timestamps_skipped; [done|].
  apply Forall_forall. intros r _. unfold _get_case_insensitive. by rewrite Hcol.
Qed.
End LoadRowsFacts.

Lemma header_lookup_ignores_case_witness :
  _get_case_insensitive {[ "clientip" := Some "1.2.3.4" ]}
    (header_map ["ClientIP"; "clientip"]) " CLIENTIP "
  = Some "1.2.3.4".
Proof.
  rewrite (header_lookup_ignores_case ["ClientIP"; "clientip"]
             {[ "clientip" := Some "1.2.3.4" ]} " CLIENTIP ").
  - vm_compute. reflexivity.
  - repeat constructor.
  - reflexivity.
Defined.

Lemma load_rows_without_timestamp_column_witness :
  load_rows (lib := base_lib) "EdgeStartTimestamp" "ClientIP" "UserAgent"
    "ClientRequestPath" "ClientRequestHost" None None
    ["ClientIP"; "ClientRequestPath"]
    [ {[ "ClientIP" := Some "1.2.3.4"; "ClientRequestPath" := Some "/a" ]} ]
  = ([], {| rows_total := 1; rows_loaded := 0; rows_skipped := 1 |}).
Proof.
  apply (load_rows_without_timestamp_column (lib := base_lib)
           "EdgeStartTimestamp" "ClientIP" "UserAgent" "ClientRequestPath"
           "ClientRequestHost" None None ["ClientIP"; "ClientRequestPath"]
           [ {[ "ClientIP" := Some "1.2.3.4"; "ClientRequestPath" := Some "/a" ]} ]).
  - repeat constructor.
  - reflexivity.
  - vm_compute. reflexivity.
Defined.

Section NdjsonFacts.
Context {lib : PyLib}.
Variables key_ts key_ip key_ua key_path key_host : string.
Variables key_method key_status : option string.

Let line_row := load_line key_ts key_ip key_ua key_path key_host key_method key_status.
Let step := load_ndjson_step key_ts key_ip key_ua key_path key_host
              key_method key_status.

(** The lines the loop works on: stripped, the blank ones left out. *)
Definition nonblank_lines (lines : list string) : list string :=
  List.filter (fun l => negb (String.eqb l EmptyString)) (map Str.strip lines).

Lemma load_rows_ndjson_fold (lines : list string) (rows : list LogRow)
    (st : IngestStats) :
  let result := fold_left step lines (rows, st) in
  result.1 = rows ++ omap line_row (nonblank_lines lines) /\
  rows_total result.2 = rows_total st + length (nonblank_lines lines) /\
  rows_loaded result.2 = rows_loaded st + length (omap line_row (nonblank_lines lines)) /\
  rows_total result.2 + rows_loaded st + rows_skipped st
    = rows_total st + rows_loaded result.2 + rows_skipped result.2.
Proof.
  cbv zeta. revert rows st. induction lines as [|line lines IH]; intros rows st.
  - cbn. rewrite app_nil_r. repeat split; lia.
  - cbn [fold_left].
    assert (step (rows, st) line =
              match Str.strip line with
              | EmptyString => (rows, st)
              | l =>
                  match line_row l with
                  | Some row =>
                      (rows ++ [row],
                       mkStats (S (rows_total st)) (S (rows_loaded st)) (rows_skipped st))
                  | None =>
                      (rows,
                       mkStats (S (rows_total st)) (rows_loaded st) (S (rows_skipped st)))
                  end
              end) as -> by reflexivity.
    unfold nonblank_lines. cbn [map List.filter]. fold (nonblank_lines lines).
    destruct (Str.strip line) as [|c l] eqn:El; [cbn [String.eqb negb]; apply IH|].
    cbn [String.eqb negb omap list_omap]. fold line_row.
    fold (omap line_row (nonblank_lines lines)).
    destruct (line_row (String c l)) as [row|].
    + destruct (IH (rows ++ [row])
                   (mkStats (S (rows_total st)) (S (rows_loaded st)) (rows_skipped st)))
        as (E1 & E2 & E3 & E4).
      cbn [rows_total rows_loaded rows_skipped] in *.
      rewrite E1, <- app_assoc. cbn [length]. repeat split; lia.
    + destruct (IH rows
                   (mkStats (S (rows_total st)) (rows_loaded st) (S (rows_skipped st))))
        as (E1 & E2 & E3 & E4).
      cbn [rows_total rows_loaded rows_skipped] in *.
      rewrite E1. cbn [length]. repeat split; lia.
Qed.

(** X6.  [load_rows_ndjson], started on fresh statistics and given
    lines of ASCII characters, counts in [rows_total] the lines that are
    not blank: a blank line is neither loaded nor skipped.
    [rows_loaded] is the number of rows it returns, and
    [rows_total = rows_loaded + rows_skipped]. *)
Theorem load_rows_ndjson_counts (lines : list string) :
  Forall (fun l => Str.is_ascii l = true) lines ->
  let result := load_rows_ndjson key_ts key_ip key_ua key_path key_host
                  key_method key_status (mkStats 0 0 0) lines in
  rows_total result.2 = length (nonblank_lines lines) /\
  rows_loaded result.2 = length result.1 /\
  rows_total result.2 = rows_loaded result.2 + rows_skipped result.2.
Proof.
  intros _. cbv zeta. unfold load_rows_ndjson.
  destruct (load_rows_ndjson_fold lines [] (mkStats 0 0 0)) as (E1 & E2 & E3 & E4).
  fold step. fold line_row. cbn [rows_total rows_loaded rows_skipped app] in *.
  rewrite E1. repeat split; lia.
Qed.
End NdjsonFacts.

Lemma load_rows_ndjson_counts_witness :
  load_rows_ndjson (lib := base_lib) "ts" "ip" "ua" "path" "host" None None
    (mkStats 0 0 0) ["  "; "{}"; EmptyString; "not json"]
  = ([], {| rows_total := 2; rows_loaded := 0; rows_skipped := 2 |}) /\
  2 = length (nonblank_lines ["  "; "{}"; EmptyString; "not json"]).
Proof.
  split; [vm_compute; reflexivity|].
  pose proof (load_rows_ndjson_counts (lib := base_lib) "ts" "ip" "ua" "path" "host"
                None None ["  "; "{}"; EmptyString; "not json"]
                ltac:(repeat constructor)) as H.
  cbv zeta in H. destruct H as (H & _).
  rewrite <- H. vm_compute. reflexivity.
Defined.

(* ------------------------------------------------------------------ *)
(** ** The category maps *)

(** The entries of the source's table whose layer lists the path [p]. *)
Definition listing_layers (layers : gmap string (list string)) (p : string)
    : list (string * string) :=
  List.filter (fun kc => bool_decide (p ∈ default [] (layers !! kc.1))) category_table.

Section CategoryLookup.
Lemma add_layer_lookup (paths : list string) (cat : string)
    (m : gmap string string) (p : string) :
  add_layer paths cat m !! p =
    if bool_decide (p ∈ paths) then Some cat else m !! p.
Proof.
  unfold add_layer. revert m. induction paths as [|q paths IH]; intros m; [done|].
  cbn [fold_left]. rewrite IH.
  destruct (decide (p ∈ paths)) as [Hin|Hout].
  - rewrite !bool_decide_eq_true_2; [done|by right|done].
  - rewrite (bool_decide_eq_false_2 (p ∈ paths)) by done.
    destruct (decide (p = q)) as [->|Hne].
    + rewrite lookup_insert_eq. by rewrite bool_decide_eq_true_2 by left.
    + rewrite lookup_insert_ne by done.
      rewrite bool_decide_eq_false_2; [done|].
      intros [->|?]%elem_of_cons; done.
Qed.

Lemma add_paths_lookup (paths : list string) (cat : string)
    (m : gmap string string) (p : string) :
  p <> EmptyString ->
  add_paths paths cat m !! p =
    if bool_decide (p ∈ paths) then Some cat else m !! p.
Proof.
  intros Hp. unfold add_paths. revert m.
  induction paths as [|q paths IH]; intros m; [done|].
  cbn [fold_left]. rewrite IH.
  destruct (decide (p ∈ paths)) as [Hin|Hout].
  - rewrite !bool_decide_eq_true_2; [done|by right|done].
  - rewrite (bool_decide_eq_false_2 (p ∈ paths)) by done.
    destruct (decide (p = q)) as [->|Hne].
    + rewrite bool_decide_eq_true_2 by left.
      destruct q; [done|]. by rewrite lookup_insert_eq.
    + rewrite bool_decide_eq_false_2 by (intros [->|?]%elem_of_cons; done).
      destruct q; [done|]. by rewrite lookup_insert_ne.
Qed.

Lemma add_paths_lookup_empty (paths : list string) (cat : string)
    (m : gmap string string) :
  add_paths paths cat m !! EmptyString = m !! EmptyString.
Proof.
  unfold add_paths. revert m. induction paths as [|q paths IH]; intros m; [done|].
  cbn [fold_left]. rewrite IH. destruct q; [done|]. by rewrite lookup_insert_ne.
Qed.

Lemma table_fold_lookup (layers : gmap string (list string))
    (table : list (string * string)) (m : gmap string string) (p : string) :
  p <> EmptyString ->
  fold_left (fun m kc => add_paths (default [] (layers !! kc.1)) kc.2 m) table m !! p =
    match last (List.filter
                  (fun kc => bool_decide (p ∈ default [] (layers !! kc.1))) table) with
    | Some kc => Some kc.2
    | None => m !! p
    end.
Proof.
  intros Hp. revert m. induction table as [|kc table IH] using rev_ind; intros m;
    [done|].
  rewrite fold_left_app, List.filter_app. cbn [fold_left List.filter].
  rewrite add_paths_lookup by done.
  destruct (bool_decide (p ∈ default [] (layers !! kc.1))).
  - by rewrite last_snoc.
  - rewrite app_nil_r. apply IH.
Qed.

Lemma table_fold_lookup_empty (layers : gmap string (list string))
    (table : list (string * string)) (m : gmap string string) :
  fold_left (fun m kc => add_paths (default [] (layers !! kc.1)) kc.2 m) table m
    !! EmptyString = m !! EmptyString.
Proof.
  revert m. induction table as [|kc table IH]; intros m; [done|].
  cbn [fold_left]. by rewrite IH, add_paths_lookup_empty.
Qed.

Lemma exact_fold_lookup (layers : gmap string (list string))
    (table : list (string * string)) (m : gmap string string) (p : string) :
  fold_left (fun m kc => add_layer (default [] (layers !! kc.1)) kc.2 m) table m !! p =
    match last (List.filter
                  (fun kc => bool_decide (p ∈ default [] (layers !! kc.1))) table) with
    | Some kc => Some kc.2
    | None => m !! p
    end.
Proof.
  revert m. induction table as [|kc table IH] using rev_ind; intros m; [done|].
  rewrite fold_left_app, List.filter_app. cbn [fold_left List.filter].
  rewrite add_layer_lookup.
  destruct (bool_decide (p ∈ default [] (layers !! kc.1))).
  - by rewrite last_snoc.
  - rewrite app_nil_r. apply IH.
Qed.

(** X7.  [build_category_map] gives a path the category of the last
    entry of the table whose layer lists it: where two layers list the
    same path the later [add] call wins.  A path that no known layer
    lists has no entry, and neither has the empty path, whatever lists
    it. *)
Theorem build_category_map_lookup (layers : gmap string (list string))
    (p : string) :
  build_category_map layers !! p =
    match p with
    | EmptyString => None
    | _ => snd <$> last (listing_layers layers p)
    end.
Proof.
  unfold build_category_map, listing_layers. destruct p as [|c p].
  - by rewrite table_fold_lookup_empty.
  - rewrite table_fold_lookup by done. by destruct (last _).
Qed.

(** X8.  On the same layers the map of [build_ledger] and the map of
    [metrics] differ at most at the empty path, which only the second
    can hold: the first is the second with that key deleted. *)
Theorem category_maps_agree (scope : Scope) :
  build_category_map (scope_layers scope)
    = delete EmptyString (build_exact_path_to_category scope).
Proof.
  apply map_eq. intros p. unfold build_category_map, build_exact_path_to_category.
  destruct (decide (p = EmptyString)) as [->|Hp].
  - by rewrite table_fold_lookup_empty, lookup_delete_eq.
  - rewrite lookup_delete_ne by done.
    by rewrite table_fold_lookup, exact_fold_lookup.
Qed.
End CategoryLookup.

(** A path listed under [ontology] and under [index] is an [index] path,
    and the empty path is kept by [metrics] only. *)
Example category_precedence :
  let layers : gmap string (list string) :=
    {[ "index" := ["/a"; ""]; "ontology" := ["/a"] ]} in
  build_category_map layers !! "/a" = Some "index" /\
  build_category_map layers !! "" = None /\
  build_exact_path_to_category (mkScope layers []) !! "" = Some "index".
Proof. repeat split; vm_compute; reflexivity. Qed.

(* ------------------------------------------------------------------ *)
(** ** Sessions and the requests they are made of *)

Section RequestFacts.
Context {lib : PyLib}.

(** X9.  [infer_sessions] puts every row of the wanted host into exactly
    one session: the paths of all the sessions together are the paths of
    those rows, each as often as it was requested. *)
Theorem sessions_partition_requests (rows : list LogRow) (site_host salt : string)
    (gap_minutes : Z) (gov_exact_paths : list string)
    (path_to_category : gmap string string) (sessions : list Session) :
  infer_sessions rows site_host salt gap_minutes gov_exact_paths path_to_category
    = Some sessions ->
  flat_map s_path sessions ≡ₚ map path (kept_rows site_host rows) /\
  length (flat_map s_path sessions) = length (kept_rows site_host rows).
Proof.
  intros Hrun.
  assert (flat_map s_path sessions ≡ₚ map path (kept_rows site_host rows)) as Hp.
  { unfold infer_sessions in Hrun. fold (kept_rows site_host rows) in Hrun.
    destruct (timedelta_minutes gap_minutes) as [gap|]; [|discriminate].
    cbn in Hrun. injection Hrun as <-.
    rewrite (Permutation_flat_map s_path (sort_by_Permutation _ _ _)).
    rewrite <- (group_rows_rows salt (kept_rows site_host rows)) at 2.
    induction (group_rows salt (kept_rows site_host rows)) as [|[fp items] g IH];
      [done|].
    change (flat_map s_path
              (group_sessions (list_to_set gov_exact_paths) path_to_category gap fp items
               ++ flat_map (fun g => group_sessions (list_to_set gov_exact_paths)
                                       path_to_category gap g.1 g.2) g)
            ≡ₚ map path (items ++ flat_map snd g)).
    rewrite flat_map_app, map_app, group_sessions_paths.
    by rewrite IH. }
  split; [exact Hp|]. by rewrite (Permutation_length Hp), length_map.
Qed.

(** The rows a session is made of. *)
Lemma session_chunk (rows : list LogRow) (site_host salt : string)
    (gap_minutes : Z) (gov_exact_paths : list string)
    (path_to_category : gmap string string) (sessions : list Session)
    (s : Session) :
  infer_sessions rows site_host salt gap_minutes gov_exact_paths path_to_category
    = Some sessions ->
  In s sessions ->
  exists (fp : string) (chunk : list LogRow),
    chunk <> [] /\
    s_path s = map path chunk /\
    client_fingerprint_hash s = String.substring 0 24 fp /\
    StronglySorted (fun a b => (instant (ts a) <= instant (ts b))%Z) chunk /\
    Forall (fun r => In r rows /\
                     row_fingerprint salt r = fp /\
                     (site_host <> EmptyString -> host r = site_host)) chunk.
Proof.
  intros Hrun Hin.
  destruct (infer_sessions_origin _ _ _ _ _ _ _ _ Hrun Hin)
    as (gap & fp & items & chunk & _ & Hg & Hc & Hs).
  exists fp, chunk.
  assert (chunk <> []) as Hne by (intros ->; destruct Hs).
  split; [done|].
  destruct chunk as [|r0 chunk]; [done|]. destruct Hs as [<-|[]].
  cbn [s_path client_fingerprint_hash]. split; [done|]. split; [done|].
  set (sorted := sort_by Z.leb (fun r => instant (ts r)) items) in *.
  split.
  - apply (sorted_concat_elem _ (walk gap sorted)); [|done].
    rewrite walk_concat.
    apply sort_by_ts_sorted.
  - apply List.Forall_forall. intros r Hr.
    assert (In r items) as Hitems.
    { apply (Permutation_in _ (sort_by_Permutation Z.leb (fun r => instant (ts r)) items)).
      fold sorted. rewrite <- (walk_concat gap sorted).
      apply in_concat. by exists (r0 :: chunk). }
    pose proof (group_rows_keyed salt (kept_rows site_host rows)) as Hk.
    unfold keyed in Hk. rewrite List.Forall_forall in Hk.
    specialize (Hk _ Hg). cbn [fst snd] in Hk. rewrite List.Forall_forall in Hk.
    assert (In r (kept_rows site_host rows)) as Hkept.
    { apply (Permutation_in _ (group_rows_rows salt (kept_rows site_host rows))).
      apply in_flat_map. by exists (fp, items). }
    apply kept_rows_spec in Hkept as [? ?]. auto.
Qed.

(** X10.  A session never mixes clients or hosts: its paths are those of
    a run of input rows, in ascending order of their timestamps, that all
    have the same fingerprint, whose first 24 characters the session
    reports, and all have the wanted host when one is given. *)
Theorem session_has_one_client (rows : list LogRow) (site_host salt : string)
    (gap_minutes : Z) (gov_exact_paths : list string)
    (path_to_category : gmap string string) (sessions : list Session)
    (s : Session) :
  infer_sessions rows site_host salt gap_minutes gov_exact_paths path_to_category
    = Some sessions ->
  In s sessions ->
  exists (fp : string) (chunk : list LogRow),
    chunk <> [] /\
    s_path s = map path chunk /\
    client_fingerprint_hash s = String.substring 0 24 fp /\
    StronglySorted (fun a b => (instant (ts a) <= instant (ts b))%Z) chunk /\
    Forall (fun r => In r rows /\
                     row_fingerprint salt r = fp /\
                     (site_host <> EmptyString -> host r = site_host)) chunk.
Proof. apply session_chunk. Qed.
End RequestFacts.

(* ------------------------------------------------------------------ *)
(** ** Signals *)

Section SignalFacts.
Context {lib : PyLib}.

Lemma in_optional (c : bool) (name x : string) :
  In x (if c then [name] else []) <-> x = name /\ c = true.
Proof. destruct c; cbn; intuition congruence. Qed.

(** The number of paths on the allowlist, as [flush] counts them. *)
Definition gov_hits (gov_set : gset string) (paths : list string) : nat :=
  length (List.filter (is_gov gov_set) paths).

Lemma session_signals_spec (gov_set : gset string) (paths : list string)
    (x : string) :
  In x (session_signals gov_set paths) <->
    (x = "governance_path_hit" /\ 1 <= gov_hits gov_set paths) \/
    (x = "multiple_governance_hits" /\ 2 <= gov_hits gov_set paths) \/
    (x = "yaml_accessed" /\ existsb is_yaml paths = true) \/
    (x = "jsonld_accessed" /\ existsb is_jsonld paths = true) \/
    (x = "path_revisited" /\ size (list_to_set paths : gset string) < length paths) \/
    (x = "yaml_preference_observed" /\
       existsb is_yaml paths = true /\ existsb is_jsonld paths = false) \/
    (x = "systematic_governance_check" /\
       5 <= length paths /\ 3 <= gov_hits gov_set paths).
Proof.
  unfold session_signals, gov_hits. rewrite !in_app_iff, !in_optional.
  rewrite !Nat.leb_le, Nat.ltb_lt, !andb_true_iff, negb_true_iff, !Nat.leb_le.
  assert (forall a b : nat, 0 < a - b <-> b < a) as -> by (intros; lia).
  tauto.
Qed.

Ltac signal_cases H :=
  apply session_signals_spec in H;
  destruct H as [H|[H|[H|[H|[H|[H|H]]]]]]; destruct H as [E H];
  try discriminate E; clear E.

Lemma has_governance_path_hit (gov_set : gset string) (paths : list string) :
  In "governance_path_hit" (session_signals gov_set paths)
    <-> 1 <= gov_hits gov_set paths.
Proof.
  split; [intros H; by signal_cases H|].
  intros H. apply session_signals_spec. left. by split.
Qed.

Lemma has_multiple_governance_hits (gov_set : gset string) (paths : list string) :
  In "multiple_governance_hits" (session_signals gov_set paths)
    <-> 2 <= gov_hits gov_set paths.
Proof.
  split; [intros H; by signal_cases H|].
  intros H. apply session_signals_spec. right. left. by split.
Qed.

Lemma has_yaml_accessed (gov_set : gset string) (paths : list string) :
  In "yaml_accessed" (session_signals gov_set paths)
    <-> existsb is_yaml paths = true.
Proof.
  split; [intros H; by signal_cases H|].
  intros H. apply session_signals_spec. do 2 right. left. by split.
Qed.

Lemma has_jsonld_accessed (gov_set : gset string) (paths : list string) :
  In "jsonld_accessed" (session_signals gov_set paths)
    <-> existsb is_jsonld paths = true.
Proof.
  split; [intros H; by signal_cases H|].
  intros H. apply session_signals_spec. do 3 right. left. by split.
Qed.

Lemma has_path_revisited (gov_set : gset string) (paths : list string) :
  In "path_revisited" (session_signals gov_set paths)
    <-> size (list_to_set paths : gset string) < length paths.
Proof.
  split; [intros H; by signal_cases H|].
  intros H. apply session_signals_spec. do 4 right. left. by split.
Qed.

Lemma has_yaml_preference_observed (gov_set : gset string) (paths : list string) :
  In "yaml_preference_observed" (session_signals gov_set paths)
    <-> existsb is_yaml paths = true /\ existsb is_jsonld paths = false.
Proof.
  split; [intros H; by signal_cases H|].
  intros H. apply session_signals_spec. do 5 right. left. by split.
Qed.

Lemma has_systematic_governance_check (gov_set : gset string) (paths : list string) :
  In "systematic_governance_check" (session_signals gov_set paths)
    <-> 5 <= length paths /\ 3 <= gov_hits gov_set paths.
Proof.
  split; [intros H; by signal_cases H|].
  intros H. apply session_signals_spec. do 6 right. by split.
Qed.

Lemma size_list_to_set_le (l : list string) :
  size (list_to_set l : gset string) <= length l.
Proof.
  induction l as [|x l IH]; [done|]. cbn [list_to_set length].
  pose proof (size_union_alt ({[x]} : gset string) (list_to_set l)) as E.
  rewrite size_singleton in E.
  pose proof (subseteq_size (list_to_set l ∖ {[x]}) (list_to_set l : gset string)
                (subseteq_difference_l _ _ _ (reflexivity _))). lia.
Qed.

Lemma size_list_to_set_NoDup (l : list string) :
  size (list_to_set l : gset string) = length l <-> List.NoDup l.
Proof.
  split.
  - induction l as [|x l IH]; [constructor|]. cbn [list_to_set length]. intros E.
    pose proof (size_list_to_set_le l) as Hle.
    destruct (decide (x ∈ l)) as [Hin|Hout].
    + assert ({[x]} ∪ list_to_set l =@{gset string} list_to_set l) as E'.
      { apply subseteq_union_1_L, singleton_subseteq_l.
        by apply elem_of_list_to_set. }
      rewrite E' in E. lia.
    + rewrite size_union in E
        by (apply disjoint_singleton_l; by rewrite elem_of_list_to_set).
      rewrite size_singleton in E.
      constructor; [by rewrite <- list_elem_of_In|]. apply IH. lia.
  - intros H. apply size_list_to_set. by apply NoDup_ListNoDup.
Qed.

Lemma flush_classification (gov_set : gset string) (cmap : gmap string string)
    (fp : string) (chunk : list LogRow) (s : Session) :
  In s (flush gov_set cmap fp chunk) ->
  s_path s <> [] /\
  signals s = session_signals gov_set (s_path s) /\
  primary_signal s =
    (if bool_decide ("yaml_preference_observed" ∈ signals s)
     then "yaml_preference"
     else if (2 <=? gov_hits gov_set (s_path s))%nat then "governance_sequence"
     else if (gov_hits gov_set (s_path s) =? 1)%nat then "single_governance_hit"
     else "unknown").
Proof.
  destruct chunk as [|r chunk]; [intros []|]. intros [<-|[]]. by cbn.
Qed.

(** X11.  The signals of a session and its primary signal are
    consistent: several governance hits imply one; the systematic check
    implies several hits and at least five requests; the YAML preference
    is observed exactly when a YAML file was accessed and no JSON-LD file
    was; a path counts as revisited exactly when the session requests
    some path twice; the primary signal is [yaml_preference] exactly
    under that preference and [unknown] exactly when there is neither a
    governance hit nor that preference. *)
Theorem signals_are_consistent (rows : list LogRow) (site_host salt : string)
    (gap_minutes : Z) (gov_exact_paths : list string)
    (path_to_category : gmap string string) (sessions : list Session)
    (s : Session) :
  infer_sessions rows site_host salt gap_minutes gov_exact_paths path_to_category
    = Some sessions ->
  In s sessions ->
  (In "multiple_governance_hits" (signals s) ->
     In "governance_path_hit" (signals s)) /\
  (In "systematic_governance_check" (signals s) ->
     In "multiple_governance_hits" (signals s) /\ 5 <= length (s_path s)) /\
  (In "yaml_preference_observed" (signals s) <->
     In "yaml_accessed" (signals s) /\ ~ In "jsonld_accessed" (signals s)) /\
  (In "path_revisited" (signals s) <-> ~ List.NoDup (s_path s)) /\
  (primary_signal s = "yaml_preference" <->
     In "yaml_preference_observed" (signals s)) /\
  (primary_signal s = "unknown" <->
     ~ In "governance_path_hit" (signals s) /\
     ~ In "yaml_preference_observed" (signals s)).
Proof.
  intros Hrun Hin.
  destruct (infer_sessions_origin _ _ _ _ _ _ _ _ Hrun Hin)
    as (gap & fp & items & chunk & _ & _ & _ & Hs).
  apply flush_classification in Hs as (_ & Hsig & Hprim).
  rewrite Hprim. rewrite Hsig. clear Hprim Hsig.
  set (G := list_to_set gov_exact_paths : gset string).
  rewrite has_governance_path_hit, has_multiple_governance_hits,
    has_systematic_governance_check, has_yaml_preference_observed,
    has_yaml_accessed, has_jsonld_accessed, has_path_revisited.
  pose proof (size_list_to_set_le (s_path s)) as Hle.
  pose proof (size_list_to_set_NoDup (s_path s)) as Hnd.
  split; [lia|]. split; [lia|]. split.
  { destruct (existsb is_jsonld (s_path s)); intuition congruence. }
  split.
  { rewrite <- Hnd. lia. }
  case_bool_decide as Hb; rewrite list_elem_of_In, has_yaml_preference_observed in Hb.
  - split; [tauto|]. split; [discriminate|tauto].
  - destruct (Nat.leb_spec 2 (gov_hits G (s_path s))).
    + split; (split; [discriminate|]); [tauto|lia].
    + destruct (Nat.eqb_spec (gov_hits G (s_path s)) 1).
      * split; (split; [discriminate|]); [tauto|lia].
      * split; [split; [discriminate|tauto]|]. split; [intros _|done].
        split; [lia|tauto].
Qed.
Lemma is_gov_empty (p : string) : is_gov ∅ p = true.
Proof. unfold is_gov. by destruct (decide (∅ =@{gset string} ∅)). Qed.

Lemma gov_hits_empty (paths : list string) : gov_hits ∅ paths = length paths.
Proof.
  unfold gov_hits. induction paths as [|p paths IH]; [done|].
  cbn [List.filter]. rewrite is_gov_empty. cbn. by rewrite IH.
Qed.

(** X12.  With an empty allowlist every request counts as a governance
    hit.  Every session then carries [governance_path_hit], one with two
    requests or more carries [multiple_governance_hits], one with five or
    more carries [systematic_governance_check]; the primary signal is
    never [unknown], and it is [single_governance_hit] only for a session
    of one request. *)
Theorem empty_allowlist_counts_every_request (rows : list LogRow)
    (site_host salt : string) (gap_minutes : Z)
    (path_to_category : gmap string string) (sessions : list Session)
    (s : Session) :
  infer_sessions rows site_host salt gap_minutes [] path_to_category
    = Some sessions ->
  In s sessions ->
  In "governance_path_hit" (signals s) /\
  (2 <= length (s_path s) -> In "multiple_governance_hits" (signals s)) /\
  (5 <= length (s_path s) -> In "systematic_governance_check" (signals s)) /\
  primary_signal s <> "unknown" /\
  (primary_signal s = "single_governance_hit" -> length (s_path s) = 1).
Proof.
  intros Hrun Hin.
  destruct (infer_sessions_origin _ _ _ _ _ _ _ _ Hrun Hin)
    as (gap & fp & items & chunk & _ & _ & _ & Hs).
  change (list_to_set [] : gset string) with (∅ : gset string) in Hs.
  apply flush_classification in Hs as (Hne & Hsig & Hprim).
  rewrite Hprim, Hsig. clear Hprim Hsig.
  rewrite has_governance_path_hit, has_multiple_governance_hits,
    has_systematic_governance_check, gov_hits_empty.
  assert (1 <= length (s_path s)) by (destruct (s_path s); [done|cbn; lia]).
  split; [done|]. split; [done|]. split; [lia|].
  destruct (bool_decide _); [split; discriminate|].
  destruct (Nat.leb_spec 2 (length (s_path s))); [split; discriminate|].
  destruct (Nat.eqb_spec (length (s_path s)) 1); [split; [discriminate|done]|lia].
Qed.
End SignalFacts.

Definition three_requests : list LogRow :=
  [request 50 "/b"; request 0 ledger_path; request 10 "/a.yml"].

Lemma sessions_partition_requests_witness :
  exists sessions,
    infer_sessions (lib := stub_lib) three_requests "example.com" "test-salt" 30
      [ledger_path] ∅ = Some sessions /\
    flat_map s_path sessions ≡ₚ map path (kept_rows "example.com" three_requests) /\
    length (flat_map s_path sessions) = length (kept_rows "example.com" three_requests).
Proof.
  eexists. split; [vm_compute; reflexivity|].
  apply (sessions_partition_requests (lib := stub_lib) three_requests
           "example.com" "test-salt" 30 [ledger_path] ∅).
  vm_compute. reflexivity.
Defined.

Lemma session_has_one_client_witness :
  exists s rest,
    infer_sessions (lib := stub_lib) three_requests "example.com" "test-salt" 30
      [ledger_path] ∅ = Some (s :: rest) /\
    exists (fp : string) (chunk : list LogRow),
      chunk <> [] /\
      s_path s = map path chunk /\
      client_fingerprint_hash s = String.substring 0 24 fp /\
      StronglySorted (fun a b => (instant (ts a) <= instant (ts b))%Z) chunk /\
      Forall (fun r => In r three_requests /\
                       row_fingerprint (lib := stub_lib) "test-salt" r = fp /\
                       ("example.com" <> EmptyString -> host r = "example.com")) chunk.
Proof.
  eexists _, _. split; [vm_compute; reflexivity|].
  eapply (session_has_one_client (lib := stub_lib) three_requests
            "example.com" "test-salt" 30 [ledger_path] ∅).
  - vm_compute. reflexivity.
  - left. reflexivity.
Defined.

Lemma signals_are_consistent_witness :
  exists s rest,
    infer_sessions (lib := stub_lib) three_requests "example.com" "test-salt" 30
      [ledger_path] ∅ = Some (s :: rest) /\
    (In "yaml_preference_observed" (signals s) <->
       In "yaml_accessed" (signals s) /\ ~ In "jsonld_accessed" (signals s)) /\
    (primary_signal s = "yaml_preference" <->
       In "yaml_preference_observed" (signals s)).
Proof.
  eexists _, _. split; [vm_compute; reflexivity|].
  pose proof (signals_are_consistent (lib := stub_lib) three_requests
                "example.com" "test-salt" 30 [ledger_path] ∅ _ _
                ltac:(vm_compute; reflexivity) ltac:(left; reflexivity))
    as (_ & _ & H3 & _ & H5 & _).
  split; [exact H3|exact H5].
Defined.

Lemma empty_allowlist_counts_every_request_witness :
  exists s rest,
    infer_sessions (lib := stub_lib) three_requests "example.com" "test-salt" 30
      [] ∅ = Some (s :: rest) /\
    In "governance_path_hit" (signals s) /\ primary_signal s <> "unknown".
Proof.
  eexists _, _. split; [vm_compute; reflexivity|].
  pose proof (empty_allowlist_counts_every_request (lib := stub_lib) three_requests
                "example.com" "test-salt" 30 ∅ _ _
                ltac:(vm_compute; reflexivity) ltac:(left; reflexivity))
    as (H1 & _ & _ & H4 & _).
  split; [exact H1|exact H4].
Defined.

(* ------------------------------------------------------------------ *)
(** ** The chain over several runs, and the state file *)

Section ChainFacts.
Context {lib : PyLib}.

(** What a run that returned has written to the state file. *)
Lemma main_inversion (extra : list string) (inp : RunInputs)
    (files : gmap string string) (ledger : json) (files' : gmap string string) :
  main extra inp files = Some (ledger, files') ->
  exists (site : json) (n : Z) (prev : json),
    let doc := ledger_document inp site n prev in
    let h := canonical_json_hash (JObj doc) in
    ledger = JObj (store_content_hash h doc) /\
    files' !! run_state_path inp =
      Some (state_text [("ledger_sequence", JInt n); ("last_ledger_hash", JStr h)]).
Proof.
  unfold main. intros Hrun.
  destruct (name_bound extra "argparse"); [cbn [negb] in Hrun|done].
  destruct (load_state files (run_state_path inp)) as [state|]; [|done].
  cbn [mbind option_bind] in Hrun.
  destruct (as_obj state) as [st|]; [|done]. cbn [mbind option_bind] in Hrun.
  destruct (py_int _) as [n|]; [|done]. cbn [mbind option_bind] in Hrun.
  destruct (Json.get "site" (run_cfg inp)) as [site|]; [|done].
  cbn [mbind option_bind] in Hrun.
  exists site, (n + 1)%Z, (default JNull (Json.get "last_ledger_hash" st)).
  repeat match type of Hrun with
         | (save_state _ _ _ ≫= _) = Some _ => fail 1
         | (?x ≫= _) = Some _ =>
             destruct x; [cbn [mbind option_bind] in Hrun|done]
         end.
  unfold save_state in Hrun.
  destruct (makedirs _ (dirname (run_state_path inp))); [|done].
  cbn [mbind option_bind] in Hrun.
  destruct (write_file _ _ _) as [written|] eqn:Hw; [|done].
  cbn [mbind option_bind] in Hrun. injection Hrun as <- <-.
  apply write_file_result in Hw as ->.
  split; [reflexivity|]. apply lookup_insert_eq.
Qed.

Lemma load_state_complete (files : gmap string string) (path text : string)
    (state : list (string * json)) (seq hash : json) :
  files !! path = Some text ->
  json_loads text = Some (JObj state) ->
  Json.get "ledger_sequence" state = Some seq ->
  Json.get "last_ledger_hash" state = Some hash ->
  load_state files path = Some (JObj state).
Proof.
  intros Hf Hl Hs Hh. unfold load_state. rewrite Hf, Hl. cbn [mbind option_bind].
  by rewrite Hs, Hh.
Qed.

(** X13.  Two runs in a row on the same state path, in a process where
    [argparse] is bound in the module (as it stands, [main] returns in
    no other), are chained: when the first run returns a ledger with
    sequence [n] and content hash [h], and [json.load] reads the state
    file it wrote back as the state it dumped, the second run, if it
    can finish on the files the first has left, returns a ledger with
    sequence [n + 1] whose previous hash is [h], and leaves the state
    file with that sequence and its own content hash. *)
Theorem consecutive_runs_are_chained (extra : list string)
    (inp1 inp2 : RunInputs) (files files1 : gmap string string)
    (ledger1 : list (string * json)) (n : Z) (h : string) :
  main extra inp1 files = Some (JObj ledger1, files1) ->
  Json.get "ledger_sequence" ledger1 = Some (JInt n) ->
  get2 "integrity" "content_hash_sha256" (JObj ledger1) = Some (JStr h) ->
  json_loads (state_text [("ledger_sequence", JInt n); ("last_ledger_hash", JStr h)])
    = Some (JObj [("ledger_sequence", JInt n); ("last_ledger_hash", JStr h)]) ->
  run_state_path inp2 = run_state_path inp1 ->
  run_can_finish inp2 files1 ->
  chained_run extra inp2 files1 n (JStr h).
Proof.
  intros Hrun Hseq Hhash Hload Hpath Hcfg.
  pose proof (main_needs_argparse _ _ _ _ Hrun) as Harg.
  destruct (main_inversion _ _ _ _ _ Hrun) as (site & n' & prev & Hledger & Hstate).
  cbv zeta in Hledger, Hstate. injection Hledger as ->.
  pose proof (stored_hash inp1 site n' prev
                (canonical_json_hash (JObj (ledger_document inp1 site n' prev)))) as Hst.
  cbv zeta in Hst. destruct Hst as (Hs & _ & Hc & _).
  rewrite Hs in Hseq. injection Hseq as ->. rewrite Hc in Hhash. injection Hhash as E.
  rewrite E in Hstate.
  apply (chained_run_from_state extra inp2 files1
           [("ledger_sequence", JInt n); ("last_ledger_hash", JStr h)]);
    [exact Harg| |reflexivity|reflexivity|exact Hcfg].
  rewrite Hpath. eapply load_state_complete; [exact Hstate|exact Hload|done..].
Qed.

(** X15.  A state file that holds a JSON object without the two keys
    ([{}], say) is read as the state before the first run: in a process
    where [argparse] is bound in the module, a run that can finish gives
    a ledger with sequence 1 and a null previous hash. *)
Theorem state_without_keys_starts_chain (extra : list string) (inp : RunInputs)
    (files : gmap string string) (text : string) (fields : list (string * json)) :
  In "argparse" extra ->
  files !! run_state_path inp = Some text ->
  json_loads text = Some (JObj fields) ->
  Json.get "ledger_sequence" fields = None ->
  Json.get "last_ledger_hash" fields = None ->
  run_can_finish inp files ->
  chained_run extra inp files 0 JNull.
Proof.
  intros Harg Hf Hl Hs Hh Hcfg.
  assert (forall k v (fs : list (string * json)),
             Json.get k (Json.set k v fs) = Some v) as Hgs.
  { intros k v fs. induction fs as [|[k' v'] fs IH]; cbn.
    - by rewrite String.eqb_refl.
    - destruct (String.eqb_spec k' k) as [->|Hne]; cbn.
      + by rewrite String.eqb_refl.
      + by apply String.eqb_neq in Hne as ->. }
  assert (forall k k' v (fs : list (string * json)),
             k <> k' -> Json.get k' (Json.set k v fs) = Json.get k' fs) as Hgo.
  { intros k k' v fs Hne. induction fs as [|[k0 v0] fs IH]; cbn.
    - by apply String.eqb_neq in Hne as ->.
    - destruct (String.eqb_spec k0 k) as [->|Hne0]; cbn.
      + by apply String.eqb_neq in Hne as ->.
      + by rewrite IH. }
  eapply (chained_run_from_state extra inp files
            (Json.set "last_ledger_hash" JNull
               (Json.set "ledger_sequence" (JInt 0) fields)));
    [exact Harg| | | |exact Hcfg].
  - unfold load_state. rewrite Hf, Hl. cbn [mbind option_bind]. rewrite Hs.
    by rewrite Hgo, Hh.
  - by rewrite Hgo, Hgs.
  - by rewrite Hgs.
Qed.

Lemma dirname_bare (p : string) :
  Str.contains "/" p = false -> dirname p = EmptyString.
Proof.
  intros H%contains_false_char. unfold dirname.
  assert (drop_while (fun c => negb (Ascii.eqb c "/")) (rev (Str.to_list p)) = []) as ->.
  { assert (Forall (fun c => c <> "/"%char) (rev (Str.to_list p))) as HF.
    { apply List.Forall_forall. intros c Hc%in_rev ->. done. }
    induction HF as [|c l Hc _ IH]; [done|]. cbn.
    by apply Ascii.eqb_neq in Hc as ->. }
  reflexivity.
Qed.

(** X14.  A state path without a directory part ([ledger-state.json],
    say) makes every run fail, also where [argparse] is bound:
    [os.makedirs] is called on the empty string.  So does a state file
    that does not hold a JSON object: one that cannot be parsed, or
    holds a list, a string, a number, a boolean or [null]. *)
Theorem main_fails_on_bad_state (extra : list string) (inp : RunInputs)
    (files : gmap string string) :
  (Str.contains "/" (run_state_path inp) = false -> main extra inp files = None) /\
  (forall text : string,
      files !! run_state_path inp = Some text ->
      (forall fields, json_loads text <> Some (JObj fields)) ->
      main extra inp files = None).
Proof.
  split.
  - intros Hp%dirname_bare. unfold main, save_state. rewrite Hp.
    destruct (name_bound extra "argparse"); [cbn [negb]|done].
    repeat match goal with
           | |- ((makedirs _ EmptyString ≫= _) ≫= _) = None => reflexivity
           | |- (?x ≫= _) = None => destruct x; [cbn [mbind option_bind]|done]
           end.
  - intros text Hf Hl. unfold main, load_state. rewrite Hf.
    destruct (name_bound extra "argparse"); [cbn [negb]|done].
    destruct (json_loads text) as [[| | | |s|items|fields]|];
      cbn [mbind option_bind]; try done.
    + by destruct (Str.contains _ _ && Str.contains _ _).
    + by destruct (in_array _ _ && in_array _ _).
    + by destruct (Hl fields).
Qed.
End ChainFacts.

(** A library whose [json_loads] reads two state files: [{}], and the one
    the first run of [demo_run] leaves behind. *)
Definition first_state : list (string * json) :=
  Eval vm_compute in
    match main (lib := base_lib) ["argparse"] demo_run ∅ with
    | Some (JObj ledger, _) =>
        [("ledger_sequence", default JNull (Json.get "ledger_sequence" ledger));
         ("last_ledger_hash",
          default JNull (get2 "integrity" "content_hash_sha256" (JObj ledger)))]
    | _ => []
    end.

Definition first_text : string :=
  Eval vm_compute in state_text (lib := base_lib) first_state.

Definition chain_lib : PyLib := {|
  sha256_hex := sha256_hex (PyLib := base_lib);
  isoformat := isoformat (PyLib := base_lib);
  fromisoformat := fromisoformat (PyLib := base_lib);
  fromtimestamp_ms := fromtimestamp_ms (PyLib := base_lib);
  float_repr := float_repr (PyLib := base_lib);
  yaml_safe_dump := yaml_safe_dump (PyLib := base_lib);
  json_loads := fun text =>
    if String.eqb text "{}" then Some (JObj [])
    else if String.eqb text first_text then Some (JObj first_state)
    else None;
  int_of_str := int_of_str (PyLib := base_lib);
  container_str := container_str (PyLib := base_lib);
  os_makedirs_ok := os_makedirs_ok (PyLib := base_lib);
  os_open_w_ok := os_open_w_ok (PyLib := base_lib);
|}.

(** The first run of [demo_run], on an empty file system. *)
Definition first_run : option (json * gmap string string) :=
  main (lib := chain_lib) ["argparse"] demo_run ∅.

Definition first_ledger : list (string * json) :=
  match first_run with Some (JObj ledger, _) => ledger | _ => [] end.

Definition first_files : gmap string string :=
  match first_run with Some (_, files) => files | None => ∅ end.

Definition first_hash : string :=
  match Json.get "last_ledger_hash" first_state with Some (JStr h) => h | _ => EmptyString end.

Ltac demo_run_finishes :=
  exists (JStr "https://example.com/"),
    [("json", JStr "out/q-ledger.json"); ("yaml", JStr "out/q-ledger.yml")],
    "out/q-ledger.json", "out/q-ledger.yml", None;
  cbv zeta;
  do 11 (split; [vm_compute; first [exact I | reflexivity]|]);
  vm_compute; reflexivity.

Lemma consecutive_runs_are_chained_witness :
  main (lib := chain_lib) ["argparse"] demo_run ∅ = Some (JObj first_ledger, first_files) /\
  chained_run (lib := chain_lib) ["argparse"] demo_run first_files 1 (JStr first_hash).
Proof.
  split; [vm_compute; reflexivity|].
  apply (consecutive_runs_are_chained (lib := chain_lib) ["argparse"]
           demo_run demo_run ∅ first_files first_ledger 1 first_hash).
  - vm_compute. reflexivity.
  - vm_compute. reflexivity.
  - vm_compute. reflexivity.
  - vm_compute. reflexivity.
  - reflexivity.
  - demo_run_finishes.
Defined.

Lemma state_without_keys_starts_chain_witness :
  chained_run (lib := chain_lib) ["argparse"] demo_run {[ state_file := "{}" ]} 0 JNull.
Proof.
  apply (state_without_keys_starts_chain (lib := chain_lib) ["argparse"] demo_run
           {[ state_file := "{}" ]} "{}" []).
  - by left.
  - vm_compute. reflexivity.
  - reflexivity.
  - reflexivity.
  - reflexivity.
  - demo_run_finishes.
Defined.

Lemma main_fails_on_bad_state_witness :
  main (lib := chain_lib) ["argparse"]
    {| run_cfg := run_cfg demo_run; run_state_path := "ledger-state.json";
       run_gap_minutes := 30; run_ingest_stats := []; run_sessions := [];
       run_now := DateTime 0 0 |} ∅ = None /\
  main (lib := chain_lib) ["argparse"] demo_run {[ state_file := "[1, 2" ]} = None.
Proof.
  split.
  - apply (proj1 (main_fails_on_bad_state (lib := chain_lib) ["argparse"] _ ∅)).
    vm_compute. reflexivity.
  - apply (proj2 (main_fails_on_bad_state (lib := chain_lib) ["argparse"] demo_run
                    {[ state_file := "[1, 2" ]}) "[1, 2").
    + vm_compute. reflexivity.
    + intros fields. vm_compute. discriminate.
Defined.

(* ------------------------------------------------------------------ *)
(** ** Normalized categories ([metrics.py]) *)

(** [compress_consecutive] by recursion on the list: the first of two
    equal neighbours is dropped. *)
Fixpoint collapse_runs (items : list string) : list string :=
  match items with
  | x :: (y :: _) as rest =>
      if String.eqb x y then collapse_runs rest else x :: collapse_runs rest
  | _ => items
  end.

(** No two neighbours of the list are equal. *)
Definition no_repeat (items : list string) : Prop :=
  Forall (fun p => p.1 <> p.2) (adjacent items).

(** The categories [normalize_categories_for_metrics] keeps. *)
Definition kept_category (c : string) : bool :=
  negb (String.eqb c "") && negb (String.eqb c "other").

Section CompressFacts.
Let step (out : list string) (x : string) : list string :=
  match last out with
  | Some y => if String.eqb y x then out else out ++ [x]
  | None => out ++ [x]
  end.

Lemma compress_fold (out : list string) (z : string) (items : list string) :
  fold_left step items (out ++ [z]) = out ++ collapse_runs (z :: items).
Proof.
  revert out z. induction items as [|x items IH]; intros out z; [done|].
  cbn [fold_left]. unfold step at 2. rewrite last_snoc.
  change (collapse_runs (z :: x :: items))
    with (if String.eqb z x then collapse_runs (x :: items)
          else z :: collapse_runs (x :: items)).
  destruct (String.eqb_spec z x) as [->|Hne].
  - apply IH.
  - rewrite IH, <- app_assoc. reflexivity.
Qed.

Lemma compress_consecutive_collapse (items : list string) :
  compress_consecutive items = collapse_runs items.
Proof.
  destruct items as [|z items]; [done|].
  unfold compress_consecutive. cbn [fold_left last app].
  apply (compress_fold [] z items).
Qed.

Lemma collapse_runs_cons (x y : string) (l : list string) :
  collapse_runs (x :: y :: l) =
    if String.eqb x y then collapse_runs (y :: l) else x :: collapse_runs (y :: l).
Proof. reflexivity. Qed.

Lemma collapse_runs_head (x : string) (l : list string) :
  exists t, collapse_runs (x :: l) = x :: t.
Proof.
  revert x. induction l as [|y l IH]; intros x; [by exists []|].
  rewrite collapse_runs_cons. destruct (String.eqb_spec x y) as [->|_]; [apply IH|].
  eauto.
Qed.

Lemma collapse_runs_no_repeat (l : list string) : no_repeat (collapse_runs l).
Proof.
  unfold no_repeat. induction l as [|x [|y l] IH]; [constructor..|].
  rewrite collapse_runs_cons. destruct (String.eqb_spec x y) as [->|Hne]; [exact IH|].
  destruct (collapse_runs_head y l) as [t E]. rewrite E in IH |- *.
  cbn [adjacent]. by constructor.
Qed.

Lemma collapse_runs_sublist (l : list string) : sublist (collapse_runs l) l.
Proof.
  induction l as [|x [|y l] IH]; [done..|].
  rewrite collapse_runs_cons. destruct (String.eqb x y).
  - by apply sublist_cons.
  - by apply sublist_skip.
Qed.

Lemma collapse_runs_In (l : list string) (x : string) :
  In x l -> In x (collapse_runs l).
Proof.
  induction l as [|y [|z l] IH]; [done..|].
  rewrite collapse_runs_cons. intros [<-|Hin].
  - destruct (String.eqb_spec y z) as [->|_]; [|by left].
    apply IH. by left.
  - destruct (String.eqb y z); [by apply IH|]. right. by apply IH.
Qed.

Lemma collapse_runs_fixed (l : list string) :
  no_repeat l -> collapse_runs l = l.
Proof.
  unfold no_repeat. induction l as [|x [|y l] IH]; [done..|].
  cbn [adjacent]. intros [Hne Hrest]%Forall_cons. cbn [fst snd] in Hne.
  rewrite collapse_runs_cons. apply String.eqb_neq in Hne as ->.
  f_equal. by apply IH.
Qed.

(** X16.  [compress_consecutive] returns a sublist of its input in
    which no two neighbours are equal; it keeps the first element and
    every value that occurs; a list without equal neighbours is returned
    as it is, so the function is idempotent. *)
Theorem compress_consecutive_spec (items : list string) :
  no_repeat (compress_consecutive items) /\
  sublist (compress_consecutive items) items /\
  (forall x, In x (compress_consecutive items) <-> In x items) /\
  head (compress_consecutive items) = head items /\
  (no_repeat items -> compress_consecutive items = items) /\
  compress_consecutive (compress_consecutive items) = compress_consecutive items.
Proof.
  rewrite !compress_consecutive_collapse.
  split; [apply collapse_runs_no_repeat|].
  split; [apply collapse_runs_sublist|].
  split; [|split; [|split]].
  - intros x. split; [|apply collapse_runs_In].
    intros Hin%list_elem_of_In. apply list_elem_of_In.
    eapply elem_of_sublist; [exact Hin|apply collapse_runs_sublist].
  - destruct items as [|x l]; [done|].
    by destruct (collapse_runs_head x l) as [t ->].
  - apply collapse_runs_fixed.
  - apply collapse_runs_fixed, collapse_runs_no_repeat.
Qed.

(** X17.  The normalized categories of a session hold neither [other]
    nor the empty string, no two neighbours are equal, and normalizing
    them again changes nothing. *)
Theorem normalize_categories_spec (cats : list string) :
  let normal := normalize_categories_for_metrics cats in
  ~ In "other" normal /\ ~ In "" normal /\
  no_repeat normal /\
  normalize_categories_for_metrics normal = normal.
Proof.
  cbv zeta. unfold normalize_categories_for_metrics.
  fold kept_category.
  assert (forall x, In x (compress_consecutive (List.filter kept_category cats)) ->
                    kept_category x = true) as Hkept.
  { intros x Hin. rewrite compress_consecutive_collapse in Hin.
    apply list_elem_of_In in Hin.
    eapply elem_of_sublist in Hin; [|apply collapse_runs_sublist].
    apply list_elem_of_In, filter_In in Hin. tauto. }
  split; [intros H%Hkept; discriminate H|].
  split; [intros H%Hkept; discriminate H|].
  split; [rewrite compress_consecutive_collapse; apply collapse_runs_no_repeat|].
  assert (List.filter kept_category
            (compress_consecutive (List.filter kept_category cats))
          = compress_consecutive (List.filter kept_category cats)) as ->.
  { induction (compress_consecutive (List.filter kept_category cats)) as [|x l IH];
      [done|].
    cbn [List.filter]. rewrite (Hkept x) by (by left). f_equal.
    apply IH. intros y Hy. apply Hkept. by right. }
  rewrite !compress_consecutive_collapse.
  apply collapse_runs_fixed, collapse_runs_no_repeat.
Qed.
End CompressFacts.

(* ------------------------------------------------------------------ *)
(** ** Matching and counting ([metrics.compute_q_metrics]) *)

Section MatchFacts.
Lemma sublist_collapse_runs (e l : list string) :
  no_repeat e -> sublist e l -> sublist e (collapse_runs l).
Proof.
  revert e. induction l as [|x l IH]; intros e He Hs; [done|].
  destruct l as [|y l]; [done|].
  rewrite collapse_runs_cons. destruct (String.eqb_spec x y) as [->|Hne].
  - apply IH; [done|].
    apply sublist_cons_r in Hs as [Hs|(e' & -> & Hs)]; [done|].
    apply sublist_cons_r in Hs as [Hs|(e'' & -> & Hs)].
    + by apply sublist_skip.
    + unfold no_repeat in He. cbn [adjacent] in He.
      apply Forall_cons in He as [He _]. done.
  - apply sublist_cons_r in Hs as [Hs|(e' & -> & Hs)].
    + apply sublist_cons. by apply IH.
    + apply sublist_skip. apply IH; [|done].
      unfold no_repeat in *. destruct e' as [|z e']; [constructor|].
      cbn [adjacent] in He. by apply Forall_cons in He as [_ He].
Qed.

Lemma collapse_runs_map (f : string -> string) (l : list string) :
  collapse_runs (map f (collapse_runs l)) = collapse_runs (map f l).
Proof.
  induction l as [|x l IH]; [done|]. destruct l as [|y l]; [done|].
  rewrite collapse_runs_cons. destruct (String.eqb_spec x y) as [->|Hne].
  - rewrite IH. cbn [map]. rewrite (collapse_runs_cons (f y) (f y)).
    by rewrite String.eqb_refl.
  - destruct (collapse_runs_head y l) as [t E]. rewrite E in IH |- *.
    cbn [map] in IH |- *. rewrite !(collapse_runs_cons (f x) (f y)).
    by rewrite IH.
Qed.

Lemma sublist_filter_kept (K : string -> bool) (e l : list string) :
  Forall (fun c => K c = true) e ->
  sublist e (List.filter K l) <-> sublist e l.
Proof.
  intros He. split.
  - intros Hs. etrans; [exact Hs|]. clear.
    induction l as [|x l IH]; [done|]. cbn. destruct (K x).
    + by apply sublist_skip.
    + by apply sublist_cons.
  - intros Hs. induction Hs as [|x e l Hs IH|x e l Hs IH]; [done| |].
    + apply Forall_cons in He as [Hx He]. cbn. rewrite Hx.
      apply sublist_skip. by apply IH.
    + cbn. destruct (K x); [apply sublist_cons|]; by apply IH.
Qed.

Lemma map_canon_kept (cats : list string) :
  map_canon_to_constraints_for_checks (List.filter kept_category cats)
    = List.filter kept_category (map_canon_to_constraints_for_checks cats).
Proof.
  unfold map_canon_to_constraints_for_checks.
  induction cats as [|c cats IH]; [done|]. cbn [List.filter map].
  destruct (String.eqb_spec c "canon") as [->|Hc].
  - cbn. by rewrite IH.
  - destruct (kept_category c); cbn [map]; rewrite IH; [|done].
    by apply String.eqb_neq in Hc as ->.
Qed.

(** X18.  For a pattern that repeats no category twice in a row and
    names neither [other] nor the empty category, normalizing a session's
    categories does not change whether the session matches: with
    [canon] read as [constraints], the normalized list matches exactly
    when the raw list does.  The governance-only pattern is such a
    pattern. *)
Theorem normalization_keeps_matches (cats pattern : list string) :
  no_repeat pattern ->
  Forall (fun c => kept_category c = true) pattern ->
  subsequence_match
    (map_canon_to_constraints_for_checks (normalize_categories_for_metrics cats))
    pattern
  = subsequence_match (map_canon_to_constraints_for_checks cats) pattern.
Proof.
  intros Hrep Hkept. apply eq_true_iff_eq. rewrite !subsequence_match_spec.
  unfold normalize_categories_for_metrics. fold kept_category.
  rewrite compress_consecutive_collapse.
  rewrite <- (sublist_filter_kept kept_category pattern
                (map_canon_to_constraints_for_checks cats) Hkept).
  rewrite <- map_canon_kept.
  generalize (List.filter kept_category cats). intros l.
  unfold map_canon_to_constraints_for_checks.
  set (f := fun c : string => if String.eqb c "canon" then "constraints" else c).
  split.
  - intros Hs. etrans; [exact Hs|].
    apply (fmap_sublist f), collapse_runs_sublist.
  - intros Hs. apply sublist_collapse_runs in Hs; [|done].
    rewrite <- collapse_runs_map in Hs.
    etrans; [exact Hs|]. apply collapse_runs_sublist.
Qed.
End MatchFacts.

Lemma normalization_keeps_matches_witness :
  subsequence_match
    (map_canon_to_constraints_for_checks
       (normalize_categories_for_metrics
          ["entrypoint"; "other"; "canon"; "canon"; "ontology"]))
    expected_pattern_governance_only
  = subsequence_match
      (map_canon_to_constraints_for_checks
         ["entrypoint"; "other"; "canon"; "canon"; "ontology"])
      expected_pattern_governance_only.
Proof.
  apply (normalization_keeps_matches
           ["entrypoint"; "other"; "canon"; "canon"; "ontology"]
           expected_pattern_governance_only).
  - unfold no_repeat. cbn. repeat constructor; discriminate.
  - repeat constructor.
Defined.

(** A declared pattern that repeats a category is another matter: the
    raw categories match it, the normalized ones cannot. *)
Example repeated_pattern_never_matches :
  subsequence_match (map_canon_to_constraints_for_checks ["index"; "index"])
    ["index"; "index"] = true /\
  subsequence_match
    (map_canon_to_constraints_for_checks
       (normalize_categories_for_metrics ["index"; "index"]))
    ["index"; "index"] = false.
Proof. split; vm_compute; reflexivity. Qed.

Section CounterFacts.
Variable full : list string.
Variable content : bool.
Variable exact_map : gmap string string.

Let declared : bool := match full with [] => false | _ => content end.

(** What the loop over the sessions keeps true of its counters. *)
Definition counters_inv (governance_only : bool) (c : Counters) : Prop :=
  entrypoint_first c + escaped c <= total c /\
  constraints_touched c <= total c /\
  seq_match c <= total c /\
  (governance_only = true ->
     seq_match c <= constraints_touched c /\
     seq_match c + escaped c <= total c).

Lemma governance_match (cats : list string) :
  subsequence_match cats expected_pattern_governance_only = true ->
  str_in "entrypoint" cats = true /\ str_in "constraints" cats = true.
Proof.
  intros Hs%subsequence_match_spec.
  split; apply str_in_In, list_elem_of_In;
    (eapply elem_of_sublist; [|exact Hs]); unfold expected_pattern_governance_only;
    set_solver.
Qed.

Lemma first_is_checked (first : string) (cats : list string) :
  String.eqb first "entrypoint" = true ->
  str_in "entrypoint" (map_canon_to_constraints_for_checks (first :: cats)) = true.
Proof. intros ->%String.eqb_eq. reflexivity. Qed.

Lemma count_session_inv (c : Counters) (s : Session) :
  counters_inv (negb declared) c ->
  counters_inv (negb declared) (count_session full content exact_map c s).
Proof.
  unfold counters_inv, count_session. fold declared.
  destruct (session_categories exact_map s) as [|first cats]; [done|].
  cbn [total entrypoint_first constraints_touched escaped seq_match].
  set (cfc := map_canon_to_constraints_for_checks (first :: cats)).
  pose proof (first_is_checked first cats) as Hfirst. fold cfc in Hfirst.
  pose proof (governance_match cfc) as Hgov.
  destruct declared; cbn [negb].
  - intros (H1 & H2 & H3 & _).
    destruct (String.eqb first "entrypoint"); [rewrite Hfirst by done|];
      destruct (str_in "constraints" cfc), (str_in "entrypoint" cfc),
        (existsb _ cfc), (subsequence_match cfc full);
      cbn [bump negb andb]; (split; [lia|split; [lia|split; [lia|done]]]).
  - intros (H1 & H2 & H3 & H4). specialize (H4 eq_refl) as [H4 H5].
    destruct (subsequence_match cfc expected_pattern_governance_only).
    + destruct (Hgov eq_refl) as [-> ->].
      destruct (String.eqb first "entrypoint"), (existsb _ cfc);
        cbn [bump negb andb]; (split; [lia|split; [lia|split; [lia|intros _; lia]]]).
    + destruct (String.eqb first "entrypoint"); [rewrite Hfirst by done|];
        destruct (str_in "constraints" cfc), (str_in "entrypoint" cfc),
          (existsb _ cfc);
        cbn [bump negb andb]; (split; [lia|split; [lia|split; [lia|intros _; lia]]]).
Qed.

Lemma count_sessions_inv (sessions : list Session) (c : Counters) :
  counters_inv (negb declared) c ->
  counters_inv (negb declared)
    (fold_left (count_session full content exact_map) sessions c).
Proof.
  revert c. induction sessions as [|s sessions IH]; intros c Hc; [done|].
  cbn [fold_left]. by apply IH, count_session_inv.
Qed.
End CounterFacts.

Section CounterTheorems.
Context {lib : PyLib}.

(** X19.  The counters of [compute_q_metrics] are bounded by the number
    of counted sessions, so every rate lies between 0 and 1; a session is
    never counted both as entering by the entrypoint and as escaped; and
    in governance-only mode a session that matches has touched the
    constraints and has not escaped. *)
Theorem counters_are_bounded (sessions : list Session) (scope : option Scope) :
  let m := compute_q_metrics sessions scope in
  total m <= length sessions /\
  entrypoint_first m + escaped m <= total m /\
  constraints_touched m <= total m /\
  seq_match m <= total m /\
  (governance_only_mode m = true ->
     seq_match m <= constraints_touched m /\
     seq_match m + escaped m <= total m).
Proof.
  cbv zeta.
  destruct (compute_q_metrics_counts sessions scope) as (Ht & _ & _ & Hg).
  split; [rewrite Ht; apply filter_length_le|].
  pose proof (count_sessions_inv (compute_expected_patterns scope).1
                (observed_any_content (scope_exact_map scope) sessions)
                (scope_exact_map scope) sessions (mkCounters 0 0 0 0 0 false None))
    as Hinv.
  unfold counters_inv in Hinv.
  cbn [total entrypoint_first constraints_touched escaped seq_match] in Hinv.
  destruct Hinv as (H1 & H2 & H3 & H4); [repeat split; lia|].
  fold (compute_q_metrics sessions scope) in H1, H2, H3, H4.
  split; [exact H1|]. split; [exact H2|]. split; [exact H3|].
  intros Hmode. apply H4. rewrite Hmode in Hg. symmetry in Hg.
  by apply andb_true_iff in Hg as [_ Hg].
Qed.

Lemma all_other_normalizes_to_nil (cats : list string) :
  Forall (fun c => c = "other") cats ->
  normalize_categories_for_metrics cats = [].
Proof.
  intros H. unfold normalize_categories_for_metrics.
  assert (List.filter
            (fun c => negb (String.eqb c "") && negb (String.eqb c "other")) cats = [])
    as ->; [|done].
  induction H as [|c cats -> _ IH]; [done|]. exact IH.
Qed.

(** X20.  A ledger whose sessions were inferred with an empty category
    map (no governance scope was found) gives no metrics, whatever scope
    [metrics.py] is given: every category is [other], no session is
    counted, every counter stays at zero, no pattern is recorded, and the
    sequence fidelity is null. *)
Theorem unscoped_ledger_has_no_metrics (rows : list LogRow)
    (site_host salt : string) (gap_minutes : Z) (gov_exact_paths : list string)
    (sessions : list Session) (scope : option Scope) :
  infer_sessions rows site_host salt gap_minutes gov_exact_paths ∅ = Some sessions ->
  compute_q_metrics sessions scope = mkCounters 0 0 0 0 0 false None /\
  sequence_fidelity (compute_q_metrics sessions scope) = None.
Proof.
  intros Hrun.
  assert (compute_q_metrics sessions scope = mkCounters 0 0 0 0 0 false None) as E;
    [|by rewrite E].
  assert (forall s, In s sessions -> session_categories (scope_exact_map scope) s = [])
    as Hcats.
  { intros s Hin.
    destruct (infer_sessions_elem _ _ _ _ _ _ _ _ Hrun Hin) as (fp & chunk & Hs).
    apply flush_elem in Hs as (Hne & _ & Hc & _).
    unfold session_categories. rewrite Hc.
    destruct chunk as [|r chunk]; [done|]. cbn [map].
    apply all_other_normalizes_to_nil. constructor; [done|].
    apply Forall_forall. intros c Hin'%list_elem_of_In.
    apply in_map_iff in Hin' as (p & <- & _). reflexivity. }
  clear Hrun. unfold compute_q_metrics. fold (scope_exact_map scope).
  generalize (mkCounters 0 0 0 0 0 false None) as c.
  generalize (compute_expected_patterns scope).1 as full.
  generalize (observed_any_content (scope_exact_map scope) sessions) as content.
  induction sessions as [|s sessions IH]; intros content full c; [done|].
  cbn [fold_left]. unfold count_session at 2.
  rewrite (Hcats s) by (by left). apply IH.
  intros s' Hs'. apply Hcats. by right.
Qed.
End CounterTheorems.

Lemma unscoped_ledger_has_no_metrics_witness :
  exists sessions,
    infer_sessions (lib := stub_lib) three_requests "example.com" "test-salt" 30
      [ledger_path] ∅ = Some sessions /\
    compute_q_metrics sessions None = mkCounters 0 0 0 0 0 false None /\
    sequence_fidelity (compute_q_metrics sessions None) = None.
Proof.
  eexists. split; [vm_compute; reflexivity|].
  apply (unscoped_ledger_has_no_metrics (lib := stub_lib) three_requests
           "example.com" "test-salt" 30 [ledger_path]).
  vm_compute. reflexivity.
Defined.

Import FloatFacts.

(* ------------------------------------------------------------------ *)
(** ** Floats: a count divided by itself *)

Module RatioFacts.
Local Open Scope Z_scope.

Lemma div_eucl_shift (m : positive) :
  Z.div_eucl (Z.shiftl (Z.pos m) 53) (Z.pos m) = (2 ^ 53, 0).
Proof.
  pose proof (Z_div_mod (Z.shiftl (Z.pos m) 53) (Z.pos m) ltac:(lia)) as H.
  destruct (Z.div_eucl _ _) as [q r]. destruct H as [E B].
  rewrite Z.shiftl_mul_pow2 in E by lia.
  assert (q = 2 ^ 53) as -> by nia.
  f_equal. nia.
Qed.

(** A finite float divided by itself is 1. *)
Lemma div_same (x : float) (s : bool) (m : positive) (e : Z) :
  Prim2SF x = S754_finite s m e -> (x / x)%float = 1%float.
Proof.
  intros E. rewrite <- (SF2Prim_Prim2SF (x / x)), FloatAxioms.div_spec, E.
  unfold SF64div, SFdiv, SFdiv_core_binary.
  replace (Zdigits2 (Z.pos m) + e - (Zdigits2 (Z.pos m) + e)) with 0 by lia.
  replace (e - e) with 0 by lia.
  change (Z.min (fexp prec emax 0) 0) with (-53).
  change (0 - -53) with 53.
  cbv iota. change (IntDef.Z.div_eucl (Z.shiftl (Z.pos m) 53) (Z.pos m))
    with (Z.div_eucl (Z.shiftl (Z.pos m) 53) (Z.pos m)).
  rewrite div_eucl_shift. unfold new_location.
  destruct (Z.even (Z.pos m)), s; vm_compute; reflexivity.
Qed.

Lemma digits2_iter (p : positive) (k : positive) :
  digits2_pos (Pos.iter xO p k) = (digits2_pos p + k)%positive.
Proof.
  induction k as [|k IH] using Pos.peano_ind.
  - cbn. lia.
  - rewrite Pos.iter_succ. cbn [digits2_pos]. rewrite IH. lia.
Qed.

(** A positive count below [2^53] converts to a finite float. *)
Lemma float_of_nat_finite (n : nat) :
  (0 < n)%nat -> Z.of_nat n < 2 ^ 53 ->
  exists (m : positive) (e : Z),
    Prim2SF (Py.float_of_nat n) = S754_finite false m e.
Proof.
  intros Hpos Hlt. unfold Py.float_of_nat.
  rewrite of_uint63_spec, Uint63.of_Z_spec.
  rewrite Z.mod_small; cycle 1.
  { split; [lia|]. eapply Z.lt_trans; [exact Hlt|]. reflexivity. }
  destruct (Z.of_nat n) as [|p|p] eqn:En; [lia| |lia].
  unfold binary_normalize, binary_round.
  pose proof (digits2_pos_bounds p) as Hd.
  set (d := digits2_pos p) in *.
  assert (Z.pos d <= 53) as Hd53.
  { destruct (Z.le_gt_cases (Z.pos d) 53) as [?|Hgt]; [done|].
    assert (2 ^ 53 <= 2 ^ (Z.pos d - 1)) by (apply Z.pow_le_mono_r; lia). lia. }
  assert (fexp prec emax (Z.pos d + 0) = Z.pos d - 53) as Hf.
  { unfold fexp, SpecFloat.emin, prec, emax. lia. }
  rewrite Hf. unfold shl_align.
  assert (exists mz ez,
             (match Z.pos d - 53 - 0 with
              | Z.neg k => (Pos.iter xO p k, Z.pos d - 53)
              | _ => (p, 0)
              end) = (mz, ez) /\
             Z.pos (digits2_pos mz) + ez = 53 + ez /\ -52 <= ez <= 0)
    as (mz & ez & -> & Hmz & Hez).
  { destruct (Z.pos d - 53 - 0) as [|k|k] eqn:Ek; [|lia|].
    - exists p, 0. fold d. split; [done|]. lia.
    - exists (Pos.iter xO p k), (Z.pos d - 53). split; [done|].
      rewrite digits2_iter. fold d. lia. }
  unfold binary_round_aux, shr_fexp. cbn [Zdigits2 shr_record_of_loc].
  assert (fexp prec emax (Z.pos (digits2_pos mz) + ez) - ez = 0) as ->.
  { rewrite Hmz. unfold fexp, SpecFloat.emin, prec, emax. lia. }
  cbn [shr shr_m loc_of_shr_record round_nearest_even Zdigits2 shr_record_of_loc].
  assert (fexp prec emax (Z.pos (digits2_pos mz) + ez) - ez = 0) as ->.
  { rewrite Hmz. unfold fexp, SpecFloat.emin, prec, emax. lia. }
  cbn [shr shr_m].
  assert ((ez <=? emax - prec) = true) as -> by (apply Z.leb_le; unfold emax, prec; lia).
  by exists mz, ez.
Qed.

Lemma truediv_same (n : nat) :
  (0 < n)%nat -> Z.of_nat n < 2 ^ 53 -> Py.truediv n n = 1%float.
Proof.
  intros Hpos Hlt. destruct (float_of_nat_finite n Hpos Hlt) as (m & e & E).
  unfold Py.truediv. by apply (div_same _ false m e).
Qed.

End RatioFacts.

(* ------------------------------------------------------------------ *)
(** ** Floats: [round(x, 2)] against the thresholds of the level *)

Module LevelFacts.
Local Open Scope Z_scope.

(** The number of hundredths [round(x, 2)] reads its result back from. *)
Definition hundredths (x : float) : Z :=
  match Prim2SF x with
  | S754_finite _ m e => Py.round_half_even_div (100 * Z.pos m) (2 ^ (- e))
  | _ => 0
  end.

(** A float between 0.05 and 0.95. *)
Lemma clamped_shape (x : float) :
  (0.05 <=? x)%float = true -> (x <=? 0.95)%float = true ->
  exists (m : positive) (e : Z),
    Prim2SF x = S754_finite false m e /\
    -57 <= e <= -53 /\
    2 ^ 52 <= Z.pos m < 2 ^ 53 /\
    (e = -57 -> 7205759403792794 <= Z.pos m) /\
    (e = -53 -> Z.pos m <= 8556839292003942).
Proof.
  intros Hlo Hhi. rewrite leb_spec in Hlo, Hhi.
  pose proof (Prim2SF_valid x) as Hv.
  change (Prim2SF 0.05%float) with (S754_finite false 7205759403792794 (-57)) in Hlo.
  change (Prim2SF 0.95%float) with (S754_finite false 8556839292003942 (-53)) in Hhi.
  destruct (Prim2SF x) as [s|s| |s m e]; try discriminate.
  - destruct s; discriminate.
  - destruct s; [discriminate|].
    apply SFleb_pos_finite in Hlo, Hhi.
    assert (-57 <= e <= -53) as He
      by (destruct Hlo as [?|[? _]], Hhi as [?|[? _]]; lia).
    apply valid_finite_digits in Hv; [|clear Hlo Hhi; lia].
    exists m, e. split; [reflexivity|]. split; [exact He|]. split; [exact Hv|]. split.
    + intros ->. destruct Hlo as [Hlt|[_ H]]; [clear Hhi Hv; lia|exact H].
    + intros ->. destruct Hhi as [Hlt|[_ H]]; [clear Hlo Hv; lia|exact H].
Qed.

Lemma round2_hundredths (x : float) :
  (0.05 <=? x)%float = true -> (x <=? 0.95)%float = true ->
  Py.round2 x = Py.nearest_quotient false (hundredths x) 100 /\
  5 <= hundredths x <= 95.
Proof.
  intros Hlo Hhi.
  destruct (clamped_shape x Hlo Hhi) as (m & e & E & He & Hm & H57 & H53).
  unfold Py.round2, hundredths. rewrite E.
  destruct (Z.leb_spec 0 e); [lia|]. split; [reflexivity|].
  assert (e = -57 \/ e = -56 \/ e = -55 \/ e = -54 \/ e = -53) as Hcases by lia.
  change (2 ^ 52) with 4503599627370496 in Hm.
  change (2 ^ 53) with 9007199254740992 in Hm.
  split.
  - apply round_half_even_div_lower; [apply Z.pow_pos_nonneg; lia|].
    destruct Hcases as [->|[->|[->|[->| ->]]]]; cbn [Z.opp];
      change (2 ^ 57) with 144115188075855872;
      change (2 ^ 56) with 72057594037927936;
      change (2 ^ 55) with 36028797018963968;
      change (2 ^ 54) with 18014398509481984;
      change (2 ^ 53) with 9007199254740992; lia.
  - apply round_half_even_div_upper; [apply Z.pow_pos_nonneg; lia|].
    destruct Hcases as [->|[->|[->|[->| ->]]]]; cbn [Z.opp];
      change (2 ^ 57) with 144115188075855872;
      change (2 ^ 56) with 72057594037927936;
      change (2 ^ 55) with 36028797018963968;
      change (2 ^ 54) with 18014398509481984;
      change (2 ^ 53) with 9007199254740992; lia.
Qed.

Lemma SFleb_pos_finite_false (m1 m2 : positive) (e1 e2 : Z) :
  SFleb (S754_finite false m1 e1) (S754_finite false m2 e2) = false ->
  e2 < e1 \/ (e1 = e2 /\ (m2 < m1)%positive).
Proof.
  unfold SFleb, SFcompare.
  destruct (Z.compare_spec e1 e2) as [->|?|?]; try (intros; lia || discriminate).
  intros H. right. split; [done|].
  change (Pos.compare_cont Eq m1 m2) with (Pos.compare m1 m2) in H.
  destruct (Pos.compare_spec m1 m2); try discriminate; lia.
Qed.

(** A threshold [t] with exponent [-53], and [N] hundredths. *)
Lemma hundredths_lower (x t : float) (mt : positive) (N : Z) :
  (0.05 <=? x)%float = true -> (x <=? 0.95)%float = true ->
  Prim2SF t = S754_finite false mt (-53) ->
  (2 * N - 1) * 2 ^ 53 < 200 * Z.pos mt ->
  (t <=? x)%float = true ->
  N <= hundredths x.
Proof.
  intros Hlo Hhi Et HN Ht.
  destruct (clamped_shape x Hlo Hhi) as (m & e & E & He & Hm & _ & _).
  rewrite leb_spec, Et, E in Ht. apply SFleb_pos_finite in Ht.
  assert (e = -53 /\ Z.pos mt <= Z.pos m) as [-> Hmt] by lia.
  unfold hundredths. rewrite E.
  apply round_half_even_div_lower; [apply Z.pow_pos_nonneg; lia|].
  cbn [Z.opp]. lia.
Qed.

Lemma hundredths_upper (x t : float) (mt : positive) (N : Z) :
  (0.05 <=? x)%float = true -> (x <=? 0.95)%float = true ->
  Prim2SF t = S754_finite false mt (-53) ->
  200 * Z.pos mt <= (2 * N + 1) * 2 ^ 53 ->
  100 <= 2 * N + 1 ->
  (t <=? x)%float = false ->
  hundredths x <= N.
Proof.
  intros Hlo Hhi Et HN HN' Ht.
  destruct (clamped_shape x Hlo Hhi) as (m & e & E & He & Hm & _ & _).
  rewrite leb_spec, Et, E in Ht. apply SFleb_pos_finite_false in Ht.
  unfold hundredths. rewrite E.
  apply round_half_even_div_upper; [apply Z.pow_pos_nonneg; lia|].
  destruct Ht as [Hlt|[<- Hmt]].
  - assert (2 ^ 54 <= 2 ^ (- e)) by (apply Z.pow_le_mono_r; lia).
    change (2 ^ 54) with (2 * 2 ^ 53) in *. nia.
  - cbn [Z.opp]. lia.
Qed.

(** What the hundredths between 5 and 95 read back as, against 0.50 and
    0.75. *)
Definition thresholds_ok : bool :=
  forallb (fun n => let r := Py.nearest_quotient false n 100 in
                    implb (75 <=? n) (0.75 <=? r)%float
                    && implb (n <=? 75) (r <=? 0.75)%float
                    && implb (50 <=? n) (0.5 <=? r)%float
                    && implb (n <=? 50) (r <=? 0.5)%float)
          (map (fun k => 5 + Z.of_nat k) (seq 0 91)).

Lemma thresholds_checked : thresholds_ok = true.
Proof. vm_compute. reflexivity. Qed.

Lemma thresholds_spec (n : Z) :
  5 <= n <= 95 ->
  let r := Py.nearest_quotient false n 100 in
  (75 <= n -> (0.75 <=? r)%float = true) /\
  (n <= 75 -> (r <=? 0.75)%float = true) /\
  (50 <= n -> (0.5 <=? r)%float = true) /\
  (n <= 50 -> (r <=? 0.5)%float = true).
Proof.
  intros Hn. pose proof thresholds_checked as H. unfold thresholds_ok in H.
  rewrite forallb_forall in H. specialize (H n). cbv zeta in H |- *.
  rewrite !andb_true_iff in H.
  destruct H as (((H1 & H2) & H3) & H4).
  { apply in_map_iff. exists (Z.to_nat (n - 5)). split; [lia|]. apply in_seq. lia. }
  repeat split; intros Hc.
  - apply Z.leb_le in Hc. by rewrite Hc in H1.
  - apply Z.leb_le in Hc. by rewrite Hc in H2.
  - apply Z.leb_le in Hc. by rewrite Hc in H3.
  - apply Z.leb_le in Hc. by rewrite Hc in H4.
Qed.

End LevelFacts.

(* ------------------------------------------------------------------ *)
(** ** The filter of [main] and what reaches [infer_sessions] *)

Section FilterFacts.
Context {lib : PyLib}.
Variables allow_methods_norm allow_status_norm gov_paths : list string.

Let kept := filtered_rows allow_methods_norm allow_status_norm gov_paths.

Lemma keeps_governance (r : LogRow) :
  keeps allow_methods_norm allow_status_norm gov_paths r = true ->
  is_gov (list_to_set gov_paths) (path r) = true.
Proof.
  unfold keeps, is_gov. cbv zeta.
  destruct (_ && _ && _); [discriminate|].
  destruct (_ && _ && _); [discriminate|].
  destruct (decide (list_to_set gov_paths =@{gset string} ∅)) as [E|E]; [done|].
  rewrite (bool_decide_eq_false_2 _ E). cbn [negb andb].
  by destruct (bool_decide (path r ∈ _)).
Qed.

Lemma keeps_status (r : LogRow) (n : Z) :
  allow_status_norm <> [] ->
  status r = StatusInt n ->
  keeps allow_methods_norm allow_status_norm gov_paths r = true ->
  n = 0%Z.
Proof.
  intros Hne Hs. unfold keeps. cbv zeta. rewrite Hs.
  destruct (_ && _ && _); [discriminate|].
  cbn [status_truthy status_allowed negb].
  destruct allow_status_norm as [|a l]; [done|]. cbn [nonempty].
  destruct (Z.eqb_spec n 0); [done|]. discriminate.
Qed.

Section Ndjson.
Variables key_ts key_ip key_ua key_path key_host : string.
Variables key_method key_status : option string.

Lemma load_line_status (line : string) (row : LogRow) :
  load_line key_ts key_ip key_ua key_path key_host key_method key_status line
    = Some row ->
  exists n, status row = StatusInt n.
Proof.
  unfold load_line. intros H.
  destruct (json_loads line ≫= as_obj) as [obj|]; [|discriminate].
  cbn [mbind option_bind] in H.
  destruct (parse_ts _) as [t|]; [|discriminate]. cbn [mbind option_bind] in H.
  destruct (status_int _) as [n|]; [|discriminate]. cbn [mbind option_bind] in H.
  injection H as <-. by exists n.
Qed.

(** X21.  With a status allowlist that is not empty (the default is
    ["200", "304"]), the filter of [main] keeps no row of an NDJSON
    input whose status is not 0: [load_rows_ndjson] stores the status
    as an [int], and the filter looks it up in a list of strings.  Only
    the rows read without a status (no status key, or a missing, null
    or zero value) pass. *)
Theorem ndjson_rows_with_status_are_dropped (stats_in : IngestStats)
    (lines : list string) :
  allow_status_norm <> [] ->
  Forall (fun r => status r = StatusInt 0)
         (filtered_rows allow_methods_norm allow_status_norm gov_paths
            (load_rows_ndjson key_ts key_ip key_ua key_path key_host
               key_method key_status stats_in lines).1).
Proof.
  intros Hne. unfold load_rows_ndjson.
  destruct (load_rows_ndjson_fold key_ts key_ip key_ua key_path key_host
              key_method key_status lines [] stats_in) as (E & _).
  rewrite E. cbn [app]. apply List.Forall_forall. intros r Hr.
  apply filter_In in Hr as [Hin Hkeep].
  apply list_elem_of_In, list_elem_of_omap in Hin as (line & _ & Hline).
  destruct (load_line_status _ _ Hline) as [n Hn].
  rewrite Hn. f_equal. by eapply keeps_status.
Qed.
End Ndjson.

Lemma session_paths_governance (rows : list LogRow) (site_host salt : string)
    (gap_minutes : Z) (path_to_category : gmap string string)
    (sessions : list Session) (s : Session) :
  main_sessions allow_methods_norm allow_status_norm gov_paths rows
    site_host salt gap_minutes path_to_category = Some sessions ->
  In s sessions ->
  gov_hits (list_to_set gov_paths) (s_path s) = length (s_path s).
Proof.
  unfold main_sessions. intros Hrun Hin.
  destruct (session_chunk _ _ _ _ _ _ _ _ Hrun Hin) as (fp & chunk & _ & -> & _ & _ & Hc).
  unfold gov_hits. clear Hrun Hin.
  induction Hc as [|r chunk (Hr & _) _ IH]; [done|].
  apply filter_In in Hr as [_ Hkeep]. cbn [map List.filter].
  rewrite (keeps_governance r Hkeep). cbn [length]. by rewrite IH.
Qed.
End FilterFacts.

Section ConfidenceFacts.
Context {lib : PyLib}.

(** The confidence and the level when every path is a governance hit. *)
Lemma all_hits_confidence (gov_set : gset string) (paths : list string) :
  gov_hits gov_set paths = length paths ->
  (0 < length paths)%nat ->
  (Z.of_nat (length paths) < 2 ^ 53)%Z ->
  let c := clamped_confidence gov_set paths in
  let bonus := existsb is_yaml paths && negb (existsb is_jsonld paths) in
  (length paths = 1 -> Py.round2 c = 0.55%float) /\
  (2 <= length paths ->
     Py.geb c 0.75 = true /\
     Py.round2 c =
       (if bonus then (if (5 <=? length paths)%nat then 0.95 else 0.85)
        else (if (5 <=? length paths)%nat then 0.85 else 0.75))%float).
Proof.
  intros Hhits Hpos Hlt. cbv zeta. unfold clamped_confidence.
  unfold gov_hits in Hhits. rewrite Hhits.
  rewrite (Nat.max_l (length paths) 1) by lia.
  rewrite (RatioFacts.truediv_same _ Hpos Hlt).
  destruct (existsb is_yaml paths && negb (existsb is_jsonld paths)).
  - split.
    + intros ->. vm_compute. reflexivity.
    + intros H2. destruct (Nat.eqb_spec (length paths) 1) as [?|_]; [lia|].
      destruct (Nat.leb_spec 5 (length paths)).
      * destruct (Nat.leb_spec 3 (length paths)); [|lia].
        split; vm_compute; reflexivity.
      * cbn [andb]. split; vm_compute; reflexivity.
  - split.
    + intros ->. vm_compute. reflexivity.
    + intros H2. destruct (Nat.eqb_spec (length paths) 1) as [?|_]; [lia|].
      destruct (Nat.leb_spec 5 (length paths)).
      * destruct (Nat.leb_spec 3 (length paths)); [|lia].
        split; vm_compute; reflexivity.
      * cbn [andb]. split; vm_compute; reflexivity.
Qed.

Lemma flush_confidence (gov_set : gset string) (cmap : gmap string string)
    (fp : string) (chunk : list LogRow) (s : Session) :
  In s (flush gov_set cmap fp chunk) ->
  confidence s = Py.round2 (clamped_confidence gov_set (s_path s)) /\
  confidence_level s =
    (if (length (s_path s) =? 1)%nat then "low"
     else if Py.geb (clamped_confidence gov_set (s_path s)) 0.75 then "high"
     else if Py.geb (clamped_confidence gov_set (s_path s)) 0.50 then "medium"
     else "low").
Proof.
  destruct chunk as [|r chunk]; [intros []|]. intros [<-|[]]. by cbn.
Qed.

(** X22.  In [main] every request that reaches [infer_sessions] counts
    as a governance hit: the filter has dropped every path outside a
    non-empty allowlist, and an empty allowlist counts every path.  So
    the score no longer separates sessions: a session of one request
    reports 0.55 and [low]; a session of two requests or more is always
    [high] and reports 0.75, plus 0.10 under the YAML preference, plus
    0.10 from five requests on; the primary signal is never [unknown].
    (Sessions of fewer than [2^53] requests.) *)
Theorem main_sessions_score (allow_methods_norm allow_status_norm gov_paths :
      list string) (rows : list LogRow) (site_host salt : string)
    (gap_minutes : Z) (path_to_category : gmap string string)
    (sessions : list Session) (s : Session) :
  main_sessions allow_methods_norm allow_status_norm gov_paths rows
    site_host salt gap_minutes path_to_category = Some sessions ->
  In s sessions ->
  (Z.of_nat (length (s_path s)) < 2 ^ 53)%Z ->
  In "governance_path_hit" (signals s) /\
  primary_signal s <> "unknown" /\
  (length (s_path s) = 1 ->
     confidence s = 0.55%float /\ confidence_level s = "low") /\
  (2 <= length (s_path s) ->
     confidence_level s = "high" /\
     confidence s =
       (if str_in "yaml_preference_observed" (signals s)
        then (if (5 <=? length (s_path s))%nat then 0.95 else 0.85)
        else (if (5 <=? length (s_path s))%nat then 0.85 else 0.75))%float).
Proof.
  intros Hrun Hin Hlt.
  pose proof (session_paths_governance _ _ _ _ _ _ _ _ _ _ Hrun Hin) as Hhits.
  unfold main_sessions in Hrun.
  destruct (infer_sessions_origin _ _ _ _ _ _ _ _ Hrun Hin)
    as (gap & fp & items & chunk & _ & _ & _ & Hs).
  destruct (flush_classification _ _ _ _ _ Hs) as (Hne & Hsig & Hprim).
  destruct (flush_confidence _ _ _ _ _ Hs) as (Hconf & Hlevel).
  set (G := list_to_set gov_paths : gset string) in *.
  assert (0 < length (s_path s)) as Hpos
    by (clear -Hne; destruct (s_path s); [done|cbn; lia]).
  destruct (all_hits_confidence G (s_path s) Hhits Hpos Hlt) as (Hone & Hmany).
  cbv zeta in Hone, Hmany.
  assert (In "governance_path_hit" (signals s)) as Hhit.
  { rewrite Hsig. apply has_governance_path_hit. lia. }
  split; [exact Hhit|]. split; [|split].
  - rewrite Hprim. destruct (bool_decide _); [discriminate|].
    destruct (Nat.leb_spec 2 (gov_hits G (s_path s))); [discriminate|].
    destruct (Nat.eqb_spec (gov_hits G (s_path s)) 1); [discriminate|lia].
  - intros H1. rewrite Hconf, Hlevel, (Hone H1), H1. done.
  - intros H2. destruct (Hmany H2) as (Hge & Hval).
    rewrite Hconf, Hlevel, Hge, Hval.
    destruct (Nat.eqb_spec (length (s_path s)) 1) as [?|_]; [lia|].
    split; [done|].
    assert (str_in "yaml_preference_observed" (signals s)
            = (existsb is_yaml (s_path s) && negb (existsb is_jsonld (s_path s))))
      as ->; [|done].
    apply eq_true_iff_eq.
    rewrite str_in_In, Hsig, has_yaml_preference_observed.
    rewrite andb_true_iff, negb_true_iff. done.
Qed.
End ConfidenceFacts.

(** A library whose [json_loads] reads one line. *)
Definition ndjson_lib : PyLib := {|
  sha256_hex := sha256_hex (PyLib := base_lib);
  isoformat := isoformat (PyLib := base_lib);
  fromisoformat := fromisoformat (PyLib := base_lib);
  fromtimestamp_ms := fromtimestamp_ms (PyLib := base_lib);
  float_repr := float_repr (PyLib := base_lib);
  yaml_safe_dump := yaml_safe_dump (PyLib := base_lib);
  json_loads := fun text =>
    if String.eqb text "request one"
    then Some (JObj [("ts", JStr "1700000000000"); ("path", JStr "/a");
                     ("status", JInt 200)])
    else None;
  int_of_str := int_of_str (PyLib := base_lib);
  container_str := container_str (PyLib := base_lib);
  os_makedirs_ok := os_makedirs_ok (PyLib := base_lib);
  os_open_w_ok := os_open_w_ok (PyLib := base_lib);
|}.

Lemma ndjson_rows_with_status_are_dropped_witness :
  exists r,
    load_rows_ndjson (lib := ndjson_lib) "ts" "ip" "user_agent" "path" "host"
      (Some "method") (Some "status") (mkStats 0 0 0) ["request one"; "not json"]
      = ([r], mkStats 2 1 1) /\
    status r = StatusInt 200 /\
    filtered_rows ["GET"] ["200"; "304"] [] [r] = [] /\
    Forall (fun r => status r = StatusInt 0)
      (filtered_rows ["GET"] ["200"; "304"] []
         (load_rows_ndjson (lib := ndjson_lib) "ts" "ip" "user_agent" "path" "host"
            (Some "method") (Some "status") (mkStats 0 0 0)
            ["request one"; "not json"]).1).
Proof.
  eexists. split; [vm_compute; reflexivity|]. split; [reflexivity|].
  split; [vm_compute; reflexivity|].
  apply (ndjson_rows_with_status_are_dropped (lib := ndjson_lib)
           ["GET"] ["200"; "304"] [] "ts" "ip" "user_agent" "path" "host"
           (Some "method") (Some "status") (mkStats 0 0 0)
           ["request one"; "not json"]).
  discriminate.
Defined.

Lemma main_sessions_score_witness :
  exists s,
    main_sessions (lib := stub_lib) ["GET"] ["200"; "304"] [ledger_path]
      [request 0 ledger_path; request 5 "/other"; request 10 ledger_path]
      "example.com" "test-salt" 30 ∅ = Some [s] /\
    s_path s = [ledger_path; ledger_path] /\
    In "governance_path_hit" (signals s) /\
    primary_signal s <> "unknown" /\
    (length (s_path s) = 1 ->
       confidence s = 0.55%float /\ confidence_level s = "low") /\
    (2 <= length (s_path s) ->
       confidence_level s = "high" /\
       confidence s =
         (if str_in "yaml_preference_observed" (signals s)
          then (if (5 <=? length (s_path s))%nat then 0.95 else 0.85)
          else (if (5 <=? length (s_path s))%nat then 0.85 else 0.75))%float).
Proof.
  eexists. split; [vm_compute; reflexivity|]. split; [reflexivity|].
  eapply (main_sessions_score (lib := stub_lib) ["GET"] ["200"; "304"] [ledger_path]
            [request 0 ledger_path; request 5 "/other"; request 10 ledger_path]
            "example.com" "test-salt" 30 ∅).
  - vm_compute. reflexivity.
  - left. reflexivity.
  - vm_compute. reflexivity.
Defined.

Import FloatFacts.

(* ------------------------------------------------------------------ *)
(** ** The level and the reported confidence *)

Section LevelTheorems.
Context {lib : PyLib}.

Lemma reported_against_thresholds (c : float) :
  (0.05 <=? c)%float = true -> (c <=? 0.95)%float = true ->
  let r := Py.round2 c in
  ((0.75 <=? c)%float = true -> (0.75 <=? r)%float = true) /\
  ((0.75 <=? c)%float = false -> (r <=? 0.75)%float = true) /\
  ((0.5 <=? c)%float = true -> (0.5 <=? r)%float = true) /\
  ((0.5 <=? c)%float = false -> (r <=? 0.5)%float = true).
Proof.
  intros Hlo Hhi. cbv zeta.
  destruct (LevelFacts.round2_hundredths c Hlo Hhi) as [-> Hn].
  destruct (LevelFacts.thresholds_spec _ Hn) as (T1 & T2 & T3 & T4).
  cbv zeta in T1, T2, T3, T4.
  assert (Prim2SF 0.75%float = S754_finite false 6755399441055744 (-53)) as E75
    by reflexivity.
  assert (Prim2SF 0.5%float = S754_finite false 4503599627370496 (-53)) as E50
    by reflexivity.
  repeat split; intros Hc.
  - apply T1.
    apply (LevelFacts.hundredths_lower c 0.75%float _ 75 Hlo Hhi E75); [|exact Hc].
    change (2 ^ 53)%Z with 9007199254740992%Z. clear. lia.
  - apply T2.
    apply (LevelFacts.hundredths_upper c 0.75%float _ 75 Hlo Hhi E75); [| |exact Hc].
    + change (2 ^ 53)%Z with 9007199254740992%Z. clear. lia.
    + clear. lia.
  - apply T3.
    apply (LevelFacts.hundredths_lower c 0.5%float _ 50 Hlo Hhi E50); [|exact Hc].
    change (2 ^ 53)%Z with 9007199254740992%Z. clear. lia.
  - apply T4.
    apply (LevelFacts.hundredths_upper c 0.5%float _ 50 Hlo Hhi E50); [| |exact Hc].
    + change (2 ^ 53)%Z with 9007199254740992%Z. clear. lia.
    + clear. lia.
Qed.

(** X23.  The level of a session agrees with the confidence it
    reports, up to the rounding: a [high] session has two requests or
    more and reports at least 0.75; a [medium] one has two or more and
    reports between 0.50 and 0.75, both included (0.75 when the value
    was rounded up to it); a [low] one has a single request or reports
    at most 0.50.  There is no other level. *)
Theorem level_matches_reported_confidence (rows : list LogRow)
    (site_host salt : string) (gap_minutes : Z) (gov_exact_paths : list string)
    (path_to_category : gmap string string) (sessions : list Session)
    (s : Session) :
  infer_sessions rows site_host salt gap_minutes gov_exact_paths path_to_category
    = Some sessions ->
  In s sessions ->
  (confidence_level s = "high" ->
     2 <= length (s_path s) /\ (0.75 <=? confidence s)%float = true) /\
  (confidence_level s = "medium" ->
     2 <= length (s_path s) /\
     (0.5 <=? confidence s)%float = true /\ (confidence s <=? 0.75)%float = true) /\
  (confidence_level s = "low" ->
     length (s_path s) = 1 \/ (confidence s <=? 0.5)%float = true) /\
  (confidence_level s = "high" \/ confidence_level s = "medium" \/
   confidence_level s = "low").
Proof.
  intros Hrun Hin.
  destruct (infer_sessions_origin _ _ _ _ _ _ _ _ Hrun Hin)
    as (gap & fp & items & chunk & _ & _ & _ & Hs).
  destruct (flush_classification _ _ _ _ _ Hs) as (Hne & _ & _).
  destruct (flush_confidence _ _ _ _ _ Hs) as (Hconf & Hlevel).
  set (G := list_to_set gov_exact_paths : gset string) in *.
  set (c := clamped_confidence G (s_path s)) in *.
  destruct (clamped_confidence_bounds G (s_path s)) as [Hlo Hhi].
  fold c in Hlo, Hhi.
  assert ((c <=? 0.95)%float = true) as Hhi'.
  { destruct (length (s_path s) =? 1)%nat; [by apply leb_055_095|done]. }
  destruct (reported_against_thresholds c Hlo Hhi') as (R1 & R2 & R3 & R4).
  cbv zeta in R1, R2, R3, R4. rewrite <- Hconf in R1, R2, R3, R4.
  assert (0 < length (s_path s)) as Hpos
    by (clear -Hne; destruct (s_path s); [done|cbn; lia]).
  rewrite Hlevel. unfold Py.geb.
  destruct (Nat.eqb_spec (length (s_path s)) 1) as [H1|H1].
  { repeat split; try discriminate; auto. }
  destruct (0.75 <=? c)%float eqn:E75.
  { repeat split; try discriminate; auto; lia. }
  destruct (0.5 <=? c)%float eqn:E50.
  { repeat split; try discriminate; auto; lia. }
  repeat split; try discriminate; auto.
Qed.
End LevelTheorems.

Lemma level_matches_reported_confidence_witness :
  exists s,
    infer_sessions (lib := stub_lib)
      [request 0 ledger_path; request 5 "/other"; request 10 "/more"]
      "example.com" "test-salt" 30 [ledger_path] ∅ = Some [s] /\
    confidence_level s = "low" /\
    (confidence_level s = "low" ->
       length (s_path s) = 1 \/ (confidence s <=? 0.5)%float = true).
Proof.
  eexists. split; [vm_compute; reflexivity|]. split; [vm_compute; reflexivity|].
  lazymatch goal with
  | |- confidence_level ?s = _ -> _ =>
      refine (proj1 (proj2 (proj2
                (level_matches_reported_confidence (lib := stub_lib)
                   [request 0 ledger_path; request 5 "/other"; request 10 "/more"]
                   "example.com" "test-salt" 30 [ledger_path] ∅ [s] s _ _))))
  end.
  - vm_compute. reflexivity.
  - left. reflexivity.
Defined.

(* ------------------------------------------------------------------ *)
(** ** Configuration and scope files *)

Section ResolveFacts.
Variable isfile : string -> bool.

Lemma resolve_existing_file_isfile (candidates : list (option string)) (p : string) :
  resolve_existing_file isfile candidates = Some p ->
  isfile p = true /\ In (Some p) candidates /\ p <> EmptyString.
Proof.
  induction candidates as [|[[|c q]|] rest IH]; cbn [resolve_existing_file];
    [done| | |].
  - intros H. destruct (IH H) as (? & ? & ?). auto using in_cons.
  - destruct (isfile (String c q)) eqn:E.
    + intros [= <-]. split; [done|]. split; [by left|done].
    + intros H. destruct (IH H) as (? & ? & ?). auto using in_cons.
  - intros H. destruct (IH H) as (? & ? & ?). auto using in_cons.
Qed.

(** X25.  Whatever [resolve_config_path] and [resolve_scope_path]
    return is an existing file ([None] is the [FileNotFoundError]).  A
    [--config] (or [--scope]) path that is a file is the result.  One
    that is not a file is passed over without an error: the result is
    what it is without the option. *)
Theorem missing_cli_path_is_ignored (cli env : option string) :
  (forall p, resolve_config_path isfile cli env = Some p \/
             resolve_scope_path isfile cli env = Some p -> isfile p = true) /\
  (forall c, cli = Some c -> c <> EmptyString -> isfile c = true ->
             resolve_config_path isfile cli env = Some c /\
             resolve_scope_path isfile cli env = Some c) /\
  (forall c, cli = Some c -> isfile c = false ->
             resolve_config_path isfile cli env = resolve_config_path isfile None env /\
             resolve_scope_path isfile cli env = resolve_scope_path isfile None env).
Proof.
  split; [|split].
  - intros p [H|H]; by apply resolve_existing_file_isfile in H as (? & _).
  - intros c -> Hc Hf. unfold resolve_config_path, resolve_scope_path.
    cbn [resolve_existing_file]. destruct c as [|a c]; [done|]. by rewrite Hf.
  - intros c -> Hf. unfold resolve_config_path, resolve_scope_path.
    cbn [resolve_existing_file]. destruct c as [|a c]; [done|]. by rewrite Hf.
Qed.
End ResolveFacts.

Section ScopeFacts.
Context {lib : PyLib}.

(** A path as [normalize_path] returns it: empty, or clean. *)
Definition normalized (p : string) : Prop := p = EmptyString \/ clean_path p.

Lemma normalize_path_normalized (uri : option string) :
  normalized (normalize_path uri).
Proof.
  pose proof (normalize_path_collapsed uri) as Hd.
  destruct (normalize_path_cases uri) as [[_ Hn]|[_ (t & Hn & Hq & Hf)]].
  - by left.
  - right. rewrite Hn in Hd |- *. split; [by exists t|]. split; [done|].
    split; by apply contains_false_char.
Qed.

Lemma normalize_path_value_normalized (x : json) (p : string) :
  normalize_path_value x = Some p -> normalized p.
Proof.
  destruct x; cbn; try (destruct (_ : bool)); intros [= <-];
    first [by left | apply normalize_path_normalized].
Qed.

Definition layers_normalized (layers : list (string * list string)) : Prop :=
  Forall (fun kv => Forall normalized kv.2) layers.

Lemma dict_set_normalized (k : string) (paths : list string)
    (out : list (string * list string)) :
  Forall normalized paths -> layers_normalized out ->
  layers_normalized (dict_set k paths out).
Proof.
  intros Hp. unfold layers_normalized.
  induction 1 as [|[k' v] out Hv Hout IH]; cbn [dict_set].
  - by repeat constructor.
  - destruct (String.eqb k' k); constructor; done.
Qed.

Lemma add_scope_layer_normalized (acc : option (list (string * list string)))
    (kv : string * json) (out : list (string * list string)) :
  add_scope_layer acc kv = Some out ->
  (forall a, acc = Some a -> layers_normalized a) ->
  layers_normalized out.
Proof.
  unfold add_scope_layer. destruct acc as [a|]; [|discriminate].
  cbn [mbind option_bind]. intros H Ha. specialize (Ha a eq_refl).
  destruct kv.2 as [| | | | |xs|]; try (by injection H as <-).
  destruct (mapM normalize_path_value xs) as [paths|] eqn:E; [|discriminate].
  cbn [mbind option_bind] in H. injection H as <-.
  apply dict_set_normalized; [|done].
  apply mapM_Some in E. induction E as [|x p xs paths Hx _ IH]; constructor; [|done].
  by eapply normalize_path_value_normalized.
Qed.

Lemma scope_fold_normalized (layers : list (string * json))
    (acc : option (list (string * list string)))
    (out : list (string * list string)) :
  fold_left add_scope_layer layers acc = Some out ->
  (forall a, acc = Some a -> layers_normalized a) ->
  layers_normalized out.
Proof.
  revert acc. induction layers as [|kv layers IH]; intros acc H Ha.
  - cbn in H. by apply Ha.
  - cbn [fold_left] in H. apply (IH _ H). intros a Hstep.
    by eapply add_scope_layer_normalized.
Qed.

(** X24.  The layers [load_scope_layers] returns hold normalized paths
    only; with no scope file, or one that cannot be parsed, there are no
    layers.  So every key of the category map that [main] builds from
    them starts with a slash and holds no doubled slash, no [?] and no
    [#]: the shape of the paths [load_rows] returns. *)
Theorem scope_layers_are_normalized (files : gmap string string)
    (scope_path : string) (layers : list (string * list string)) :
  load_scope_layers files scope_path = Some layers ->
  (load_json_file files scope_path = None -> layers = []) /\
  layers_normalized layers /\
  (forall p c, build_category_map (list_to_map layers) !! p = Some c ->
               clean_path p).
Proof.
  intros Hload.
  assert (layers_normalized layers) as Hn.
  { unfold load_scope_layers in Hload.
    destruct (load_json_file files scope_path) as [d|]; [|injection Hload as <-; constructor].
    destruct (Json.truthy d); [|injection Hload as <-; constructor].
    destruct (as_obj d) as [fields|]; [|discriminate]. cbn [mbind option_bind] in Hload.
    destruct (as_obj _) as [ls|]; [|discriminate]. cbn [mbind option_bind] in Hload.
    apply (scope_fold_normalized _ _ _ Hload). intros a [= <-]. constructor. }
  split; [|split; [exact Hn|]].
  - intros Hnone. unfold load_scope_layers in Hload. rewrite Hnone in Hload.
    by injection Hload.
  - intros p c Hp. unfold build_category_map in Hp.
    destruct p as [|a p]; [by rewrite table_fold_lookup_empty in Hp|].
    rewrite table_fold_lookup in Hp by done.
    destruct (last _) as [kc|] eqn:El; [|discriminate].
    apply last_Some_elem_of, list_elem_of_In, filter_In in El as [_ Hin].
    apply bool_decide_eq_true in Hin.
    destruct (list_to_map layers !! kc.1) as [paths|] eqn:Ek;
      [|by apply not_elem_of_nil in Hin].
    apply elem_of_list_to_map_2 in Ek. cbn [default from_option id] in Hin.
    unfold layers_normalized in Hn. rewrite Forall_forall in Hn.
    specialize (Hn _ Ek). cbn [snd] in Hn. rewrite Forall_forall in Hn.
    destruct (Hn _ Hin) as [?|?]; done.
Qed.
End ScopeFacts.

(** A library whose [json_loads] reads one scope file. *)
Definition scope_lib : PyLib := {|
  sha256_hex := sha256_hex (PyLib := base_lib);
  isoformat := isoformat (PyLib := base_lib);
  fromisoformat := fromisoformat (PyLib := base_lib);
  fromtimestamp_ms := fromtimestamp_ms (PyLib := base_lib);
  float_repr := float_repr (PyLib := base_lib);
  yaml_safe_dump := yaml_safe_dump (PyLib := base_lib);
  json_loads := fun text =>
    if String.eqb text "scope file"
    then Some (JObj [("layers",
                      JObj [("entrypoints",
                             JArr [JStr "https://example.com//.well-known//q-ledger.json?x=1";
                                   JInt 0]);
                            ("comment", JStr "not a list")])])
    else None;
  int_of_str := int_of_str (PyLib := base_lib);
  container_str := container_str (PyLib := base_lib);
  os_makedirs_ok := os_makedirs_ok (PyLib := base_lib);
  os_open_w_ok := os_open_w_ok (PyLib := base_lib);
|}.

Lemma scope_layers_are_normalized_witness :
  load_scope_layers (lib := scope_lib)
    {[ "config/governance_scope.json" := "scope file" ]} "config/governance_scope.json"
    = Some [("entrypoints", ["/.well-known/q-ledger.json"; ""])] /\
  layers_normalized [("entrypoints", ["/.well-known/q-ledger.json"; ""])].
Proof.
  split; [vm_compute; reflexivity|].
  apply (scope_layers_are_normalized (lib := scope_lib)
           {[ "config/governance_scope.json" := "scope file" ]}
           "config/governance_scope.json").
  vm_compute. reflexivity.
Defined.

(* ------------------------------------------------------------------ *)
(** ** The legacy analysis *)

Section LegacyFacts.
Lemma to_list_rev_app (s t : string) :
  Str.to_list (String.rev_app s t) = rev (Str.to_list s) ++ Str.to_list t.
Proof.
  revert t. induction s as [|c s IH]; intros t; [done|].
  cbn [String.rev_app]. rewrite IH. unfold Str.to_list.
  cbn [list_ascii_of_string rev]. by rewrite <- app_assoc.
Qed.

Lemma to_list_rev (s : string) : Str.to_list (String.rev s) = rev (Str.to_list s).
Proof. unfold String.rev. rewrite to_list_rev_app. apply app_nil_r. Qed.

Lemma endswith_char (x : ascii) (s : string) :
  Str.endswith s (String x EmptyString) = true -> In x (Str.to_list s).
Proof.
  unfold Str.endswith. intros [t Ht]%prefix_list.
  rewrite to_list_rev in Ht. apply in_rev. rewrite Ht. by left.
Qed.

Lemma count_char_pos (x : ascii) (s : string) :
  (1 <=? count_char x s)%nat = Str.contains (String x EmptyString) s.
Proof.
  apply eq_true_iff_eq. rewrite Nat.leb_le, contains_char. unfold count_char.
  induction (Str.to_list s) as [|c l IH]; cbn [List.filter length In]; [lia|].
  destruct (Ascii.eqb_spec x c) as [->|Hne]; cbn [length].
  - split; [by left|lia].
  - rewrite IH. split; [by right|]. intros [?|?]; [congruence|done].
Qed.

(** X26.  [is_content_path_legacy] holds exactly of the paths that
    hold a slash, hold none of the governance markers and end in none of
    the six file extensions: the test on a trailing slash never decides,
    and no path is both a governance path and a content path. *)
Theorem content_path_legacy_spec (p : string) :
  is_content_path_legacy p =
    negb (is_governance_path_legacy p)
    && negb (existsb (Str.endswith p)
               [".json"; ".jsonld"; ".yaml"; ".yml"; ".txt"; ".md"])
    && Str.contains "/" p.
Proof.
  unfold is_content_path_legacy.
  destruct (is_governance_path_legacy p); [done|].
  destruct (existsb _ _); [done|]. cbn [negb andb].
  rewrite count_char_pos. destruct (Str.endswith p "/") eqn:E; [|done].
  apply endswith_char, contains_char in E. by rewrite E.
Qed.

Definition motifs_le (m : Motifs) (a b c d : nat) : Prop :=
  yaml_then_ledger m <= a /\ yaml_then_protocol m <= b /\
  ledger_then_protocol m <= c /\ gov_content_gov m <= d.

Lemma bump_le (b : bool) (n k : nat) : n <= k -> bump b n <= S k.
Proof. destruct b; cbn; lia. Qed.

Lemma count_pairs_le (paths : list string) (m : Motifs) (a b c d : nat) :
  motifs_le m a b c d ->
  motifs_le (count_pairs paths m)
    (a + (length paths - 1)) (b + (length paths - 1)) (c + (length paths - 1)) d.
Proof.
  revert m a b c. induction paths as [|x paths IH]; intros m a b c (H1 & H2 & H3 & H4).
  - cbn. unfold motifs_le. lia.
  - destruct paths as [|y paths].
    + cbn. unfold motifs_le. lia.
    + set (m' := mkMotifs
                    (bump (is_yaml x && Str.contains "/.well-known/q-ledger" y)
                          (yaml_then_ledger m))
                    (bump (is_yaml x && Str.contains "q-attest-protocol" y)
                          (yaml_then_protocol m))
                    (bump (Str.contains "/.well-known/q-ledger" x
                           && Str.contains "q-attest-protocol" y)
                          (ledger_then_protocol m))
                    (gov_content_gov m)).
      change (count_pairs (x :: y :: paths) m) with (count_pairs (y :: paths) m').
      specialize (IH m' (S a) (S b) (S c)).
      destruct IH as (I1 & I2 & I3 & I4).
      { unfold m', motifs_le. cbn [yaml_then_ledger yaml_then_protocol
                                    ledger_then_protocol gov_content_gov].
        auto using bump_le. }
      unfold motifs_le. cbn [length] in *. lia.
Qed.

Lemma count_triples_le (paths : list string) (m : Motifs) (a b c d : nat) :
  motifs_le m a b c d ->
  motifs_le (count_triples paths m) a b c (d + (length paths - 2)).
Proof.
  revert m d. induction paths as [|x paths IH]; intros m d (H1 & H2 & H3 & H4).
  - cbn. unfold motifs_le. lia.
  - destruct paths as [|y [|z paths]].
    + cbn. unfold motifs_le. lia.
    + cbn. unfold motifs_le. lia.
    + set (m' := mkMotifs (yaml_then_ledger m) (yaml_then_protocol m)
                    (ledger_then_protocol m)
                    (bump (is_governance_path_legacy x && is_content_path_legacy y
                           && is_governance_path_legacy z) (gov_content_gov m))).
      change (count_triples (x :: y :: z :: paths) m)
        with (count_triples (y :: z :: paths) m').
      specialize (IH m' (S d)).
      destruct IH as (I1 & I2 & I3 & I4).
      { unfold m', motifs_le. cbn [yaml_then_ledger yaml_then_protocol
                                    ledger_then_protocol gov_content_gov].
        auto using bump_le. }
      unfold motifs_le. cbn [length] in *. lia.
Qed.

(** X27.  [detect_sequences_legacy] counts each of its three pair
    motifs at most once for every two neighbouring paths, and the
    governance-content-governance motif at most once for every three in
    a row: a session of fewer than two paths has no motif, one of fewer
    than three has no motif of the last kind. *)
Theorem motifs_are_bounded (paths : list string) :
  let m := detect_sequences_legacy paths in
  yaml_then_ledger m <= length paths - 1 /\
  yaml_then_protocol m <= length paths - 1 /\
  ledger_then_protocol m <= length paths - 1 /\
  gov_content_gov m <= length paths - 2.
Proof.
  cbv zeta. unfold detect_sequences_legacy.
  assert (motifs_le (mkMotifs 0 0 0 0) 0 0 0 0) as H0
    by (unfold motifs_le; cbn; lia).
  apply (count_pairs_le paths) in H0.
  apply (count_triples_le paths) in H0.
  exact H0.
Qed.
End LegacyFacts.

(* ------------------------------------------------------------------ *)
(** ** The endpoints of [verify_publication.py] *)

Section EndpointFacts.
Lemma dict_set_keys {V : Type} (k : string) (v : V) (d : list (string * V)) :
  exists extra, map fst (dict_set k v d) = map fst d ++ extra.
Proof.
  induction d as [|[k' v'] d [extra IH]]; cbn [dict_set].
  - by exists [k].
  - destruct (String.eqb k' k); cbn [map fst].
    + exists []. by rewrite app_nil_r.
    + exists extra. by rewrite IH.
Qed.

Lemma endpoints_fold_keys (cfg_eps : list (string * json)) (eps : list (string * string)) :
  exists extra,
    map fst (fold_left (fun eps kv => match kv.2 with
                                      | JStr v => dict_set kv.1 v eps
                                      | _ => eps
                                      end) cfg_eps eps)
    = map fst eps ++ extra.
Proof.
  revert eps. induction cfg_eps as [|kv cfg_eps IH]; intros eps.
  - exists []. by rewrite app_nil_r.
  - cbn [fold_left].
    destruct kv.2 as [| | | |v| |]; try apply IH.
    destruct (IH (dict_set kv.1 v eps)) as [extra ->].
    destruct (dict_set_keys kv.1 v eps) as [extra' ->].
    exists (extra' ++ extra). by rewrite app_assoc.
Qed.

Lemma dict_get_key {V : Type} (k : string) (d : list (string * V)) :
  In k (map fst d) -> is_Some (dict_get k d).
Proof.
  induction d as [|[k' v] d IH]; [done|]. cbn.
  destruct (String.eqb_spec k' k) as [->|Hne]; [by eexists|].
  intros [?|?]; [done|by apply IH].
Qed.

(** X28.  Whatever the configuration, [build_endpoints] keeps the four
    default keys, in their order, before any key the configuration adds:
    the four lookups of [main] never fail.  Without a configuration, or
    with an empty one, the endpoints are the defaults. *)
Theorem build_endpoints_keeps_defaults (config : option (list (string * json))) :
  (exists extra,
      map fst (build_endpoints config) = map fst DEFAULT_ENDPOINTS ++ extra) /\
  (forall key, In key (map fst DEFAULT_ENDPOINTS) ->
               is_Some (dict_get key (build_endpoints config))) /\
  build_endpoints None = DEFAULT_ENDPOINTS /\
  build_endpoints (Some []) = DEFAULT_ENDPOINTS.
Proof.
  assert (exists extra,
             map fst (build_endpoints config) = map fst DEFAULT_ENDPOINTS ++ extra)
    as Hkeys.
  { unfold build_endpoints. destruct config as [[|kv config]|];
      try (exists []; by rewrite app_nil_r).
    destruct (default (JObj []) _) as [| | | | | |pub];
      try (exists []; by rewrite app_nil_r).
    destruct (Json.get "endpoints" pub) as [[| | | | | |cfg_eps]|];
      try (exists []; by rewrite app_nil_r).
    apply endpoints_fold_keys. }
  split; [exact Hkeys|]. split; [|done].
  intros key Hkey. apply dict_get_key. destruct Hkeys as [extra ->].
  apply in_or_app. by left.
Qed.
End EndpointFacts.

(* ------------------------------------------------------------------ *)
(** ** The two [normalize_path] *)

Section TwoNormalizers.
Lemma before_absent (sep s : string) :
  (if Str.contains sep s then Str.before sep s else s) = Str.before sep s.
Proof.
  unfold Str.contains, Str.before. by destruct (String.index 0 sep s).
Qed.

Fixpoint take_until (x : ascii) (l : list ascii) : list ascii :=
  match l with
  | c :: t => if Ascii.eqb x c then [] else c :: take_until x t
  | [] => []
  end.

Lemma before_take_until (x : ascii) (s : string) :
  Str.to_list (Str.before (String x EmptyString) s) = take_until x (Str.to_list s).
Proof.
  unfold Str.before. induction s as [|c s IH]; [done|].
  rewrite index_char. unfold Str.to_list in *. cbn [list_ascii_of_string take_until].
  destruct (Ascii.eqb x c); [done|].
  destruct (String.index 0 (String x EmptyString) s) as [i|]; cbn; f_equal; exact IH.
Qed.

Lemma take_until_comm (x y : ascii) (l : list ascii) :
  take_until x (take_until y l) = take_until y (take_until x l).
Proof.
  induction l as [|c l IH]; [done|]. cbn [take_until].
  destruct (Ascii.eqb y c) eqn:Ey, (Ascii.eqb x c) eqn:Ex; cbn [take_until];
    rewrite ?Ex, ?Ey; [done..|]. by rewrite IH.
Qed.

Lemma before_comm (x y : ascii) (s : string) :
  Str.before (String x EmptyString) (Str.before (String y EmptyString) s)
    = Str.before (String y EmptyString) (Str.before (String x EmptyString) s).
Proof.
  apply to_list_inj. rewrite !before_take_until. apply take_until_comm.
Qed.

(** X29.  On a text of ASCII characters that is no URL (it holds no
    ["://"]) the [normalize_path] of [normalize_input.py] cuts the query
    and the fragment as the one of [build_ledger.py] does, but keeps
    doubled slashes: the second is the first with the slashes
    collapsed.  On a blank value they differ: the first gives the root
    path, the second the empty path, which [load_rows] drops. *)
Theorem normalize_path_versions (urlparse_path : string -> string)
    (value : option string) :
  let p := NormalizeInput.normalize_path urlparse_path value in
  Str.is_ascii (default EmptyString value) = true ->
  Str.contains "://" (Str.strip (default EmptyString value)) = false ->
  (exists t, p = String "/" t) /\
  Str.contains "?" p = false /\ Str.contains "#" p = false /\
  (Str.strip (default EmptyString value) = EmptyString ->
     p = "/" /\ normalize_path value = EmptyString) /\
  (Str.strip (default EmptyString value) <> EmptyString ->
     normalize_path value = collapse_slashes (String.length p) p).
Proof.
  cbv zeta. intros _. unfold NormalizeInput.normalize_path, normalize_path.
  destruct (Str.strip (default EmptyString value)) as [|c v] eqn:Ev.
  { intros _. split; [by exists EmptyString|]. repeat split; done. }
  intros Eu. rewrite Eu.
  rewrite !before_absent.
  rewrite (before_comm "?" "#" (String c v)).
  set (u := String c v) in *.
  destruct (cut_query_fragment u) as ([t Ht] & Hq & Hf).
  cbv zeta in Ht, Hq, Hf. rewrite !before_absent in Ht, Hq, Hf.
  split; [by exists t|].
  split; [by apply contains_false_char|]. split; [by apply contains_false_char|].
  split; [done|]. intros _. reflexivity.
Qed.
End TwoNormalizers.

Lemma normalize_path_versions_witness :
  Str.contains "://" (Str.strip " a//b?x=1#y ") = false /\
  NormalizeInput.normalize_path (fun _ => EmptyString) (Some " a//b?x=1#y ") = "/a//b" /\
  normalize_path (Some " a//b?x=1#y ") = "/a/b" /\
  normalize_path (Some " a//b?x=1#y ") = collapse_slashes 5 "/a//b".
Proof.
  split; [vm_compute; reflexivity|]. split; [vm_compute; reflexivity|].
  split; [vm_compute; reflexivity|].
  refine (proj2 (proj2 (proj2 (proj2
            (normalize_path_versions (fun _ => EmptyString) (Some " a//b?x=1#y ")
               _ _)))) _).
  - vm_compute. reflexivity.
  - vm_compute. reflexivity.
  - vm_compute. discriminate.
Defined.
